(** * Face attendance system: a shallow embedding and its properties

    The development follows the Python modules that carry the logic of the
    repository:

    - [face_system.py]  : [Module Face]   (enrolment, training, recognition)
    - [attendance.py]   : [Module Json]   (flat-file attendance ledger)
    - [database.py]     : [Module Sqlite] (SQLite attendance ledger)
    - [app.py], [app_sqlite.py] : [Module App] (the page "Mark Attendance")

    OpenCV, the directory listing of the operating system and the sort
    performed by the SQL engine are interfaces of the environment; they are
    type classes here, and every statement holds for all their instances. *)

From stdpp Require Import gmap strings list sorting pretty.
From Stdlib Require Import QArith.

Local Open Scope string_scope.
Local Open Scope list_scope.
Local Open Scope Z_scope.

(** ** Python string helpers *)

(** [s.endswith(suf)]: [s] is [suf], or the tail of [s] ends with [suf]. *)
Fixpoint endswith (s suf : string) : bool :=
  String.eqb s suf ||
  match s with
  | EmptyString => false
  | String _ s' => endswith s' suf
  end.

(** [s.replace(old, new)] for a non-empty [old]: a left-to-right scan that
    replaces each occurrence found and resumes after it.  [skip] counts the
    characters of the occurrence that are still to be dropped. *)
Fixpoint replace_go (old new : string) (skip : nat) (s : string) : string :=
  match s with
  | EmptyString => EmptyString
  | String c s' =>
      match skip with
      | S k => replace_go old new k s'
      | O =>
          if String.prefix old s
          then new +:+ replace_go old new (String.length old - 1) s'
          else String c (replace_go old new 0 s')
      end
  end.

Definition replace (s old new : string) : string := replace_go old new 0 s.

(** [old in s] *)
Fixpoint occurs (old s : string) : bool :=
  String.prefix old s ||
  match s with
  | EmptyString => false
  | String _ s' => occurs old s'
  end.

(** [s.upper()] on ASCII text: the letters a-z become A-Z *)
Definition ascii_upper (c : Ascii.ascii) : Ascii.ascii :=
  let n := Ascii.nat_of_ascii c in
  if (97 <=? n)%nat && (n <=? 122)%nat then Ascii.ascii_of_nat (n - 32) else c.

Fixpoint upper (s : string) : string :=
  match s with
  | EmptyString => EmptyString
  | String c s' => String (ascii_upper c) (upper s')
  end.

(** ** Naive local date-times

    [datetime.now()] is a naive local time with microsecond resolution.  A
    [datetime] is the number of microseconds since 1970-01-01 00:00:00,
    negative before; days are numbered from there.  The text
    [strftime('%Y-%m-%d')] of a day is injective and ordered like the day
    number as long as the year has four digits, so a date is represented by
    its day number; the text ['%Y-%m-%d %H:%M:%S'] is likewise represented
    by the whole second. *)

Definition datetime := Z.

(** The days whose year has four digits, 1000-01-01 to 9999-12-31.  Before
    them [strftime('%Y')] gives fewer digits, and the comparison of two
    dates as text, which is what SQLite does with the [date] column, is no
    longer that of the days; after them [datetime] arithmetic raises
    [OverflowError].  The order of dates is modelled on these days only. *)
Definition first_day : Z := -354285.
Definition last_day : Z := 2932896.

Definition four_digit_year (d : Z) : Prop := first_day ≤ d ≤ last_day.

Definition us_per_second : Z := 1000000.
Definition seconds_per_day : Z := 86400.
Definition us_per_day : Z := seconds_per_day * us_per_second.

(** whole seconds since the first instant: the value kept by
    [strftime('%Y-%m-%d %H:%M:%S')] and restored by [strptime] *)
Definition second_of (t : datetime) : Z := t `div` us_per_second.
(** the calendar day: [strftime('%Y-%m-%d')] *)
Definition date_of (t : datetime) : Z := t `div` us_per_day.
(** the day of a stored whole second *)
Definition date_of_second (s : Z) : Z := s `div` seconds_per_day.

(** [timedelta.seconds] of the difference [a - b] of two instants given in
    microseconds: Python normalises a timedelta to days, seconds in
    [0, 86400) and microseconds, so the field is the floor of the
    difference modulo one day. *)
Definition timedelta_seconds (a b : Z) : Z :=
  ((a - b) `mod` us_per_day) `div` us_per_second.

(** [now - timedelta(days=n)] *)
Definition minus_days (t : datetime) (n : Z) : datetime := t - n * us_per_day.

Definition two_digits (n : Z) : string :=
  if (n <? 10)%Z then "0" +:+ pretty n else pretty n.

(** [strftime('%H:%M:%S')] of a whole second *)
Definition strftime_HMS (s : Z) : string :=
  let sod := s `mod` seconds_per_day in
  two_digits (sod `div` 3600) +:+ ":" +:+
  two_digits ((sod `mod` 3600) `div` 60) +:+ ":" +:+
  two_digits (sod `mod` 60).

(** ** Punch types: the values admitted by the CHECK constraint *)

Inductive punch_type := PIn | POut | PBreak | PLunch.

Global Instance punch_type_eq_dec : EqDecision punch_type.
Proof. solve_decision. Defined.

Definition punch_type_str (p : punch_type) : string :=
  match p with
  | PIn => "in" | POut => "out" | PBreak => "break" | PLunch => "lunch"
  end.

Definition punch_type_eqb (a b : punch_type) : bool := bool_decide (a = b).

(** one entry of a day's list: [{'type': ..., 'time': 'HH:MM:SS'}] *)
Record record := { r_type : punch_type; r_time : string }.

Global Instance record_eq_dec : EqDecision record.
Proof. solve_decision. Defined.

Definition punch_type_code (p : punch_type) : nat :=
  match p with PIn => 0 | POut => 1 | PBreak => 2 | PLunch => 3 end%nat.

Definition punch_type_of_code (n : nat) : punch_type :=
  match n with 0 => PIn | 1 => POut | 2 => PBreak | _ => PLunch end%nat.

Global Instance punch_type_countable : Countable punch_type.
Proof.
  refine (inj_countable' punch_type_code punch_type_of_code _).
  by intros [].
Defined.

(** * face_system.py *)

Module Face.

(** The OpenCV objects the module drives.  [detectMultiScale] is the cascade
    with its fixed parameters (scale 1.3, 5 neighbours, 50x50), [crop] the
    slice [gray[y:y+h, x:x+w]]. *)
Class OpenCV := {
  Frame : Type;
  Gray : Type;
  Face : Type;
  Model : Type;
  preprocess : Frame → Gray;
  detectMultiScale : Gray → list (Z * Z * Z * Z);
  crop : Gray → Z * Z * Z * Z → Face;
  lbph_train : list Face → list Z → Model;
  lbph_predict : Model → Face → Z * Q;
}.

(** the pickled dictionary of one user *)
Record user_data `{OpenCV} := {
  ud_name : string;
  ud_samples : list Face;
  ud_registered_at : string;
}.

(** [os.listdir] of the data directory: the entries in an order chosen by
    the file system.  An entry is returned with its content, which the
    source reads right after by [open] and [pickle.load]. *)
Class FileSystem `{OpenCV} := {
  listdir : gmap string user_data → list (string * user_data);
  listdir_perm : ∀ d, listdir d ≡ₚ map_to_list d;
}.

Section face_system.
Context `{CV : OpenCV} `{FS : !FileSystem}.

(** The object and the files it owns.  [data_dir] is [None] while
    [data/faces] does not exist; [model_file] and [users_file] are
    [models/face_model.yml] and [models/users.pkl]. *)
Record FaceSystem := {
  users : gmap Z string;
  trained : bool;
  recognizer : Model;
  data_dir : option (gmap string user_data);
  model_file : option Model;
  users_file : option (gmap Z string);
}.

Definition set_users (u : gmap Z string) (s : FaceSystem) : FaceSystem :=
  {| users := u; trained := trained s; recognizer := recognizer s;
     data_dir := data_dir s; model_file := model_file s;
     users_file := users_file s |}.

Definition set_data_dir (d : gmap string user_data) (s : FaceSystem) : FaceSystem :=
  {| users := users s; trained := trained s; recognizer := recognizer s;
     data_dir := Some d; model_file := model_file s;
     users_file := users_file s |}.

(** the product of two [numpy.int32] values: the low 32 bits of the
    product, read as a signed number *)
Definition int32 (z : Z) : Z := (z + 2 ^ 31) `mod` 2 ^ 32 - 2 ^ 31.

(** [max(faces, key=lambda f: f[2] * f[3])]: the first rectangle with the
    largest key.  The rows of [faces] are [numpy.int32], and so is the
    key. *)
Definition area (r : Z * Z * Z * Z) : Z :=
  let '(_, _, w, h) := r in int32 (w * h).

Fixpoint max_by_area (best : Z * Z * Z * Z) (rest : list (Z * Z * Z * Z))
  : Z * Z * Z * Z :=
  match rest with
  | [] => best
  | r :: rest' =>
      if (area best <? area r)%Z then max_by_area r rest' else max_by_area best rest'
  end.

Definition detect_face (frame : Frame) : option (Face * (Z * Z * Z * Z)) :=
  let gray := preprocess frame in
  match detectMultiScale gray with
  | [] => None
  | f :: faces =>
      let r := max_by_area f faces in
      Some (crop gray r, r)
  end.

Definition is_pkl (e : string * user_data) : bool := endswith e.1 ".pkl".

(** the loop of [train] over [enumerate(user_files)] *)
Fixpoint train_loop (idx : nat) (files : list (string * user_data))
    (us : gmap Z string) (faces : list Face) (labels : list Z)
  : gmap Z string * list Face * list Z :=
  match files with
  | [] => (us, faces, labels)
  | (_, ud) :: rest =>
      train_loop (S idx) rest
        (<[Z.of_nat idx := ud_name ud]> us)
        (faces ++ ud_samples ud)
        (labels ++ replicate (length (ud_samples ud)) (Z.of_nat idx))
  end.

Definition train (s : FaceSystem) : bool * FaceSystem :=
  let s := set_users ∅ s in
  match data_dir s with
  | None => (false, s)
  | Some dir =>
      let user_files := List.filter is_pkl (listdir dir) in
      if (length user_files =? 0)%nat then (false, s)
      else
        let '(us, faces, labels) := train_loop 0 user_files ∅ [] [] in
        let s := set_users us s in
        if (length faces =? 0)%nat then (false, s)
        else
          let m := lbph_train faces labels in
          (true,
           {| users := us; trained := true; recognizer := m;
              data_dir := data_dir s; model_file := Some m;
              users_file := Some us |})
  end.



(** [FaceSystem.__init__]: a fresh recognizer, then [load_model].  The
    result is [None] when the model file exists and [models/users.pkl] does
    not: [open] raises and no object is constructed. *)
Definition load_model (fresh : Model) (dir : option (gmap string user_data))
    (mf : option Model) (uf : option (gmap Z string)) : option FaceSystem :=
  match mf with
  | Some m =>
      match uf with
      | Some u =>
          Some {| users := u; trained := true; recognizer := m;
                  data_dir := dir; model_file := mf; users_file := uf |}
      | None => None
      end
  | None =>
      Some {| users := ∅; trained := false; recognizer := fresh;
              data_dir := dir; model_file := mf; users_file := uf |}
  end.

(** A name that [os.path.join(data_dir, name + '.pkl')] keeps in the
    directory and that [open] accepts on a POSIX file system, where file
    names are compared byte by byte: no separator, no NUL, and at most 255
    bytes with the extension. *)
Definition file_name_ok (name : string) : bool :=
  negb (occurs "/" name) && negb (occurs (String Ascii.zero "") name) &&
  (String.length name + 4 <=? 255)%nat.

(** The entry written for [name] is [name.pkl] in the flat directory
    [data/faces]: this is [open(os.path.join(data_dir, name + '.pkl'))] for
    a [name] that is a file name ([file_name_ok]); with a separator in it
    the path leaves the directory.  [now] is
    [datetime.now().isoformat()]. *)
Definition register_user (name : string) (frames : list Frame) (now : string)
    (s : FaceSystem) : (bool * string) * FaceSystem :=
  let s := match data_dir s with
           | None => set_data_dir ∅ s
           | Some _ => s
           end in
  let samples := omap (λ fr, fst <$> detect_face fr) frames in
  if (length samples <? 10)%nat then
    ((false, "Only captured " +:+ pretty (length samples) +:+
             " samples. Need at least 10."), s)
  else
    let ud := {| ud_name := name; ud_samples := samples;
                 ud_registered_at := now |} in
    let s := set_data_dir (<[name +:+ ".pkl" := ud]> (default ∅ (data_dir s))) s in
    let '(success, s) := train s in
    if success
    then ((true, "Registered " +:+ name +:+ " with " +:+
                 pretty (length samples) +:+ " samples"), s)
    else ((false, "Training failed"), s).

(** the calls [recognize] makes into OpenCV, in order *)
Inductive call :=
  | CallDetect (f : Frame)
  | CallPredict (m : Model) (face : Face).

(** [recognize] returns the pair of the source ([None] is Python's [None])
    together with the calls it made. *)
Definition recognize (frame : Frame) (s : FaceSystem)
  : (option string * Q) * list call :=
  if negb (trained s) then ((None, 0%Q), [])
  else
    match detect_face frame with
    | None => ((None, 0%Q), [CallDetect frame])
    | Some (face, rect) =>
        let '(label, confidence) := lbph_predict (recognizer s) face in
        let log := [CallDetect frame; CallPredict (recognizer s) face] in
        if Qlt_le_dec confidence 70
        then ((Some (default "Unknown" (users s !! label)), confidence), log)
        else ((Some "Unknown", confidence), log)
    end.

Definition get_all_users (s : FaceSystem) : list string :=
  match data_dir s with
  | None => []
  | Some dir =>
      (λ e, replace e.1 ".pkl" "") <$> List.filter is_pkl (listdir dir)
  end.

(** a frame in which the cascade finds a face *)
Definition has_face (frame : Frame) : bool :=
  match detect_face frame with Some _ => true | None => false end.

(** the [.pkl] entries of the data directory, as [train] lists them *)
Definition pkl_files (s : FaceSystem) : list (string * user_data) :=
  match data_dir s with
  | None => []
  | Some dir => List.filter is_pkl (listdir dir)
  end.

(** every [.pkl] entry of the data directory is a name without [.pkl] in
    it followed by the extension *)
Definition plain_names (s : FaceSystem) : Prop :=
  ∀ f ud, default ∅ (data_dir s) !! f = Some ud → endswith f ".pkl" = true →
    ∃ n, f = n +:+ ".pkl" ∧ occurs ".pkl" n = false.

(** the labels [train] gives to the samples of the listed files: every
    sample of the file at position [i] gets the label [idx + i] *)
Definition labels_of (idx : nat) (files : list (string * user_data)) : list Z :=
  concat (imap (λ i e, replicate (length (ud_samples e.2)) (Z.of_nat (idx + i)))
            files).


(** a sequence of enrolments *)
Definition enroll_all (es : list (string * list Frame * string))
    (s : FaceSystem) : FaceSystem :=
  foldl (λ s e, (register_user e.1.1 e.1.2 e.2 s).2) s es.

End face_system.

(** [cv2.Laplacian(gray, cv2.CV_64F).var()] of a frame *)
Class Texture `{OpenCV} := {
  laplacian_variance : Frame → Q;
}.

(** [anti_spoof_check]: the frame passes when the variance is above 100 *)
Definition anti_spoof_check `{OpenCV} `{!Texture} (frame : Frame) : bool * Q :=
  let variance := laplacian_variance frame in
  ((if Qlt_le_dec 100 variance then true else false), variance).

End Face.

(** * attendance.py *)

Module Json.

(** [l[:n]] *)
Definition py_take {A} (n : Z) (l : list A) : list A :=
  if (0 <=? n)%Z then take (Z.to_nat n) l
  else take (Z.to_nat (Z.of_nat (length l) + n)) l.

(** [sorted(keys, reverse=True)] *)
Definition sorted_desc (keys : list Z) : list Z := merge_sort (flip Z.le) keys.

(** [self.records]: name, then date, then the list of that day.  The first
    component of the result is the pair the source returns; [self.save()]
    writes the dictionary as it is and is not modelled apart. *)
Definition punch (name : string) (punch_type : punch_type) (now : datetime)
    (records : gmap string (gmap Z (list record)))
  : (bool * string) * gmap string (gmap Z (list record)) :=
  let date := date_of now in
  let time := strftime_HMS (second_of now) in
  let records :=
    match records !! name with
    | None => <[name := ∅]> records
    | Some _ => records
    end in
  let days := default ∅ (records !! name) in
  let days :=
    match days !! date with
    | None => <[date := []]> days
    | Some _ => days
    end in
  let records := <[name := days]> records in
  let today := default [] (days !! date) in
  let append :=
    ((true, "Punched " +:+ punch_type_str punch_type +:+
            " successfully at " +:+ time),
     <[name := <[date := today ++ [{| r_type := punch_type; r_time := time |}]]> days]>
       records) in
  match last today with
  | Some l =>
      if punch_type_eqb (r_type l) punch_type
      then ((false, "Already punched " +:+ punch_type_str punch_type +:+
                    " at " +:+ r_time l), records)
      else append
  | None => append
  end.

(** The result is a dictionary in insertion order: a list of pairs. *)
Definition get_user_history (name : string) (days : Z)
    (records : gmap string (gmap Z (list record))) : list (Z * list record) :=
  match records !! name with
  | None => []
  | Some by_date =>
      let all_dates := sorted_desc (map_to_list by_date).*1 in
      omap (λ date, pair date <$> by_date !! date) (py_take days all_dates)
  end.

Definition get_today_status (name : string) (now : datetime)
    (records : gmap string (gmap Z (list record))) : string :=
  let today := date_of now in
  match records !! name with
  | None => "Not punched in"
  | Some by_date =>
      match by_date !! today with
      | None => "Not punched in"
      | Some records =>
          match last records with
          | None => "Not punched in"
          | Some l =>
              "Punched " +:+ upper (punch_type_str (r_type l)) +:+ " at " +:+
              r_time l
          end
      end
  end.

(** every stored day has an event: [punch] creates a day only to fill it *)
Definition records_ok (records : gmap string (gmap Z (list record))) : Prop :=
  ∀ name by_date d l,
    records !! name = Some by_date → by_date !! d = Some l → l ≠ [].

(** the list stored for a user and a day, empty when there is none *)
Definition day_list (name : string) (date : Z)
    (records : gmap string (gmap Z (list record))) : list record :=
  default [] (default ∅ (records !! name) !! date).

Definition new_record (ty : punch_type) (now : datetime) : record :=
  {| r_type := ty; r_time := strftime_HMS (second_of now) |}.

End Json.

(** * database.py *)

Module Sqlite.

Record user_row := { u_id : Z; u_name : string }.

Record att_row := {
  a_id : Z;
  a_user_id : Z;
  a_type : punch_type;
  a_time : Z;   (* punch_time, the whole second of 'YYYY-MM-DD HH:MM:SS' *)
  a_date : Z;   (* date, the day of 'YYYY-MM-DD' *)
}.

(** The two tables in rowid order, with the AUTOINCREMENT counters of
    [sqlite_sequence]. *)
Record Db := {
  users : list user_row;
  users_seq : Z;
  attendance : list att_row;
  attendance_seq : Z;
}.

Definition empty_db : Db :=
  {| users := []; users_seq := 0; attendance := []; attendance_seq := 0 |}.

(** [ORDER BY]: the engine returns the rows sorted by the given order; the
    order among rows that compare equal is its own choice. *)
Class SqlEngine := {
  order_by : (att_row → att_row → bool) → list att_row → list att_row;
  order_by_perm : ∀ leb l, order_by leb l ≡ₚ l;
  order_by_sorted : ∀ leb l,
    (∀ x y, leb x y || leb y x) →
    (∀ x y z, leb x y → leb y z → leb x z) →
    StronglySorted (λ x y, leb x y) (order_by leb l);
}.

(** [ORDER BY punch_time DESC] *)
Definition by_time_desc (x y : att_row) : bool := (a_time y <=? a_time x)%Z.

(** [ORDER BY date DESC, punch_time DESC] *)
Definition by_date_time_desc (x y : att_row) : bool :=
  (a_date y <? a_date x)%Z ||
  ((a_date x =? a_date y)%Z && (a_time y <=? a_time x)%Z).

Inductive exn :=
  | IntegrityError (msg : string)
  | OperationalError (msg : string).

Definition exn_str (e : exn) : string :=
  match e with IntegrityError m | OperationalError m => m end.

(** what a method does: it returns its pair or lets an exception escape *)
Inductive result :=
  | Returned (success : bool) (msg : string)
  | Raised (e : exn).

(** [with self.db.get_connection() as conn]: the body works on the
    connection; leaving it normally commits (which may itself fail),
    an exception rolls back and is raised again.  The errors of the storage
    layer are followed where the source handles them, in [delete_user];
    the other methods are run on a storage layer that raises none. *)
Definition get_connection {A} (commit_fault : option string)
    (body : Db → (A + exn) * Db) (db : Db) : (A + exn) * Db :=
  match body db with
  | (inl a, db') =>
      match commit_fault with
      | None => (inl a, db')
      | Some m => (inr (OperationalError m), db)
      end
  | (inr e, _) => (inr e, db)
  end.

(** [cursor.execute] of a statement that changes the tables; [fault] is the
    error of the storage layer, if any. *)
Definition execute (fault : option string) (stmt : Db → Db)
  : Db → (unit + exn) * Db :=
  λ db,
    match fault with
    | None => (inl tt, stmt db)
    | Some m => (inr (OperationalError m), db)
    end.

Definition set_users (us : list user_row) (seq : Z) (db : Db) : Db :=
  {| users := us; users_seq := seq;
     attendance := attendance db; attendance_seq := attendance_seq db |}.

Definition set_attendance (rows : list att_row) (seq : Z) (db : Db) : Db :=
  {| users := users db; users_seq := users_seq db;
     attendance := rows; attendance_seq := seq |}.

(** [INSERT INTO users (name) VALUES (?)] under [name TEXT UNIQUE] *)
Definition insert_user (name : string) (db : Db) : (unit + exn) * Db :=
  if existsb (λ u, String.eqb (u_name u) name) (users db)
  then (inr (IntegrityError "UNIQUE constraint failed: users.name"), db)
  else
    let id := users_seq db + 1 in
    (inl tt, set_users (users db ++ [{| u_id := id; u_name := name |}]) id db).

Definition add_user (name : string) (db : Db) : (bool * string) * Db :=
  match get_connection None (insert_user name) db with
  | (inl _, db') => ((true, "User " +:+ name +:+ " added successfully"), db')
  | (inr (IntegrityError _), db') =>
      ((false, "User " +:+ name +:+ " already exists"), db')
  | (inr e, db') => ((false, "Error adding user: " +:+ exn_str e), db')
  end.

Definition get_user_id (name : string) (db : Db) : option Z :=
  u_id <$> List.find (λ u, String.eqb (u_name u) name) (users db).

(** [not user_id]: [None] and [0] are false values *)
Definition falsy (o : option Z) : bool :=
  match o with
  | None => true
  | Some id => (id =? 0)%Z
  end.

(** [INSERT INTO attendance (user_id, punch_type, punch_time, date)] *)
Definition insert_attendance (user_id : Z) (ty : punch_type) (time date : Z)
    (db : Db) : Db :=
  let id := attendance_seq db + 1 in
  set_attendance
    (attendance db ++
       [{| a_id := id; a_user_id := user_id; a_type := ty;
           a_time := time; a_date := date |}]) id db.

(** the rows [WHERE user_id = ? AND date = ?] *)
Definition rows_of_day (user_id date : Z) (db : Db) : list att_row :=
  List.filter (λ r, (a_user_id r =? user_id)%Z && (a_date r =? date)%Z)
    (attendance db).

Section sqlite.
Context `{E : SqlEngine}.

(** the body of [punch] once the user id is known *)
Definition punch_known (user_id : Z) (punch_type : punch_type)
    (now : datetime) (db : Db) : result * Db :=
  let date := date_of now in
  let time := strftime_HMS (second_of now) in
  let insert :=
    (Returned true ("Punched " +:+ punch_type_str punch_type +:+
                    " successfully at " +:+ time),
     insert_attendance user_id punch_type (second_of now) date db) in
  match head (order_by by_time_desc (rows_of_day user_id date db)) with
  | Some last_record =>
      if punch_type_eqb (a_type last_record) punch_type then
        if (timedelta_seconds now (a_time last_record * us_per_second) <? 300)%Z
        then (Returned false
                ("Already punched " +:+ punch_type_str punch_type +:+
                 " at " +:+ strftime_HMS (a_time last_record)), db)
        else insert
      else insert
  | None => insert
  end.

Definition punch (name : string) (punch_type : punch_type) (now : datetime)
    (db : Db) : result * Db :=
  if falsy (get_user_id name db) then
    match add_user name db with
    | ((false, msg), db1) => (Returned false msg, db1)
    | ((true, _), db1) =>
        match get_user_id name db1 with
        | Some user_id => punch_known user_id punch_type now db1
        | None =>
            (* a NULL user_id matches no row and violates NOT NULL *)
            (Raised (IntegrityError
                       "NOT NULL constraint failed: attendance.user_id"), db1)
        end
    end
  else
    match get_user_id name db with
    | Some user_id => punch_known user_id punch_type now db
    | None => (Raised (IntegrityError
                         "NOT NULL constraint failed: attendance.user_id"), db)
    end.

(** [history[date].append(...)] on a dictionary in insertion order *)
Fixpoint dict_append (history : list (Z * list record)) (date : Z)
    (x : record) : list (Z * list record) :=
  match history with
  | [] => [(date, [x])]
  | (d, l) :: rest =>
      if (d =? date)%Z then (d, l ++ [x]) :: rest
      else (d, l) :: dict_append rest date x
  end.

Definition to_record (r : att_row) : record :=
  {| r_type := a_type r; r_time := strftime_HMS (a_time r) |}.

Definition get_user_history (name : string) (days : Z) (now : datetime)
    (db : Db) : list (Z * list record) :=
  match get_user_id name db with
  | None => []
  | Some user_id =>
      if (user_id =? 0)%Z then []
      else
        let start_date := date_of (minus_days now days) in
        let records :=
          order_by by_date_time_desc
            (List.filter
               (λ r, (a_user_id r =? user_id)%Z && (start_date <=? a_date r)%Z)
               (attendance db)) in
        foldl (λ history r, dict_append history (a_date r) (to_record r))
          [] records
  end.

Definition get_today_status (name : string) (now : datetime) (db : Db)
  : string :=
  match get_user_id name db with
  | None => "Not registered"
  | Some user_id =>
      if (user_id =? 0)%Z then "Not registered"
      else
        match head (order_by by_time_desc
                      (rows_of_day user_id (date_of now) db)) with
        | None => "Not punched in"
        | Some record =>
            "Punched " +:+ upper (punch_type_str (a_type record)) +:+ " at " +:+
            strftime_HMS (a_time record)
        end
  end.

End sqlite.

(** [SELECT name FROM users ORDER BY name]: the names in the order of their
    bytes.  The sorted list of names is the same whatever the engine does
    with equal names. *)
Definition get_all_users (db : Db) : list string :=
  merge_sort String.le (u_name <$> users db).

(** a row of [users u LEFT JOIN attendance a]: the columns of [a] are NULL
    when the user has no matching row *)
Record joined := { j_name : string; j_att : option att_row }.

(** [FROM users u LEFT JOIN attendance a ON u.id = a.user_id AND a.date = ?] *)
Definition left_join (date : Z) (db : Db) : list joined :=
  flat_map
    (λ u,
       match rows_of_day (u_id u) date db with
       | [] => [{| j_name := u_name u; j_att := None |}]
       | rows => (λ a, {| j_name := u_name u; j_att := Some a |}) <$> rows
       end)
    (users db).

(** [ORDER BY u.name, a.punch_time]: NULL sorts before every value *)
Definition null_first (x y : option att_row) : bool :=
  match x, y with
  | None, _ => true
  | Some _, None => false
  | Some a, Some b => (a_time a <=? a_time b)%Z
  end.

Definition by_name_time (x y : joined) : bool :=
  String.leb (j_name x) (j_name y) &&
  (negb (String.leb (j_name y) (j_name x)) || null_first (j_att x) (j_att y)).

(** [ORDER BY] on the rows of the join, as for [SqlEngine] *)
Class SqlJoinEngine := {
  order_join : (joined → joined → bool) → list joined → list joined;
  order_join_perm : ∀ leb l, order_join leb l ≡ₚ l;
  order_join_sorted : ∀ leb l,
    (∀ x y, leb x y || leb y x) →
    (∀ x y z, leb x y → leb y z → leb x z) →
    StronglySorted (λ x y, leb x y) (order_join leb l);
}.

(** the loop of [get_attendance_summary] on one row: the user gets an entry,
    and the event is appended when the row has one *)
Fixpoint summary_add (summary : list (string * list record)) (name : string)
    (x : option record) : list (string * list record) :=
  match summary with
  | [] => [(name, option_list x)]
  | (n, l) :: rest =>
      if String.eqb n name then (n, l ++ option_list x) :: rest
      else (n, l) :: summary_add rest name x
  end.

(** [date] is [None] when the caller leaves it out *)
Definition get_attendance_summary `{SqlJoinEngine} (date : option Z)
    (now : datetime) (db : Db) : list (string * list record) :=
  let date := default (date_of now) date in
  let records := order_join by_name_time (left_join date db) in
  foldl (λ summary r, summary_add summary (j_name r) (to_record <$> j_att r))
    [] records.

(** [DELETE FROM attendance WHERE user_id = ?] *)
Definition delete_attendance_of (user_id : Z) (db : Db) : Db :=
  set_attendance
    (List.filter (λ r, negb (a_user_id r =? user_id)%Z) (attendance db))
    (attendance_seq db) db.

(** [DELETE FROM users WHERE id = ?] *)
Definition delete_user_row (user_id : Z) (db : Db) : Db :=
  set_users (List.filter (λ u, negb (u_id u =? user_id)%Z) (users db))
    (users_seq db) db.

(** [disk k] is the error of the storage layer at the first statement
    ([k = 0]), at the second ([k = 1]) and at the commit ([k = 2]) of the
    transaction; the [try] of the source turns any of them into a failure
    result. *)
Definition delete_user (disk : nat → option string) (name : string) (db : Db)
  : (bool * string) * Db :=
  match get_user_id name db with
  | None => ((false, "User not found"), db)
  | Some user_id =>
      if (user_id =? 0)%Z then ((false, "User not found"), db)
      else
        let body := λ conn,
          match execute (disk 0%nat) (delete_attendance_of user_id) conn with
          | (inl _, conn) => execute (disk 1%nat) (delete_user_row user_id) conn
          | (inr e, conn) => (inr e, conn)
          end in
        match get_connection (disk 2%nat) body db with
        | (inl _, db') =>
            ((true, "User " +:+ name +:+ " and all records deleted"), db')
        | (inr e, db') => ((false, "Error deleting user: " +:+ exn_str e), db')
        end
  end.

(** the three dictionaries of [get_statistics] *)
Record Stats := {
  by_type : gmap punch_type nat;
  by_user : gmap string nat;
  daily : gmap Z nat;
}.

(** [date BETWEEN ? AND ?] *)
Definition between (start_date end_date : Z) (r : att_row) : bool :=
  (start_date <=? a_date r)%Z && (a_date r <=? end_date)%Z.

(** [GROUP BY k] with [COUNT( * )] *)
Definition count_by `{Countable K} (keys : list K) : gmap K nat :=
  foldr (λ k m, <[k := S (default 0%nat (m !! k))]> m) ∅ keys.

(** [GROUP BY date] with the set behind [COUNT(DISTINCT user_id)] *)
Definition distinct_by (rows : list (Z * Z)) : gmap Z (gset Z) :=
  foldr (λ r m, <[r.1 := {[r.2]} ∪ default ∅ (m !! r.1)]> m) ∅ rows.

(** [start_date] and [end_date] are [None] when the caller leaves them out.
    In [by_user] every user row is a group of its own, names being
    unique. *)
Definition get_statistics (start_date end_date : option Z) (now : datetime)
    (db : Db) : Stats :=
  let start_date := default (date_of (minus_days now 30)) start_date in
  let end_date := default (date_of now) end_date in
  let rows := List.filter (between start_date end_date) (attendance db) in
  {| by_type := count_by (a_type <$> rows);
     by_user :=
       list_to_map
         ((λ u, (u_name u,
                 length (List.filter (λ r, (a_user_id r =? u_id u)%Z) rows)))
            <$> users db);
     daily := size <$> distinct_by ((λ r, (a_date r, a_user_id r)) <$> rows) |}.

(** The constraints of the schema on the tables (unique names, unique
    row ids handed out by a counter that starts at 0), and the agreement of
    the two time columns that every inserted row has. *)
Record db_ok (db : Db) : Prop := {
  ok_names : NoDup (u_name <$> users db);
  ok_ids : NoDup (u_id <$> users db);
  ok_seq : 0 ≤ users_seq db;
  ok_id_range : ∀ u, u ∈ users db → 0 < u_id u ≤ users_seq db;
  ok_dates : ∀ r, r ∈ attendance db → a_date r = date_of_second (a_time r);
}.

(** ** Vocabulary of the statements *)

(** the table after [punch] has created the user *)
Definition with_user (name : string) (db : Db) : Db :=
  set_users (users db ++ [{| u_id := users_seq db + 1; u_name := name |}])
    (users_seq db + 1) db.

(** the entries of day [d] among the rows [rs], in the order of [rs] *)
Definition day_records (d : Z) (rs : list att_row) : list record :=
  to_record <$> List.filter (λ r, a_date r =? d) rs.

(** the tables without a user and without the rows of the user *)
Definition purge (uid : Z) (db : Db) : Db :=
  delete_user_row uid (delete_attendance_of uid db).

Definition no_fault (disk : nat → option string) : Prop :=
  disk 0%nat = None ∧ disk 1%nat = None ∧ disk 2%nat = None.

(** [None] for an empty group, as [GROUP BY] has no row for it *)
Definition group_size (n : nat) : option nat :=
  match n with O => None | S _ => Some n end.

(** every attendance row belongs to a user row: the foreign key of the
    schema, which SQLite does not enforce on a default connection *)
Definition refs_ok (db : Db) : Prop :=
  ∀ r, r ∈ attendance db → ∃ u, u ∈ users db ∧ u_id u = a_user_id r.

(** the events of user [name] among the rows of the join, in their order *)
Definition events_of (name : string) (js : list joined) : list record :=
  omap (λ j, to_record <$> j_att j)
    (List.filter (λ j, String.eqb (j_name j) name) js).

(** the dates and the times of the stored rows are of four-digit years, as
    those of every row written by [punch] under a clock of such a year: the
    texts of the columns [date] and [punch_time] are then ordered like the
    days and the seconds *)
Definition rows_in_calendar (db : Db) : Prop :=
  ∀ r, r ∈ attendance db →
       four_digit_year (a_date r) ∧
       four_digit_year (date_of_second (a_time r)).

(** the row [punch] inserts *)
Definition punch_row (uid : Z) (ty : punch_type) (now : datetime) (db : Db)
  : att_row :=
  {| a_id := attendance_seq db + 1; a_user_id := uid; a_type := ty;
     a_time := second_of now; a_date := date_of now |}.

(** the rows counted by [get_statistics] between two dates that do not
    belong to user [uid] *)
Definition rows_of_others (uid s e : Z) (db : Db) : list att_row :=
  List.filter (λ r, between s e r && negb (a_user_id r =? uid)) (attendance db).

End Sqlite.

(** * app.py and app_sqlite.py: the page "Mark Attendance" *)

Module App.

(** what the page shows for a captured frame: the liveness warning
    ([st.markdown] of the error), the recognised name with the punch
    buttons, or the error "Face not recognized" *)
Inductive shown :=
  | LivenessWarning (variance : Q)
  | PunchButtons (name : string) (confidence : Q)
  | NotRecognized.

(** [name and name != "Unknown"] *)
Definition is_recognized (name : option string) : bool :=
  match name with
  | None => false
  | Some n => negb (String.eqb n "") && negb (String.eqb n "Unknown")
  end.

(** [cv2.rectangle(frame, (x, y), (x+w, y+h), (0, 255, 0), 2)]: the frame
    with the outline of the rectangle drawn on it.  The call writes into
    the array it is given. *)
Class Drawing `{Face.OpenCV} := {
  rectangle : Face.Frame → Z * Z * Z * Z → Face.Frame;
}.

(** the array [frame] after [detect_face] and [if rect: cv2.rectangle(...)]:
    the outline of the detected face is drawn on the captured frame *)
Definition annotate `{Face.OpenCV} `{!Drawing} (frame : Face.Frame)
  : Face.Frame :=
  match Face.detect_face frame with
  | Some (_, rect) => rectangle frame rect
  | None => frame
  end.

(** The page first detects the face and draws its rectangle on the frame,
    then runs the liveness check and only then [recognize], both on the
    frame with the rectangle on it.  The result carries the calls made into
    OpenCV by [detect_face] and [recognize]. *)
Definition mark_attendance `{Face.OpenCV} `{!Face.Texture} `{!Drawing}
    (frame : Face.Frame) (s : Face.FaceSystem) : shown * list Face.call :=
  let log := [Face.CallDetect frame] in
  let frame := annotate frame in
  let '(is_real, variance) := Face.anti_spoof_check frame in
  if negb is_real then (LivenessWarning variance, log)
  else
    let '((name, confidence), calls) := Face.recognize frame s in
    if is_recognized name
    then (PunchButtons (default "" name) confidence, log ++ calls)
    else (NotRecognized, log ++ calls).

End App.

(** * Concrete environments, used to run the definitions *)

Module Fixture.

(** A frame is the list of rectangles the cascade finds in it, a face region
    is its rectangle, a model is its training set, and the prediction for a
    region [(x, y, w, h)] is label [x] at distance [y]. *)
Definition cv : Face.OpenCV :=
  {| Face.Frame := list (Z * Z * Z * Z);
     Face.Gray := list (Z * Z * Z * Z);
     Face.Face := Z * Z * Z * Z;
     Face.Model := list ((Z * Z * Z * Z) * Z);
     Face.preprocess := id;
     Face.detectMultiScale := id;
     Face.crop := λ _ r, r;
     Face.lbph_train := λ faces labels, zip faces labels;
     Face.lbph_predict := λ _ f, (f.1.1.1, inject_Z f.1.1.2) |}.

(** a directory listed in the order of the map, and in the reverse order *)
Definition fs_forward : @Face.FileSystem cv :=
  {| Face.listdir := map_to_list; Face.listdir_perm := λ d, reflexivity _ |}.

Definition fs_backward : @Face.FileSystem cv :=
  {| Face.listdir := λ d, reverse (map_to_list d);
     Face.listdir_perm := λ d, reverse_Permutation (map_to_list d) |}.

(** a frame with one face, predicted as [label] at distance [score] *)
Definition face_frame (label score : Z) : list (Z * Z * Z * Z) :=
  [(label, score, 60, 60)].

Definition no_face_frame : list (Z * Z * Z * Z) := [].

Definition sample_of (name : string) (n : nat) : @Face.user_data cv :=
  @Face.Build_user_data cv name (replicate n (0, 0, 60, 60))
    "2024-01-01T09:00:00".

(** a system trained on alice whose data directory has been emptied *)
Definition alice_model : @Face.FaceSystem cv :=
  @Face.Build_FaceSystem cv {[ 0 := "alice" ]} true [((0, 0, 60, 60), 0)]
    (Some ∅) (Some [((0, 0, 60, 60), 0)]) (Some {[ 0 := "alice" ]}).

(** the same system with a record without samples in its directory *)
Definition alice_model_bob_file : @Face.FaceSystem cv :=
  @Face.Build_FaceSystem cv {[ 0 := "alice" ]} true [((0, 0, 60, 60), 0)]
    (Some {[ "bob.pkl" := sample_of "bob" 0 ]})
    (Some [((0, 0, 60, 60), 0)]) (Some {[ 0 := "alice" ]}).

(** a fresh installation: no directory, no model *)
Definition fresh : @Face.FaceSystem cv :=
  @Face.Build_FaceSystem cv ∅ false [] None None None.

(** two enrolled identities, not yet trained *)
Definition two_enrolled : @Face.FaceSystem cv :=
  @Face.Build_FaceSystem cv ∅ false []
    (Some (<[ "alice.pkl" := sample_of "alice" 10 ]>
             {[ "bob.pkl" := sample_of "bob" 10 ]}))
    None None.

(** the instant [h:m:s] of day [day] *)
Definition at_time (day h m s : Z) : datetime :=
  (day * seconds_per_day + h * 3600 + m * 60 + s) * us_per_second.

(** the variance of a frame: twice the height of its first rectangle *)
Definition variance_of (frame : list (Z * Z * Z * Z)) : Q :=
  match frame with
  | [] => 0%Q
  | (_, _, _, h) :: _ => inject_Z (2 * h)
  end.

Definition texture : @Face.Texture cv := @Face.Build_Texture cv variance_of.

(** a printed photo of a face: a flat rectangle *)
Definition photo_frame (label score : Z) : list (Z * Z * Z * Z) :=
  [(label, score, 60, 40)].

(** a flatter one *)
Definition flat_frame (label score : Z) : list (Z * Z * Z * Z) :=
  [(label, score, 60, 30)].

(** the outline drawn on a frame adds edges to it: the first rectangle
    grows by 15, and the variance by 30 *)
Definition draw (frame : list (Z * Z * Z * Z)) (r : Z * Z * Z * Z)
  : list (Z * Z * Z * Z) :=
  match frame with
  | [] => []
  | (l, sc, w, h) :: rest => (l, sc, w, h + 15) :: rest
  end.

Definition drawing : @App.Drawing cv := @App.Build_Drawing cv draw.




Definition alice_frame : list (Z * Z * Z * Z) := [(5, 5, 60, 60)].



(** [ORDER BY] by merge sort *)
Definition engine : Sqlite.SqlEngine :=
  {| Sqlite.order_by := λ leb l, merge_sort (λ x y, leb x y) l;
     Sqlite.order_by_perm := λ leb l, merge_sort_Permutation _ l;
     Sqlite.order_by_sorted := λ leb l Htot Htrans,
       @StronglySorted_merge_sort _ (λ x y, leb x y) _ Htrans
         (λ x y, proj1 (orb_True _ _) (Htot x y)) l |}.

Definition join_engine : Sqlite.SqlJoinEngine :=
  {| Sqlite.order_join := λ leb l, merge_sort (λ x y, leb x y) l;
     Sqlite.order_join_perm := λ leb l, merge_sort_Permutation _ l;
     Sqlite.order_join_sorted := λ leb l Htot Htrans,
       @StronglySorted_merge_sort _ (λ x y, leb x y) _ Htrans
         (λ x y, proj1 (orb_True _ _) (Htot x y)) l |}.

(** the SQLite ledger after alice punched in at 09:00 and out at 17:00 of
    day 0, and bob in at 09:30 of day 1 *)
Definition office_db : Sqlite.Db :=
  let db := (@Sqlite.punch engine "alice" PIn (at_time 0 9 0 0) Sqlite.empty_db).2 in
  let db := (@Sqlite.punch engine "alice" POut (at_time 0 17 0 0) db).2 in
  (@Sqlite.punch engine "bob" PIn (at_time 1 9 30 0) db).2.

(** the flat-file ledger after alice punched in on days 0, 1 and 2 and out
    on day 2 *)
Definition office_records : gmap string (gmap Z (list record)) :=
  let r := (Json.punch "alice" PIn (at_time 0 9 0 0) ∅).2 in
  let r := (Json.punch "alice" PIn (at_time 1 9 0 0) r).2 in
  let r := (Json.punch "alice" PIn (at_time 2 9 0 0) r).2 in
  (Json.punch "alice" POut (at_time 2 17 0 0) r).2.

End Fixture.

(** * Properties of face_system.py *)

Section face_properties.
Context `{CV : Face.OpenCV} `{FS : !Face.FileSystem}.
Import Face.

Lemma detect_face_none frame :
  detect_face frame = None ↔ detectMultiScale (preprocess frame) = [].
Proof.
  unfold detect_face. destruct (detectMultiScale (preprocess frame)); split;
    intros; congruence.
Qed.

Lemma samples_length (frames : list Frame) :
  length (omap (λ fr, fst <$> detect_face fr) frames)
  = length (List.filter has_face frames).
Proof.
  induction frames as [|fr frames IH]; [done|].
  cbn. unfold has_face in *. destruct (detect_face fr) as [[face rect]|]; cbn; lia.
Qed.

Lemma endswith_eq (s suf : string) :
  endswith s suf
  = String.eqb s suf ||
    match s with EmptyString => false | String _ s' => endswith s' suf end.
Proof. by destruct s. Qed.

Lemma endswith_app (s suf : string) : endswith (s +:+ suf) suf = true.
Proof.
  induction s as [|c s IH]; rewrite endswith_eq.
  - change ("" +:+ suf) with suf. by rewrite String.eqb_refl.
  - change (String c s +:+ suf) with (String c (s +:+ suf)).
    cbn match. rewrite IH. apply orb_true_r.
Qed.

Lemma train_loop_users files : ∀ idx us faces labels (k : Z),
  (train_loop idx files us faces labels).1.1 !! k
  = if decide (Z.of_nat idx ≤ k < Z.of_nat idx + Z.of_nat (length files))
    then (λ e, ud_name e.2) <$> files !! Z.to_nat (k - Z.of_nat idx)
    else us !! k.
Proof.
  induction files as [|[f ud] files IH]; intros idx us faces labels k; cbn [train_loop].
  - cbn. case_decide; [lia|done].
  - rewrite IH. cbn [length].
    destruct (decide (Z.of_nat idx = k)) as [<-|Hne].
    + rewrite decide_False by lia. rewrite decide_True by lia.
      rewrite lookup_insert_eq. by rewrite Z.sub_diag.
    + rewrite lookup_insert_ne by done.
      repeat case_decide; try lia; try done.
      replace (Z.to_nat (k - Z.of_nat idx)) with (S (Z.to_nat (k - Z.of_nat (S idx)))) by lia.
      done.
Qed.

Lemma train_loop_faces files : ∀ idx us faces labels,
  (train_loop idx files us faces labels).1.2
  = faces ++ concat ((λ e, ud_samples e.2) <$> files).
Proof.
  induction files as [|[f ud] files IH]; intros; cbn [train_loop].
  - cbn. by rewrite app_nil_r.
  - rewrite IH. cbn. by rewrite <- app_assoc.
Qed.

(** what [train] leaves in [self.users], on every path *)
Lemma train_users (s : FaceSystem) (k : Z) :
  users (train s).2 !! k
  = if decide (0 ≤ k) then (λ e, ud_name e.2) <$> pkl_files s !! Z.to_nat k
    else None.
Proof.
  unfold train, pkl_files. simpl.
  destruct (data_dir s) as [dir|]; simpl.
  2:{ rewrite lookup_empty. by case_decide. }
  destruct (List.filter is_pkl (listdir dir)) as [|e files] eqn:Hfiles.
  { simpl. rewrite lookup_empty. by case_decide. }
  pose proof (train_loop_users (e :: files) 0 ∅ [] [] k) as Hk.
  destruct (train_loop 0 (e :: files) ∅ [] []) as [[us faces] labels].
  simpl in Hk.
  replace (length (e :: files) =? 0)%nat with false by done.
  destruct (length faces =? 0)%nat; simpl; rewrite Hk, lookup_empty, Z.sub_0_r;
    repeat case_decide; try lia; try done;
    symmetry; rewrite fmap_None; apply lookup_ge_None_2; simpl; lia.
Qed.

(** [train] fails exactly when there is no [.pkl] entry or no sample *)
Lemma train_success (s : FaceSystem) :
  (train s).1 = true ↔
  concat ((λ e, ud_samples e.2) <$> pkl_files s) ≠ [].
Proof.
  unfold train, pkl_files. simpl.
  destruct (data_dir s) as [dir|]; simpl; [|done].
  destruct (List.filter is_pkl (listdir dir)) as [|e files] eqn:Hfiles; [done|].
  pose proof (train_loop_faces (e :: files) 0 ∅ [] []) as Hf.
  destruct (train_loop 0 (e :: files) ∅ [] []) as [[us faces] labels].
  replace (length (e :: files) =? 0)%nat with false by done.
  cbn [fst snd] in Hf. rewrite app_nil_l in Hf. rewrite <- Hf.
  destruct faces; simpl; split; congruence.
Qed.

Lemma train_data_dir (s : FaceSystem) : data_dir (train s).2 = data_dir s.
Proof.
  unfold train. simpl.
  destruct (data_dir s) as [dir|] eqn:Hd; simpl; [|done].
  destruct (length (List.filter is_pkl (listdir dir)) =? 0)%nat; [done|].
  destruct (train_loop 0 _ ∅ [] []) as [[us faces] labels].
  by destruct (length faces =? 0)%nat.
Qed.

Lemma concat_nonempty {A} (ls : list (list A)) (l : list A) :
  l ∈ ls → l ≠ [] → concat ls ≠ [].
Proof.
  induction ls as [|l' ls IH]; intros Hin Hne; [by apply not_elem_of_nil in Hin|].
  apply elem_of_cons in Hin as [->|Hin]; simpl.
  - destruct l'; [done|]. discriminate.
  - intros Hnil. apply app_eq_nil in Hnil as [_ Hnil]. by apply IH.
Qed.

Lemma register_user_short name frames now s :
  (length (List.filter has_face frames) < 10)%nat →
  register_user name frames now s
  = ((false, "Only captured " +:+ pretty (length (List.filter has_face frames))
             +:+ " samples. Need at least 10."),
     match data_dir s with None => set_data_dir ∅ s | Some _ => s end).
Proof.
  intros Hlt. unfold register_user. rewrite samples_length.
  by rewrite (proj2 (Nat.ltb_lt _ _) Hlt).
Qed.

(** C4. Enrolling with fewer than 10 frames in which a face is detected
    fails with the insufficient-samples message, which carries the count,
    and persists nothing: the data directory holds the records it held
    before, and the trained model is as it was. *)
Theorem register_user_insufficient_samples name frames now s :
  (length (List.filter has_face frames) < 10)%nat →
  let r := register_user name frames now s in
  r.1 = (false, "Only captured " +:+ pretty (length (List.filter has_face frames))
                +:+ " samples. Need at least 10.") ∧
  default ∅ (data_dir r.2) = default ∅ (data_dir s) ∧
  users r.2 = users s ∧ trained r.2 = trained s ∧
  recognizer r.2 = recognizer s ∧
  model_file r.2 = model_file s ∧ users_file r.2 = users_file s.
Proof.
  intros Hlt r. subst r. rewrite register_user_short by done.
  by destruct (data_dir s) eqn:Hd; simpl; rewrite ?Hd.
Qed.

(** C3. On a trained model and a frame with a detected face, a score below
    70 resolves the predicted label through the label map (to the mapped
    name when the label is mapped) and a score of 70 or more gives
    "Unknown"; the raw score is returned in both cases. *)
Theorem recognize_threshold frame s face rect label confidence :
  trained s = true →
  detect_face frame = Some (face, rect) →
  lbph_predict (recognizer s) face = (label, confidence) →
  ((confidence < 70)%Q →
     (recognize frame s).1
       = (Some (default "Unknown" (users s !! label)), confidence) ∧
     ∀ name, users s !! label = Some name →
       (recognize frame s).1 = (Some name, confidence)) ∧
  ((70 <= confidence)%Q →
     (recognize frame s).1 = (Some "Unknown", confidence)).
Proof.
  intros Ht Hd Hp. unfold recognize. rewrite Ht, Hd, Hp. simpl.
  destruct (Qlt_le_dec confidence 70) as [Hlt|Hge]; simpl; split.
  - intros _. split; [done|]. by intros name ->.
  - intros Hge. exfalso. eapply Qlt_irrefl, Qlt_le_trans; eauto.
  - intros Hlt. exfalso. eapply Qlt_irrefl, Qlt_le_trans; eauto.
  - done.
Qed.

(** C5. When the model is untrained, or when no face is detected in the
    frame, [recognize] returns (no identity, score 0) and makes no call to
    the classifier. *)
Theorem recognize_no_identity frame s :
  trained s = false ∨ detect_face frame = None →
  (recognize frame s).1 = (None, 0%Q) ∧
  ∀ m face, CallPredict m face ∉ (recognize frame s).2.
Proof.
  intros H. unfold recognize.
  destruct (trained s); simpl.
  - destruct H as [H|H]; [done|]. rewrite H. simpl. split; [done|].
    intros m face Hin. apply list_elem_of_singleton in Hin. discriminate.
  - split; [done|]. intros m face Hin. by apply not_elem_of_nil in Hin.
Qed.

(** an untrained model does not even run the detector *)
Lemma recognize_untrained frame s :
  trained s = false → recognize frame s = ((None, 0%Q), []).
Proof. intros H. unfold recognize. by rewrite H. Qed.

(** C6, as the code has it. [train] gives label [i] to the identity stored
    in the [i]-th [.pkl] entry of the directory listing, for every [i], and
    maps no other label: the label map is the enumeration of the listing
    and follows the order the file system chooses.  A second [train] on the
    same directory, listed in the same order, gives the same label map. *)
Theorem train_labels_follow_listing (s : FaceSystem) :
  (∀ k : Z,
     users (train s).2 !! k
     = if decide (0 ≤ k) then (λ e, ud_name e.2) <$> pkl_files s !! Z.to_nat k
       else None) ∧
  users (train (train s).2).2 = users (train s).2.
Proof.
  split; [apply train_users|].
  apply map_eq. intros k. rewrite !train_users.
  unfold pkl_files. by rewrite train_data_dir.
Qed.

(** when the preconditions of [train] fail for want of identities, the
    label map is emptied and the rest of the object is kept *)
Lemma train_no_identities (s : FaceSystem) :
  pkl_files s = [] → train s = (false, set_users ∅ s).
Proof.
  unfold pkl_files, train. simpl. destruct (data_dir s); [|done].
  by intros ->.
Qed.

(** a failed [train] changes nothing but the label map *)
Lemma train_failure_keeps_classifier (s : FaceSystem) :
  (train s).1 = false →
  trained (train s).2 = trained s ∧ recognizer (train s).2 = recognizer s ∧
  model_file (train s).2 = model_file s ∧ users_file (train s).2 = users_file s ∧
  data_dir (train s).2 = data_dir s.
Proof.
  unfold train. simpl. destruct (data_dir s) as [dir|] eqn:Hd; simpl; [|done].
  destruct (length (List.filter is_pkl (listdir dir)) =? 0)%nat; [done|].
  destruct (train_loop 0 _ ∅ [] []) as [[us faces] labels].
  by destruct (length faces =? 0)%nat.
Qed.

(** enrolling under a name, with 10 frames or more that show a face, succeeds
    whether or not the name is enrolled, and the entry of the name holds
    the new record *)
Lemma register_user_replaces name frames now s :
  (10 ≤ length (List.filter has_face frames))%nat →
  let r := register_user name frames now s in
  r.1.1 = true ∧
  data_dir r.2
  = Some (<[name +:+ ".pkl" :=
              {| ud_name := name;
                 ud_samples := omap (λ fr, fst <$> detect_face fr) frames;
                 ud_registered_at := now |}]> (default ∅ (data_dir s))).
Proof.
  intros Hge r. subst r. unfold register_user.
  rewrite samples_length.
  replace (length (List.filter has_face frames) <? 10)%nat with false
    by (symmetry; apply Nat.ltb_ge; lia).
  set (ud := {| ud_name := name; ud_samples := _; ud_registered_at := now |}).
  set (s0 := match data_dir s with None => set_data_dir ∅ s | Some _ => s end).
  assert (default ∅ (data_dir s0) = default ∅ (data_dir s)) as Hs0.
  { subst s0. by destruct (data_dir s) eqn:Hd; simpl; rewrite ?Hd. }
  rewrite Hs0.
  set (s1 := set_data_dir _ s0).
  pose proof (train_success s1) as Hok.
  pose proof (train_data_dir s1) as Hdir.
  destruct (train s1) as [ok s2]. simpl in Hok, Hdir.
  assert (ok = true) as ->.
  { apply Hok. unfold pkl_files. simpl.
    set (dir := <[name +:+ ".pkl" := ud]> (default ∅ (data_dir s))).
    assert ((name +:+ ".pkl", ud) ∈ List.filter is_pkl (listdir dir)) as Hin.
    { apply list_elem_of_In, filter_In. split.
      - apply list_elem_of_In. rewrite listdir_perm.
        apply elem_of_map_to_list. subst dir. apply lookup_insert_eq.
      - apply endswith_app. }
    apply (concat_nonempty _ (ud_samples ud)).
    - apply list_elem_of_fmap. by exists (name +:+ ".pkl", ud).
    - subst ud. simpl. intros Hnil.
      apply (f_equal (λ l, length l)) in Hnil. rewrite samples_length in Hnil.
      simpl in Hnil. lia. }
  simpl. split; [done|]. by rewrite Hdir.
Qed.

(** ** Names without the extension in them *)

Lemma prefix_pkl_snoc c n :
  String.prefix ".pkl" (String c n) = false →
  String.prefix ".pkl" (String c (n +:+ ".pkl")) = false.
Proof.
  cbn [String.prefix]. destruct (Ascii.ascii_dec _ c); [|done].
  destruct n as [|c1 n]; [intros _; by vm_compute|].
  change (String c1 n +:+ ".pkl") with (String c1 (n +:+ ".pkl")).
  cbn [String.prefix]. destruct (Ascii.ascii_dec _ c1); [|done].
  destruct n as [|c2 n]; [intros _; by vm_compute|].
  change (String c2 n +:+ ".pkl") with (String c2 (n +:+ ".pkl")).
  cbn [String.prefix]. destruct (Ascii.ascii_dec _ c2); [|done].
  destruct n as [|c3 n]; [intros _; by vm_compute|].
  change (String c3 n +:+ ".pkl") with (String c3 (n +:+ ".pkl")).
  cbn [String.prefix]. destruct (Ascii.ascii_dec _ c3); [|done].
  by destruct n.
Qed.

(** for such a name, [replace] gives back the name *)
Lemma replace_stem n :
  occurs ".pkl" n = false → replace (n +:+ ".pkl") ".pkl" "" = n.
Proof.
  unfold replace. induction n as [|c n IH]; intros Hocc; [done|].
  cbn [occurs] in Hocc. apply orb_false_elim in Hocc as [Hpre Hocc].
  change (String c n +:+ ".pkl") with (String c (n +:+ ".pkl")).
  cbn [replace_go]. rewrite (prefix_pkl_snoc c n Hpre). by rewrite IH.
Qed.

Lemma get_all_users_NoDup s : plain_names s → NoDup (get_all_users s).
Proof.
  intros Hplain. unfold get_all_users, plain_names in *.
  destruct (data_dir s) as [dir|]; simpl in *; [|constructor].
  assert (NoDup (listdir dir)) as Hnd.
  { rewrite listdir_perm. apply NoDup_map_to_list. }
  assert (∀ e, e ∈ List.filter is_pkl (listdir dir) →
               dir !! e.1 = Some e.2 ∧
               ∃ n, e.1 = n +:+ ".pkl" ∧ occurs ".pkl" n = false) as Hin.
  { intros [f ud] He. apply list_elem_of_In, filter_In in He as [He Hpkl].
    apply list_elem_of_In in He. rewrite listdir_perm in He.
    apply elem_of_map_to_list in He. split; [done|]. by eapply Hplain. }
  apply NoDup_fmap_2_strong.
  - intros e1 e2 He1 He2 Heq.
    destruct (Hin e1 He1) as (Hl1 & n1 & Hf1 & Hn1).
    destruct (Hin e2 He2) as (Hl2 & n2 & Hf2 & Hn2).
    rewrite Hf1, Hf2, !replace_stem in Heq by done. subst n2.
    destruct e1 as [f1 ud1], e2 as [f2 ud2]. simpl in *.
    rewrite <- Hf2 in Hf1. subst f2. congruence.
  - clear Hin. induction (listdir dir) as [|e l IH]; simpl; [constructor|].
    apply NoDup_cons in Hnd as [He Hnd].
    destruct (is_pkl e); [|by apply IH]. apply NoDup_cons. split; [|by apply IH].
    intros Hin. apply He. apply list_elem_of_In, filter_In in Hin as [Hin _].
    by apply list_elem_of_In.
Qed.

Lemma register_user_plain name frames now s :
  occurs ".pkl" name = false → plain_names s →
  plain_names (register_user name frames now s).2.
Proof.
  intros Hname Hplain.
  destruct (Nat.lt_ge_cases (length (List.filter has_face frames)) 10) as [Hlt|Hge].
  - rewrite register_user_short by done. simpl.
    unfold plain_names in *. by destruct (data_dir s) eqn:Hd; simpl; rewrite ?Hd.
  - destruct (register_user_replaces name frames now s Hge) as [_ Hdir].
    unfold plain_names in *. rewrite Hdir. simpl.
    intros f ud Hf Hpkl. destruct (decide (f = name +:+ ".pkl")) as [->|Hne].
    + by exists name.
    + rewrite lookup_insert_ne in Hf by done. by eapply Hplain.
Qed.

(** on names that do not contain [.pkl], no sequence of enrolments makes
    [get_all_users] list a name twice *)
Lemma enrolled_names_NoDup es s :
  plain_names s → Forall (λ e, occurs ".pkl" e.1.1 = false) es →
  NoDup (get_all_users (enroll_all es s)).
Proof.
  intros Hplain Hes. apply get_all_users_NoDup. unfold enroll_all.
  revert s Hplain. induction Hes as [|e es He Hes IH]; intros s Hplain; [done|].
  simpl. apply IH. by apply register_user_plain.
Qed.

End face_properties.

(** ** The statements above on concrete systems *)

(** nine frames with a face and one without, on the system trained on alice *)
Lemma register_user_insufficient_samples_witness :
  let frames := replicate 9 (Fixture.face_frame 0 10) ++ [Fixture.no_face_frame] in
  (length (List.filter (@Face.has_face Fixture.cv) frames) < 10)%nat ∧
  (@Face.register_user Fixture.cv Fixture.fs_forward "carol" frames
     "2024-01-02T08:00:00" Fixture.alice_model).1
  = (false, "Only captured 9 samples. Need at least 10.").
Proof.
  intros frames.
  assert (length (List.filter (@Face.has_face Fixture.cv) frames) < 10)%nat as H
    by (vm_compute; lia).
  split; [exact H|].
  exact (proj1 (@register_user_insufficient_samples Fixture.cv Fixture.fs_forward
                  "carol" frames "2024-01-02T08:00:00" Fixture.alice_model H)).
Defined.

(** on both sides of the threshold: distance 69 names bob, distance 70 does
    not *)
Lemma recognize_threshold_witness :
  let s := (@Face.train Fixture.cv Fixture.fs_forward Fixture.two_enrolled).2 in
  (@Face.recognize Fixture.cv (Fixture.face_frame 1 69) s).1
    = (Some "bob", inject_Z 69) ∧
  (@Face.recognize Fixture.cv (Fixture.face_frame 1 70) s).1
    = (Some "Unknown", inject_Z 70).
Proof.
  intros s. split.
  - refine (proj2 (proj1 (@recognize_threshold Fixture.cv
             (Fixture.face_frame 1 69) s (1, 69, 60, 60) (1, 69, 60, 60) 1
             (inject_Z 69) _ _ _) _) "bob" _);
      solve [reflexivity | vm_compute; reflexivity].
  - refine (proj2 (@recognize_threshold Fixture.cv
             (Fixture.face_frame 1 70) s (1, 70, 60, 60) (1, 70, 60, 60) 1
             (inject_Z 70) _ _ _) _);
      solve [reflexivity | vm_compute; discriminate].
Defined.

(** an untrained system on a frame with a face, and a trained system on a
    frame without one *)
Lemma recognize_no_identity_witness :
  (@Face.recognize Fixture.cv (Fixture.face_frame 0 10) Fixture.fresh).1
    = (None, 0%Q) ∧
  (@Face.recognize Fixture.cv Fixture.no_face_frame Fixture.alice_model).1
    = (None, 0%Q).
Proof.
  split.
  - exact (proj1 (@recognize_no_identity Fixture.cv (Fixture.face_frame 0 10)
                    Fixture.fresh (or_introl eq_refl))).
  - exact (proj1 (@recognize_no_identity Fixture.cv Fixture.no_face_frame
                    Fixture.alice_model (or_intror eq_refl))).
Defined.

(** C2, on the code. A system trained on alice whose data directory holds no
    record: [train] fails, and the object keeps its classifier and its
    trained flag while its label map is emptied, so that label 0 no longer
    resolves. *)
Example train_failure_clears_label_map :
  let s := Fixture.alice_model in
  let r := @Face.train Fixture.cv Fixture.fs_forward s in
  r.1 = false ∧
  Face.trained r.2 = true ∧
  Face.recognizer r.2 = Face.recognizer s ∧
  Face.users s !! 0 = Some "alice" ∧
  Face.users r.2 !! 0 = None ∧
  (@Face.recognize Fixture.cv (Fixture.face_frame 0 10) s).1
    = (Some "alice", inject_Z 10) ∧
  (@Face.recognize Fixture.cv (Fixture.face_frame 0 10) r.2).1
    = (Some "Unknown", inject_Z 10).
Proof. vm_compute. repeat split. Qed.

(** the other failing precondition: a record without samples. [train] fails
    after it has rebuilt the label map, which is then paired with the
    classifier fitted on alice. *)
Example train_failure_renames_label :
  let s := Fixture.alice_model_bob_file in
  let r := @Face.train Fixture.cv Fixture.fs_forward s in
  r.1 = false ∧
  Face.trained r.2 = true ∧
  Face.recognizer r.2 = Face.recognizer s ∧
  Face.users s !! 0 = Some "alice" ∧
  Face.users r.2 !! 0 = Some "bob".
Proof. vm_compute. repeat split. Qed.

(** C6, as stated, fails: the same two records listed in two orders give two
    label maps. *)
Lemma train_label_map_depends_on_listing :
  Face.listdir (FileSystem := Fixture.fs_forward)
    (default ∅ (Face.data_dir Fixture.two_enrolled))
  ≡ₚ Face.listdir (FileSystem := Fixture.fs_backward)
    (default ∅ (Face.data_dir Fixture.two_enrolled)) ∧
  Face.users (@Face.train Fixture.cv Fixture.fs_forward Fixture.two_enrolled).2 !! 0
    = Some "alice" ∧
  Face.users (@Face.train Fixture.cv Fixture.fs_backward Fixture.two_enrolled).2 !! 0
    = Some "bob".
Proof.
  split; [|by vm_compute].
  by rewrite !Face.listdir_perm.
Qed.

(** C10, on the code. Enrolling "x" and then "x.pkl" succeeds twice and
    [get_all_users] lists the name "x" twice: [replace] removes every
    [.pkl] of a file name, not only the extension. *)
Example enrolled_names_duplicate :
  let frames := replicate 10 (Fixture.face_frame 0 10) in
  let r1 := @Face.register_user Fixture.cv Fixture.fs_forward "x" frames
              "2024-01-02T08:00:00" Fixture.fresh in
  let r2 := @Face.register_user Fixture.cv Fixture.fs_forward "x.pkl" frames
              "2024-01-02T08:05:00" r1.2 in
  r1.1.1 = true ∧ r2.1.1 = true ∧
  @Face.get_all_users Fixture.cv Fixture.fs_forward r2.2 = ["x"; "x"].
Proof. vm_compute. repeat split. Qed.

(** * The steps of [train] *)

Section train_steps.
Context `{CV : Face.OpenCV} `{FS : !Face.FileSystem}.
Import Face.







End train_steps.


(** * Properties of attendance.py *)

Section json_properties.
Import Json.

Lemma sorted_desc_perm keys : sorted_desc keys ≡ₚ keys.
Proof. apply merge_sort_Permutation. Qed.

Lemma sorted_desc_sorted keys :
  NoDup keys → StronglySorted (λ a b, b < a) (sorted_desc keys).
Proof.
  intros Hnd.
  assert (StronglySorted (flip Z.le) (sorted_desc keys)) as Hs.
  { apply StronglySorted_merge_sort.
    - intros x y z. unfold flip. lia.
    - intros x y. unfold flip. lia. }
  rewrite <- sorted_desc_perm in Hnd.
  induction Hs as [|x l Hl IH Hall]; [constructor|].
  apply NoDup_cons in Hnd as [Hx Hnd].
  constructor; [by apply IH|].
  rewrite Forall_forall in *. intros y Hy. specialize (Hall y Hy).
  unfold flip in Hall. assert (x ≠ y) by congruence. lia.
Qed.

Lemma py_take_nonneg {A} (n : Z) (l : list A) :
  0 ≤ n → py_take n l = take (Z.to_nat n) l.
Proof.
  intros Hn. unfold py_take.
  by replace (0 <=? n) with true by (symmetry; apply Z.leb_le; lia).
Qed.

Lemma take_elem_of {A} (n : nat) (l : list A) (x : A) : x ∈ take n l → x ∈ l.
Proof.
  intros Hin. rewrite <- (take_drop n l). apply elem_of_app. by left.
Qed.

Lemma lookup_dates (by_date : gmap Z (list record)) (ds : list Z) :
  (∀ d, d ∈ ds → is_Some (by_date !! d)) →
  omap (λ date, pair date <$> by_date !! date) ds
  = (λ d, (d, default [] (by_date !! d))) <$> ds.
Proof.
  induction ds as [|d ds IH]; intros Hall; [done|]. csimpl.
  destruct (Hall d) as [l Hl]; [apply list_elem_of_here|].
  rewrite Hl. csimpl. rewrite IH; [done|].
  intros d' Hd'. apply Hall. by apply list_elem_of_further.
Qed.

(** What [get_user_history] returns, for [days] not negative: the dates come
    newest first, each with the list stored for it; there are [days] of
    them, or all the dates of the user when there are fewer, and no date
    left out is newer than a date returned. *)
Lemma json_history_spec name days records :
  records_ok records → 0 ≤ days →
  let by_date := default ∅ (records !! name) in
  let h := get_user_history name days records in
  StronglySorted (λ a b, b < a) h.*1 ∧
  (∀ d l, (d, l) ∈ h → by_date !! d = Some l ∧ l ≠ []) ∧
  length h = Nat.min (Z.to_nat days) (size by_date) ∧
  (∀ d d', d ∈ h.*1 → is_Some (by_date !! d') → d' ∉ h.*1 → d' < d).
Proof.
  intros Hok Hdays by_date h. subst h by_date. unfold get_user_history.
  destruct (records !! name) as [bd|] eqn:Hname; simpl.
  2:{ split; [constructor|]. split; [by intros d l ?%not_elem_of_nil|].
      split; [by rewrite map_size_empty, Nat.min_0_r|].
      by intros d d' ?%not_elem_of_nil. }
  rewrite py_take_nonneg by done.
  set (keys := (map_to_list bd).*1).
  assert (NoDup keys) as Hnd by apply NoDup_fst_map_to_list.
  pose proof (sorted_desc_sorted keys Hnd) as Hs.
  pose proof (sorted_desc_perm keys) as Hperm.
  set (all_dates := sorted_desc keys) in *.
  assert (∀ d, d ∈ all_dates ↔ is_Some (bd !! d)) as Hkeys.
  { intros d. rewrite Hperm. subst keys. rewrite list_elem_of_fmap. split.
    - intros ([d' l] & -> & Hin). apply elem_of_map_to_list in Hin. by exists l.
    - intros [l Hl]. exists (d, l). split; [done|]. by apply elem_of_map_to_list. }
  set (n := Z.to_nat days).
  rewrite lookup_dates.
  2:{ intros d Hd. apply Hkeys. by eapply take_elem_of. }
  rewrite <- list_fmap_compose.
  assert ((fst ∘ (λ d, (d, default [] (bd !! d)))) <$> take n all_dates
          = take n all_dates) as ->.
  { rewrite <- (list_fmap_id (take n all_dates)) at 2. by apply list_fmap_ext. }
  rewrite <- (take_drop n all_dates) in Hs.
  split; [by apply StronglySorted_app_1_l in Hs|]. split; [|split].
  - intros d l Hin. apply list_elem_of_fmap in Hin as (d' & [= -> ->] & Hd').
    apply take_elem_of in Hd'. apply Hkeys in Hd' as [l Hl].
    rewrite Hl. simpl. split; [done|]. by eapply Hok.
  - rewrite length_fmap, length_take. f_equal.
    rewrite (Permutation_length Hperm). subst keys.
    by rewrite length_fmap, length_map_to_list.
  - intros d d' Hd Hd' Hnot. apply Hkeys in Hd'.
    rewrite <- (take_drop n all_dates) in Hd'.
    apply elem_of_app in Hd' as [Hd'|Hd']; [done|].
    by apply (StronglySorted_app_1_elem_of _ _ _ _ _ Hs Hd Hd').
Qed.

(** ** Punches of the flat-file ledger *)

(** an accepted punch is appended to the list of its day *)
Lemma punch_accept name ty now records :
  (∀ l, last (day_list name (date_of now) records) = Some l → r_type l ≠ ty) →
  punch name ty now records
  = ((true, "Punched " +:+ punch_type_str ty +:+ " successfully at "
            +:+ strftime_HMS (second_of now)),
     <[name := <[date_of now :=
                   day_list name (date_of now) records ++ [new_record ty now]]>
                 (default ∅ (records !! name))]> records).
Proof.
  intros Hlast. unfold punch, day_list in *.
  set (date := date_of now) in *.
  destruct (records !! name) as [bd|] eqn:Hname; simpl in *.
  - rewrite Hname. simpl.
    destruct (bd !! date) as [today|] eqn:Hday; simpl in *.
    + rewrite Hday. simpl.
      destruct (last today) as [l|] eqn:Hl.
      * specialize (Hlast l eq_refl). unfold punch_type_eqb.
        rewrite bool_decide_false by done. by rewrite insert_insert_eq.
      * by rewrite insert_insert_eq.
    + rewrite lookup_insert_eq. simpl.
      by rewrite !insert_insert_eq.
  - rewrite lookup_insert_eq. simpl. rewrite lookup_empty, lookup_insert_eq. simpl.
    by rewrite !insert_insert_eq.
Qed.

(** a punch of the type of the last event of the day is rejected, whatever
    the time elapsed, and nothing is written *)
Lemma punch_reject name ty now records l :
  last (day_list name (date_of now) records) = Some l → r_type l = ty →
  punch name ty now records
  = ((false, "Already punched " +:+ punch_type_str ty +:+ " at " +:+ r_time l),
     records).
Proof.
  intros Hlast Hty. unfold punch, day_list in *.
  set (date := date_of now) in *.
  destruct (records !! name) as [bd|] eqn:Hname; simpl in *; [|done].
  rewrite Hname. simpl.
  destruct (bd !! date) as [today|] eqn:Hday; simpl in *; [|done].
  rewrite Hday. simpl. rewrite Hlast. unfold punch_type_eqb.
  rewrite bool_decide_true by done. f_equal. by apply insert_id.
Qed.

Lemma punch_cases name ty now records :
  (∃ l, last (day_list name (date_of now) records) = Some l ∧ r_type l = ty ∧
        punch name ty now records
        = ((false, "Already punched " +:+ punch_type_str ty +:+ " at "
                   +:+ r_time l), records)) ∨
  punch name ty now records
  = ((true, "Punched " +:+ punch_type_str ty +:+ " successfully at "
            +:+ strftime_HMS (second_of now)),
     <[name := <[date_of now :=
                   day_list name (date_of now) records ++ [new_record ty now]]>
                 (default ∅ (records !! name))]> records).
Proof.
  destruct (last (day_list name (date_of now) records)) as [l|] eqn:Hl.
  - destruct (decide (r_type l = ty)) as [Hty|Hty].
    + left. exists l. split; [done|]. split; [done|]. by apply punch_reject.
    + right. apply punch_accept. intros l' Hl'. congruence.
  - right. apply punch_accept. intros l' Hl'. congruence.
Qed.

Lemma records_ok_empty : records_ok ∅.
Proof. intros name by_date d l Hname. by rewrite lookup_empty in Hname. Qed.

Lemma records_ok_punch name ty now records :
  records_ok records → records_ok (punch name ty now records).2.
Proof.
  intros Hok.
  destruct (punch_cases name ty now records) as [(l & _ & _ & ->)| ->]; [done|].
  simpl. intros name' by_date d l Hname Hd.
  destruct (decide (name = name')) as [<-|Hne].
  - rewrite lookup_insert_eq in Hname. injection Hname as <-.
    destruct (decide (date_of now = d)) as [<-|Hd'].
    + rewrite lookup_insert_eq in Hd. injection Hd as <-.
      by destruct (day_list _ _ _).
    + rewrite lookup_insert_ne in Hd by done.
      destruct (records !! name) as [bd|] eqn:Hbd; simpl in Hd.
      * by eapply Hok.
      * by rewrite lookup_empty in Hd.
  - rewrite lookup_insert_ne in Hname by done. by eapply Hok.
Qed.

(** a second punch of the same type on the same date is rejected *)
Lemma punch_repeat_rejected name ty t1 t2 records msg records1 :
  punch name ty t1 records = ((true, msg), records1) →
  date_of t2 = date_of t1 →
  punch name ty t2 records1
  = ((false, "Already punched " +:+ punch_type_str ty +:+ " at "
             +:+ strftime_HMS (second_of t1)), records1).
Proof.
  intros Hp Hdate.
  destruct (punch_cases name ty t1 records) as [(l & _ & _ & Hr)|Hr];
    rewrite Hr in Hp; [done|].
  injection Hp as _ <-.
  apply (punch_reject _ _ _ _ (new_record ty t1)); [|done].
  unfold day_list. rewrite Hdate, lookup_insert_eq. simpl.
  rewrite lookup_insert_eq. simpl. apply last_snoc.
Qed.

End json_properties.

(** * Properties of database.py *)

(** ** Time arithmetic *)

Lemma date_of_second_of (t : datetime) : date_of_second (second_of t) = date_of t.
Proof.
  unfold date_of_second, second_of, date_of, us_per_day, seconds_per_day, us_per_second.
  Z.to_euclidean_division_equations; lia.
Qed.

Lemma timedelta_seconds_same_day (t1 t2 : datetime) :
  date_of t2 = date_of t1 → t1 ≤ t2 →
  timedelta_seconds t2 (second_of t1 * us_per_second) = second_of t2 - second_of t1.
Proof.
  unfold timedelta_seconds, second_of, date_of, us_per_day, seconds_per_day, us_per_second.
  intros Hd Hle. Z.to_euclidean_division_equations; lia.
Qed.

Lemma second_of_mono (t1 t2 : datetime) : t1 ≤ t2 → second_of t1 ≤ second_of t2.
Proof. unfold second_of, us_per_second. Z.to_euclidean_division_equations; lia. Qed.

Lemma second_of_later (t1 t2 : datetime) :
  300 * us_per_second ≤ t2 - t1 → 300 ≤ second_of t2 - second_of t1.
Proof. unfold second_of, us_per_second. Z.to_euclidean_division_equations; lia. Qed.

Lemma date_of_second_mono (s1 s2 : Z) : s1 ≤ s2 → date_of_second s1 ≤ date_of_second s2.
Proof. unfold date_of_second, seconds_per_day. Z.to_euclidean_division_equations; lia. Qed.

(** ** Lists *)

Lemma filter_elem_of {A} (f : A → bool) (l : list A) (x : A) :
  x ∈ List.filter f l ↔ x ∈ l ∧ f x = true.
Proof. by rewrite !list_elem_of_In, filter_In. Qed.

Lemma filter_perm {A} (f : A → bool) (l1 l2 : list A) :
  l1 ≡ₚ l2 → List.filter f l1 ≡ₚ List.filter f l2.
Proof.
  induction 1 as [|x l1 l2 _ IH|x y l|l1 l2 l3 _ IH1 _ IH2]; simpl.
  - done.
  - destruct (f x); by rewrite IH.
  - destruct (f x), (f y); try done. apply perm_swap.
  - by rewrite IH1.
Qed.

Lemma filter_filter_and {A} (f g : A → bool) (l : list A) :
  List.filter f (List.filter g l) = List.filter (λ x, g x && f x) l.
Proof.
  induction l as [|x l IH]; [done|]. simpl.
  destruct (g x); simpl; [|done]. destruct (f x); by rewrite IH.
Qed.

Lemma filter_nil_iff {A} (f : A → bool) (l : list A) :
  List.filter f l = [] ↔ ∀ x, x ∈ l → f x = false.
Proof.
  split.
  - intros Hnil x Hx. destruct (f x) eqn:Hf; [|done].
    assert (x ∈ List.filter f l) as Hin by by apply filter_elem_of.
    rewrite Hnil in Hin. by apply not_elem_of_nil in Hin.
  - intros Hall. induction l as [|x l IH]; [done|]. simpl.
    rewrite (Hall x) by apply list_elem_of_here.
    apply IH. intros y Hy. apply Hall. by apply list_elem_of_further.
Qed.

Lemma StronglySorted_filter {A} (R : relation A) (f : A → bool) (l : list A) :
  StronglySorted R l → StronglySorted R (List.filter f l).
Proof.
  induction 1 as [|x l Hl IH Hall]; simpl; [constructor|].
  destruct (f x); [|done]. constructor; [done|].
  rewrite Forall_forall in *. intros y Hy. apply Hall.
  by apply filter_elem_of in Hy as [Hy _].
Qed.

Lemma StronglySorted_weaken {A} (R R' : relation A) (l : list A) :
  (∀ x y, x ∈ l → y ∈ l → R x y → R' x y) →
  StronglySorted R l → StronglySorted R' l.
Proof.
  intros Himp Hs. induction Hs as [|x l Hl IH Hall]; [constructor|].
  constructor.
  - apply IH. intros y z Hy Hz. apply Himp; by apply list_elem_of_further.
  - rewrite Forall_forall in *. intros y Hy. apply Himp.
    + apply list_elem_of_here.
    + by apply list_elem_of_further.
    + by apply Hall.
Qed.

Lemma StronglySorted_gt_NoDup (l : list Z) :
  StronglySorted (λ a b, b < a) l → NoDup l.
Proof.
  induction 1 as [|x l Hl IH Hall]; [constructor|].
  constructor; [|done]. intros Hin.
  rewrite Forall_forall in Hall. specialize (Hall x Hin). lia.
Qed.

(** ** Users *)

Section sqlite_properties.
Context `{E : Sqlite.SqlEngine}.
Import Sqlite.

Lemma get_user_id_Some name db uid :
  get_user_id name db = Some uid →
  ∃ u, u ∈ users db ∧ u_name u = name ∧ u_id u = uid.
Proof.
  unfold get_user_id. destruct (List.find _ (users db)) as [u|] eqn:Hf; [|done].
  intros [= <-]. apply find_some in Hf as [Hin Heq].
  exists u. split; [by apply list_elem_of_In|]. split; [|done].
  by apply String.eqb_eq.
Qed.

Lemma get_user_id_None name db :
  get_user_id name db = None ↔ ∀ u, u ∈ users db → u_name u ≠ name.
Proof.
  unfold get_user_id. split.
  - destruct (List.find _ (users db)) as [u|] eqn:Hf; [done|]. intros _ u Hin Heq.
    eapply find_none in Hf; [|by apply list_elem_of_In].
    apply String.eqb_neq in Hf. done.
  - intros Hall. destruct (List.find _ (users db)) as [u|] eqn:Hf; [|done].
    apply find_some in Hf as [Hin Heq]. apply String.eqb_eq in Heq.
    exfalso. eapply Hall; [by apply list_elem_of_In|done].
Qed.

Lemma find_unique_name (us : list user_row) u :
  NoDup (u_name <$> us) → u ∈ us →
  List.find (λ v, String.eqb (u_name v) (u_name u)) us = Some u.
Proof.
  induction us as [|v us IH]; intros Hnd Hin; [by apply not_elem_of_nil in Hin|].
  rewrite fmap_cons in Hnd. apply NoDup_cons in Hnd as [Hv Hnd].
  simpl. destruct (String.eqb (u_name v) (u_name u)) eqn:Heq.
  - apply String.eqb_eq in Heq. apply elem_of_cons in Hin as [->|Hin]; [done|].
    exfalso. apply Hv. rewrite Heq. apply list_elem_of_fmap. by exists u.
  - apply String.eqb_neq in Heq. apply elem_of_cons in Hin as [->|Hin]; [done|].
    by apply IH.
Qed.

Lemma get_user_id_of_row db u :
  db_ok db → u ∈ users db → get_user_id (u_name u) db = Some (u_id u).
Proof.
  intros Hok Hin. unfold get_user_id.
  by rewrite (find_unique_name _ u (ok_names _ Hok) Hin).
Qed.

Lemma get_user_id_pos db name uid :
  db_ok db → get_user_id name db = Some uid → 0 < uid.
Proof.
  intros Hok Hid. apply get_user_id_Some in Hid as (u & Hin & _ & <-).
  by apply (ok_id_range _ Hok).
Qed.

Lemma falsy_get_user_id db name :
  db_ok db → falsy (get_user_id name db) = true ↔ get_user_id name db = None.
Proof.
  intros Hok. unfold falsy. destruct (get_user_id name db) as [uid|] eqn:Hid; [|done].
  pose proof (get_user_id_pos _ _ _ Hok Hid). split; [|done].
  intros ?%Z.eqb_eq. lia.
Qed.

Lemma existsb_name_false name db :
  get_user_id name db = None →
  existsb (λ u, String.eqb (u_name u) name) (users db) = false.
Proof.
  intros Hnone. apply not_true_is_false. intros Hex.
  apply existsb_exists in Hex as (u & Hin & Heq).
  apply String.eqb_eq in Heq.
  eapply get_user_id_None in Hnone; [|by apply list_elem_of_In]. done.
Qed.

(** adding a user whose name is free *)
Lemma add_user_fresh name db :
  get_user_id name db = None →
  add_user name db
  = ((true, "User " +:+ name +:+ " added successfully"),
     set_users (users db ++ [{| u_id := users_seq db + 1; u_name := name |}])
       (users_seq db + 1) db).
Proof.
  intros Hnone. unfold add_user, get_connection, insert_user.
  by rewrite existsb_name_false.
Qed.

(** adding a user whose name is taken: the UNIQUE constraint *)
Lemma add_user_taken name db uid :
  get_user_id name db = Some uid →
  add_user name db = ((false, "User " +:+ name +:+ " already exists"), db).
Proof.
  intros Hid. unfold add_user, get_connection, insert_user.
  replace (existsb _ (users db)) with true; [done|].
  symmetry. apply existsb_exists.
  apply get_user_id_Some in Hid as (u & Hin & Hname & _).
  exists u. split; [by apply list_elem_of_In|]. by apply String.eqb_eq.
Qed.

Lemma db_ok_add_user name db :
  db_ok db → get_user_id name db = None →
  db_ok (set_users (users db ++ [{| u_id := users_seq db + 1; u_name := name |}])
           (users_seq db + 1) db).
Proof.
  intros [Hn Hi Hs Hr Hd] Hnone. split; simpl.
  - rewrite fmap_app. simpl. apply NoDup_app. split; [done|]. split.
    + intros x Hx Hx'. apply list_elem_of_singleton in Hx' as ->.
      apply list_elem_of_fmap in Hx as (u & Hu & Hin).
      eapply get_user_id_None in Hnone; eauto.
    + apply NoDup_singleton.
  - rewrite fmap_app. simpl. apply NoDup_app. split; [done|]. split.
    + intros x Hx Hx'. apply list_elem_of_singleton in Hx' as ->.
      apply list_elem_of_fmap in Hx as (u & Hu & Hin).
      apply Hr in Hin. lia.
    + apply NoDup_singleton.
  - lia.
  - intros u Hin. apply elem_of_app in Hin as [Hin|Hin].
    + apply Hr in Hin. lia.
    + apply list_elem_of_singleton in Hin as ->. simpl. lia.
  - done.
Qed.

(** ** Punches *)

Lemma db_ok_insert_attendance uid ty time db :
  db_ok db → db_ok (insert_attendance uid ty time (date_of_second time) db).
Proof.
  intros [Hn Hi Hs Hr Hd]. split; simpl; try done.
  intros r Hin. apply elem_of_app in Hin as [Hin|Hin]; [by apply Hd|].
  by apply list_elem_of_singleton in Hin as ->.
Qed.

Lemma by_time_desc_total x y : by_time_desc x y || by_time_desc y x.
Proof.
  unfold by_time_desc.
  destruct (Z.leb_spec (a_time y) (a_time x)), (Z.leb_spec (a_time x) (a_time y));
    simpl; try done; lia.
Qed.

Lemma by_time_desc_trans x y z :
  by_time_desc x y → by_time_desc y z → by_time_desc x z.
Proof.
  unfold by_time_desc. rewrite !Is_true_true, !Z.leb_le. lia.
Qed.

(** [ORDER BY punch_time DESC LIMIT 1] returns a row of the latest second *)
Lemma head_order_by_time rows :
  match head (order_by by_time_desc rows) with
  | Some l => l ∈ rows ∧ ∀ r, r ∈ rows → a_time r ≤ a_time l
  | None => rows = []
  end.
Proof.
  pose proof (order_by_perm by_time_desc rows) as Hperm.
  pose proof (order_by_sorted by_time_desc rows by_time_desc_total by_time_desc_trans)
    as Hsorted.
  destruct (order_by by_time_desc rows) as [|l rest]; simpl.
  - by apply Permutation_nil_l in Hperm.
  - split; [rewrite <- Hperm; apply list_elem_of_here|].
    intros r Hr. rewrite <- Hperm in Hr.
    apply StronglySorted_inv in Hsorted as [_ Hall].
    apply elem_of_cons in Hr as [->|Hr]; [lia|].
    rewrite Forall_forall in Hall. specialize (Hall r Hr).
    unfold by_time_desc in Hall. apply Is_true_true, Z.leb_le in Hall. lia.
Qed.

(** when one row is strictly later than all others, it is the one returned *)
Lemma head_order_by_latest rows new :
  (∀ r, r ∈ rows → a_time r < a_time new) →
  head (order_by by_time_desc (rows ++ [new])) = Some new.
Proof.
  intros Hold. pose proof (head_order_by_time (rows ++ [new])) as H.
  destruct (head _) as [l|].
  - destruct H as [Hin Hmax]. f_equal.
    apply elem_of_app in Hin as [Hin|Hin].
    + specialize (Hold l Hin).
      assert (new ∈ rows ++ [new]) as Hnew
        by (apply elem_of_app; right; apply list_elem_of_here).
      specialize (Hmax new Hnew). lia.
    + by apply list_elem_of_singleton in Hin.
  - by destruct rows.
Qed.

Lemma rows_of_day_insert uid ty time date db :
  rows_of_day uid date (insert_attendance uid ty time date db)
  = rows_of_day uid date db ++
    [{| a_id := attendance_seq db + 1; a_user_id := uid; a_type := ty;
        a_time := time; a_date := date |}].
Proof.
  unfold rows_of_day, insert_attendance. simpl.
  rewrite List.filter_app. simpl. by rewrite !Z.eqb_refl.
Qed.

Lemma rows_of_day_insert_other uid ty time date date' db :
  date' ≠ date →
  rows_of_day uid date' (insert_attendance uid ty time date db)
  = rows_of_day uid date' db.
Proof.
  intros Hne. unfold rows_of_day, insert_attendance. simpl.
  rewrite List.filter_app. simpl.
  replace (date =? date') with false by (symmetry; apply Z.eqb_neq; lia).
  by rewrite andb_false_r, app_nil_r.
Qed.

Lemma rows_of_day_elem uid date db r :
  r ∈ rows_of_day uid date db ↔
  r ∈ attendance db ∧ a_user_id r = uid ∧ a_date r = date.
Proof.
  unfold rows_of_day. rewrite list_elem_of_In, filter_In, <- list_elem_of_In.
  rewrite andb_true_iff, !Z.eqb_eq. tauto.
Qed.

(** the two outcomes of the body of [punch] *)
Lemma punch_known_insert uid ty now db :
  (∀ l, head (order_by by_time_desc (rows_of_day uid (date_of now) db)) = Some l →
        a_type l = ty →
        300 ≤ timedelta_seconds now (a_time l * us_per_second)) →
  punch_known uid ty now db
  = (Returned true ("Punched " +:+ punch_type_str ty +:+ " successfully at "
                    +:+ strftime_HMS (second_of now)),
     insert_attendance uid ty (second_of now) (date_of now) db).
Proof.
  intros H. unfold punch_known.
  destruct (head _) as [l|]; [|done].
  unfold punch_type_eqb. case_bool_decide as Hty; [|done].
  specialize (H l eq_refl Hty).
  by replace (_ <? 300) with false by (symmetry; apply Z.ltb_ge; lia).
Qed.

Lemma punch_known_duplicate uid ty now db l :
  head (order_by by_time_desc (rows_of_day uid (date_of now) db)) = Some l →
  a_type l = ty →
  timedelta_seconds now (a_time l * us_per_second) < 300 →
  punch_known uid ty now db
  = (Returned false ("Already punched " +:+ punch_type_str ty +:+ " at "
                     +:+ strftime_HMS (a_time l)), db).
Proof.
  intros Hl Hty Hlt. unfold punch_known. rewrite Hl.
  unfold punch_type_eqb. rewrite bool_decide_true by done.
  by replace (_ <? 300) with true by (symmetry; apply Z.ltb_lt; lia).
Qed.

Lemma punch_known_cases uid ty now db :
  (∃ msg, punch_known uid ty now db = (Returned false msg, db)) ∨
  punch_known uid ty now db
  = (Returned true ("Punched " +:+ punch_type_str ty +:+ " successfully at "
                    +:+ strftime_HMS (second_of now)),
     insert_attendance uid ty (second_of now) (date_of now) db).
Proof.
  unfold punch_known. destruct (head _) as [l|]; [|by right].
  destruct (punch_type_eqb _ _); [|by right].
  destruct (_ <? 300); [left; eauto|by right].
Qed.

(** [punch] for a user that exists *)
Lemma punch_existing name ty now db uid :
  db_ok db → get_user_id name db = Some uid →
  punch name ty now db = punch_known uid ty now db.
Proof.
  intros Hok Hid. unfold punch.
  destruct (falsy (get_user_id name db)) eqn:Hf.
  - apply falsy_get_user_id in Hf; [congruence|done].
  - by rewrite Hid.
Qed.

Lemma get_user_id_with_user name db :
  db_ok db → get_user_id name db = None →
  get_user_id name (with_user name db) = Some (users_seq db + 1).
Proof.
  intros Hok Hnone.
  pose proof (db_ok_add_user name db Hok Hnone) as Hok'.
  apply (get_user_id_of_row _ {| u_id := users_seq db + 1; u_name := name |} Hok').
  simpl. apply elem_of_app. right. apply list_elem_of_here.
Qed.

(** [punch] for a name without a user row: the row is created first *)
Lemma punch_new name ty now db :
  db_ok db → get_user_id name db = None →
  punch name ty now db
  = punch_known (users_seq db + 1) ty now (with_user name db).
Proof.
  intros Hok Hnone. unfold punch.
  rewrite (proj2 (falsy_get_user_id db name Hok) Hnone).
  rewrite add_user_fresh by done. fold (with_user name db).
  by rewrite get_user_id_with_user.
Qed.

(** under the schema [punch] returns a pair, and the tables stay within the
    schema *)
Lemma punch_returns name ty now db :
  db_ok db →
  ∃ ok msg, (punch name ty now db).1 = Returned ok msg ∧
            db_ok (punch name ty now db).2.
Proof.
  intros Hok.
  assert (∀ uid db0, db_ok db0 →
    ∃ ok msg, (punch_known uid ty now db0).1 = Returned ok msg ∧
              db_ok (punch_known uid ty now db0).2) as Hknown.
  { intros uid db0 Hok0.
    destruct (punch_known_cases uid ty now db0) as [[msg ->]| ->]; simpl.
    - eauto.
    - do 2 eexists. split; [done|].
      rewrite <- date_of_second_of. by apply db_ok_insert_attendance. }
  destruct (get_user_id name db) as [uid|] eqn:Hid.
  - rewrite (punch_existing _ _ _ _ uid) by done. by apply Hknown.
  - rewrite punch_new by done. apply Hknown. by apply db_ok_add_user.
Qed.

Lemma db_ok_punch name ty now db : db_ok db → db_ok (punch name ty now db).2.
Proof.
  intros Hok. by destruct (punch_returns name ty now db Hok) as (? & ? & _ & ?).
Qed.

(** a successful [punch] appends one row for the user, after creating the
    user when the name had none *)
Lemma punch_success_inv name ty now db db1 msg :
  db_ok db →
  punch name ty now db = (Returned true msg, db1) →
  ∃ uid db0,
    db_ok db0 ∧ attendance db0 = attendance db ∧
    get_user_id name db0 = Some uid ∧
    db1 = insert_attendance uid ty (second_of now) (date_of now) db0.
Proof.
  intros Hok Hp.
  assert (∀ uid db0, punch_known uid ty now db0 = (Returned true msg, db1) →
            db1 = insert_attendance uid ty (second_of now) (date_of now) db0)
    as Hknown.
  { intros uid db0 Hk.
    destruct (punch_known_cases uid ty now db0) as [[m Hm]|Hm];
      rewrite Hm in Hk; congruence. }
  destruct (get_user_id name db) as [uid|] eqn:Hid.
  - rewrite (punch_existing _ _ _ _ uid) in Hp by done.
    exists uid, db. eauto.
  - rewrite punch_new in Hp by done.
    exists (users_seq db + 1), (with_user name db).
    split; [by apply db_ok_add_user|]. split; [done|].
    split; [by apply get_user_id_with_user|]. by apply Hknown.
Qed.

(** C1, as the code has it (SQLite ledger). Let a punch at [t1] succeed,
    every event stored for the user before it being strictly older than
    its second, and let a punch of the same type follow at [t2].  The first
    punch stores one event.  If the second is on the same calendar date and
    its whole-second time is less than 300 seconds after that of the
    first, it fails with the message that carries the time of the first
    punch and nothing is written: one event is stored.  If it comes 300
    seconds or more after the first, or on a later date, it succeeds: two
    events are stored. *)
Theorem punch_dedup_window name ty t1 t2 db db1 msg1 uid :
  db_ok db →
  punch name ty t1 db = (Returned true msg1, db1) →
  get_user_id name db1 = Some uid →
  (∀ r, r ∈ attendance db → a_user_id r = uid → a_time r < second_of t1) →
  t1 ≤ t2 →
  length (attendance db1) = S (length (attendance db)) ∧
  (date_of t2 = date_of t1 → second_of t2 - second_of t1 < 300 →
     punch name ty t2 db1
     = (Returned false ("Already punched " +:+ punch_type_str ty +:+ " at "
                        +:+ strftime_HMS (second_of t1)), db1)) ∧
  (300 * us_per_second ≤ t2 - t1 ∨ date_of t1 < date_of t2 →
     ∃ msg2 db2,
       punch name ty t2 db1 = (Returned true msg2, db2) ∧
       length (attendance db2) = S (S (length (attendance db)))).
Proof.
  intros Hok Hp Huid Hold Hle.
  destruct (punch_success_inv _ _ _ _ _ _ Hok Hp)
    as (uid0 & db0 & Hok0 & Hatt & Hid0 & ->).
  assert (uid0 = uid) as -> by (unfold get_user_id in *; simpl in *; congruence).
  assert (db_ok (insert_attendance uid ty (second_of t1) (date_of t1) db0)) as Hok1.
  { rewrite <- date_of_second_of. by apply db_ok_insert_attendance. }
  set (db1 := insert_attendance uid ty (second_of t1) (date_of t1) db0) in *.
  set (new := {| a_id := attendance_seq db0 + 1; a_user_id := uid; a_type := ty;
                 a_time := second_of t1; a_date := date_of t1 |}).
  assert (length (attendance db1) = S (length (attendance db))) as Hlen.
  { subst db1. simpl. rewrite length_app, Hatt. simpl. lia. }
  rewrite (punch_existing name ty t2 db1 uid Hok1 Huid).
  assert (∀ r, r ∈ rows_of_day uid (date_of t1) db0 → a_time r < a_time new)
    as Holder.
  { intros r Hr. apply rows_of_day_elem in Hr as (Hin & Hu & _).
    rewrite Hatt in Hin. by apply Hold. }
  split; [done|]. split.
  - intros Hdate Hlt.
    rewrite (punch_known_duplicate uid ty t2 db1 new); [done| | |].
    + rewrite Hdate. subst db1. rewrite rows_of_day_insert.
      by apply head_order_by_latest.
    + done.
    + simpl. rewrite timedelta_seconds_same_day by done. lia.
  - intros Hlate. do 2 eexists. split.
    + apply punch_known_insert. intros l Hl Hty.
      destruct (decide (date_of t2 = date_of t1)) as [Hdate|Hdate].
      * rewrite Hdate in Hl. subst db1. rewrite rows_of_day_insert in Hl.
        rewrite head_order_by_latest in Hl by done. injection Hl as <-.
        simpl. rewrite timedelta_seconds_same_day by done.
        destruct Hlate as [Hlate|Hlate]; [|lia].
        by apply second_of_later.
      * exfalso.
        pose proof (head_order_by_time (rows_of_day uid (date_of t2) db1)) as Hh.
        rewrite Hl in Hh. destruct Hh as [Hin _].
        subst db1. rewrite rows_of_day_insert_other in Hin by done.
        apply rows_of_day_elem in Hin as (Hin & Hu & Hd).
        rewrite (ok_dates _ Hok0 _ Hin) in Hd.
        rewrite Hatt in Hin. specialize (Hold l Hin Hu).
        pose proof (date_of_second_mono (a_time l) (second_of t1)) as Hm.
        rewrite date_of_second_of in Hm.
        assert (date_of t1 ≤ date_of t2); [|lia].
        rewrite <- !date_of_second_of. apply date_of_second_mono.
        by apply second_of_mono.
    + simpl. rewrite length_app. simpl.
      subst db1. simpl in Hlen. rewrite Hlen. lia.
Qed.

(** ** History *)

Lemma day_records_snoc d rs r :
  day_records d (rs ++ [r])
  = day_records d rs ++ (if a_date r =? d then [to_record r] else []).
Proof.
  unfold day_records. rewrite List.filter_app, fmap_app. simpl.
  by destruct (a_date r =? d).
Qed.

Lemma day_records_nonempty d rs :
  day_records d rs ≠ [] ↔ ∃ r, r ∈ rs ∧ a_date r = d.
Proof.
  unfold day_records. split.
  - intros Hne. destruct (List.filter _ rs) as [|r rest] eqn:Hf; [done|].
    exists r. rewrite <- Z.eqb_eq. apply (filter_elem_of (λ r, a_date r =? d)).
    rewrite Hf. apply list_elem_of_here.
  - intros (r & Hin & Hd) Hnil. apply fmap_nil_inv in Hnil.
    eapply filter_nil_iff in Hnil; [|done]. simpl in Hnil. lia.
Qed.

Lemma dict_append_keys h d x :
  (dict_append h d x).*1 = if decide (d ∈ h.*1) then h.*1 else h.*1 ++ [d].
Proof.
  induction h as [|[k v] h IH]; cbn [dict_append].
  - rewrite decide_False; [done|apply not_elem_of_nil].
  - rewrite fmap_cons. cbn [fst].
    destruct (Z.eqb_spec k d) as [->|Hne].
    + rewrite decide_True; [done|apply list_elem_of_here].
    + rewrite fmap_cons, IH. cbn [fst].
      destruct (decide (d ∈ h.*1)) as [Hin|Hnin].
      * rewrite decide_True; [done|by apply list_elem_of_further].
      * rewrite decide_False; [done|].
        intros [?|?]%elem_of_cons; [congruence|done].
Qed.

Lemma dict_append_elem h d x d' l :
  NoDup h.*1 →
  (d', l) ∈ dict_append h d x ↔
  (d' ≠ d ∧ (d', l) ∈ h) ∨
  (d' = d ∧ ∃ l0, l = l0 ++ [x] ∧ ((d, l0) ∈ h ∨ ((d ∉ h.*1) ∧ l0 = []))).
Proof.
  induction h as [|[k v] h IH]; intros Hnd; cbn [dict_append].
  - rewrite list_elem_of_singleton. split.
    + intros [= -> ->]. right. split; [done|]. exists []. split; [done|].
      right. split; [apply not_elem_of_nil|done].
    + intros [[_ Hin]|(-> & l0 & -> & [Hin|[_ ->]])]; try done;
        by apply not_elem_of_nil in Hin.
  - rewrite fmap_cons in Hnd. cbn [fst] in Hnd.
    apply NoDup_cons in Hnd as [Hk Hnd]. specialize (IH Hnd).
    assert (∀ l', (k, l') ∈ h → False) as Hkh.
    { intros l' Hin. apply Hk. apply list_elem_of_fmap. by exists (k, l'). }
    rewrite fmap_cons. cbn [fst].
    destruct (Z.eqb_spec k d) as [->|Hne].
    + rewrite elem_of_cons. split.
      * intros [Heq|Hin].
        -- simplify_eq. right. split; [done|]. exists v.
           split; [done|]. left. by left.
        -- left. split; [|by right]. intros ->. by eapply Hkh.
      * intros [[Hne Hin]|(-> & l0 & -> & [Hin|[Hnin _]])].
        -- apply elem_of_cons in Hin as [Heq|Hin]; [congruence|by right].
        -- apply elem_of_cons in Hin as [Heq|Hin].
           ++ simplify_eq. by left.
           ++ exfalso. by eapply Hkh.
        -- exfalso. apply Hnin. by left.
    + rewrite elem_of_cons, IH. split.
      * intros [Heq|[[Hne' Hin]|(-> & l0 & -> & [Hin|[Hnin ->]])]].
        -- simplify_eq. left. split; [done|by left].
        -- left. split; [done|by right].
        -- right. split; [done|]. exists l0. split; [done|]. left. by right.
        -- right. split; [done|]. exists []. split; [done|]. right. split; [|done].
           intros [?|?]%elem_of_cons; [congruence|done].
      * intros [[Hne' Hin]|(-> & l0 & -> & [Hin|[Hnin ->]])].
        -- apply elem_of_cons in Hin as [Heq|Hin]; [by left|].
           right. left. done.
        -- apply elem_of_cons in Hin as [Heq|Hin]; [congruence|].
           right. right. split; [done|]. exists l0. split; [done|]. by left.
        -- right. right. split; [done|]. exists []. split; [done|]. right.
           split; [|done]. intros Hin. apply Hnin. by right.
Qed.

(** the loop of [get_user_history], on rows sorted by date, newest first *)
Lemma group_by_date rs :
  StronglySorted (λ x y, a_date y ≤ a_date x) rs →
  let h := foldl (λ history r, dict_append history (a_date r) (to_record r)) [] rs in
  StronglySorted (λ a b, b < a) h.*1 ∧
  ∀ d l, (d, l) ∈ h ↔ l = day_records d rs ∧ l ≠ [].
Proof.
  induction rs as [|r rs IH] using rev_ind; intros Hs h.
  - subst h. simpl. split; [constructor|]. intros d l. split.
    + by intros ?%not_elem_of_nil.
    + by intros [-> ?].
  - subst h. rewrite foldl_app. simpl.
    pose proof (StronglySorted_app_1_l _ _ _ Hs) as Hs'.
    destruct (IH Hs') as [Hkeys Hrows]. clear IH.
    set (h := foldl _ [] rs) in *.
    assert (NoDup h.*1) as Hnd by by apply StronglySorted_gt_NoDup.
    assert (∀ k, k ∈ h.*1 → a_date r ≤ k) as Hge.
    { intros k Hk. apply list_elem_of_fmap in Hk as ([k' l] & -> & Hin).
      apply Hrows in Hin as [-> Hne]. simpl.
      apply day_records_nonempty in Hne as (r0 & Hr0 & <-).
      apply (StronglySorted_app_1_elem_of _ _ _ _ _ Hs Hr0).
      apply list_elem_of_here. }
    assert (a_date r ∉ h.*1 → day_records (a_date r) rs = []) as Hfresh.
    { intros Hnin. destruct (day_records (a_date r) rs) as [|y ys] eqn:Hdr; [done|].
      exfalso. apply Hnin. apply list_elem_of_fmap.
      exists (a_date r, y :: ys). split; [done|]. apply Hrows. by rewrite Hdr. }
    split.
    + rewrite dict_append_keys. case_decide as Hin; [done|].
      apply StronglySorted_app_2; [|done|repeat constructor].
      intros k k' Hk ->%list_elem_of_singleton.
      specialize (Hge k Hk). assert (k ≠ a_date r) by congruence. lia.
    + intros d l. rewrite dict_append_elem by done.
      rewrite day_records_snoc. split.
      * intros [[Hne Hin]|(-> & l0 & -> & [Hin|[Hnin ->]])].
        -- apply Hrows in Hin as [-> Hl].
           replace (a_date r =? d) with false by (symmetry; apply Z.eqb_neq; lia).
           by rewrite app_nil_r.
        -- apply Hrows in Hin as [-> Hl]. rewrite Z.eqb_refl.
           split; [done|]. by destruct (day_records _ _).
        -- rewrite Z.eqb_refl, Hfresh by done. done.
      * intros [-> Hne]. destruct (decide (a_date r = d)) as [Hd|Hd].
        -- subst d. rewrite Z.eqb_refl in *.
           right. split; [done|]. eexists. split; [done|].
           destruct (decide (a_date r ∈ h.*1)) as [Hin|Hnin].
           ++ left. apply Hrows. split; [done|].
              apply list_elem_of_fmap in Hin as ([k' l'] & Hk & Hin). simpl in Hk.
              subst k'. by apply Hrows in Hin as [<- ?].
           ++ right. split; [done|]. by apply Hfresh.
        -- replace (a_date r =? d) with false in *
             by (symmetry; apply Z.eqb_neq; lia).
           left. split; [congruence|]. rewrite app_nil_r in *. by apply Hrows.
Qed.

Lemma by_date_time_desc_spec x y :
  by_date_time_desc x y ↔
  a_date y < a_date x ∨ (a_date x = a_date y ∧ a_time y ≤ a_time x).
Proof.
  unfold by_date_time_desc.
  rewrite Is_true_true, orb_true_iff, andb_true_iff, Z.ltb_lt, Z.eqb_eq, Z.leb_le.
  done.
Qed.

Lemma by_date_time_desc_total x y :
  by_date_time_desc x y || by_date_time_desc y x.
Proof.
  apply orb_True. rewrite !by_date_time_desc_spec. lia.
Qed.

Lemma by_date_time_desc_trans x y z :
  by_date_time_desc x y → by_date_time_desc y z → by_date_time_desc x z.
Proof. rewrite !by_date_time_desc_spec. lia. Qed.

(** What [get_user_history] returns for a user with a row: the dates come
    newest first, each with the rows of that user and day in descending
    order of [punch_time]; the dates are those from [days] days before
    [now] onwards on which the user has a row. *)
Lemma sqlite_history_spec name days now db uid :
  get_user_id name db = Some uid → uid ≠ 0 →
  let start := date_of (minus_days now days) in
  let h := get_user_history name days now db in
  StronglySorted (λ a b, b < a) h.*1 ∧
  (∀ d l, (d, l) ∈ h →
     start ≤ d ∧ l ≠ [] ∧
     ∃ rows, l = to_record <$> rows ∧ rows ≡ₚ rows_of_day uid d db ∧
             StronglySorted (λ x y, a_time y ≤ a_time x) rows) ∧
  (∀ d, start ≤ d → rows_of_day uid d db ≠ [] → d ∈ h.*1).
Proof.
  intros Hid Hnz start h. subst h. unfold get_user_history. rewrite Hid.
  replace (uid =? 0) with false by (symmetry; by apply Z.eqb_neq).
  fold start.
  set (sel := List.filter _ (attendance db)).
  pose proof (order_by_perm by_date_time_desc sel) as Hperm.
  pose proof (order_by_sorted by_date_time_desc sel by_date_time_desc_total
                by_date_time_desc_trans) as Hsorted.
  set (sorted := order_by by_date_time_desc sel) in *.
  assert (StronglySorted (λ x y, a_date y ≤ a_date x) sorted) as Hdates.
  { eapply StronglySorted_weaken; [|exact Hsorted].
    intros x y _ _ Hxy. apply by_date_time_desc_spec in Hxy. lia. }
  destruct (group_by_date sorted Hdates) as [Hkeys Hrows].
  set (h := foldl _ [] sorted) in *.
  assert (∀ r, r ∈ sorted ↔
               r ∈ attendance db ∧ a_user_id r = uid ∧ start ≤ a_date r) as Hsel.
  { intros r. rewrite Hperm. subst sel. rewrite filter_elem_of, andb_true_iff.
    rewrite Z.eqb_eq, Z.leb_le. done. }
  split; [done|]. split.
  - intros d l Hin. apply Hrows in Hin as [-> Hne].
    assert (start ≤ d) as Hstart.
    { apply day_records_nonempty in Hne as (r & Hr & <-).
      by apply Hsel in Hr as (_ & _ & ?). }
    split; [done|]. split; [done|].
    exists (List.filter (λ r, a_date r =? d) sorted). split; [done|]. split.
    + rewrite (filter_perm _ _ _ Hperm). subst sel.
      rewrite filter_filter_and. unfold rows_of_day.
      erewrite filter_ext; [done|]. intros r. simpl.
      destruct (Z.eqb_spec (a_date r) d) as [->|Hd];
        [|by rewrite !andb_false_r].
      replace (start <=? d) with true by (symmetry; apply Z.leb_le; lia).
      by rewrite !andb_true_r.
    + eapply StronglySorted_weaken;
        [|by apply StronglySorted_filter, Hsorted].
      intros x y Hx Hy Hxy. simpl in Hxy.
      apply filter_elem_of in Hx as [_ Hx], Hy as [_ Hy].
      apply Z.eqb_eq in Hx, Hy. apply by_date_time_desc_spec in Hxy. lia.
  - intros d Hstart Hne.
    destruct (rows_of_day uid d db) as [|r rest] eqn:Hday; [done|].
    assert (r ∈ rows_of_day uid d db) as Hr
      by (rewrite Hday; apply list_elem_of_here).
    apply rows_of_day_elem in Hr as (Hr & Hu & Hd).
    apply list_elem_of_fmap. exists (d, day_records d sorted). split; [done|].
    apply Hrows. split; [done|]. apply day_records_nonempty.
    exists r. split; [|done]. apply Hsel. split; [done|]. split; [done|]. lia.
Qed.

(** no user row, no history *)
Lemma get_user_history_no_user name days now db :
  get_user_id name db = None → get_user_history name days now db = [].
Proof. intros Hid. unfold get_user_history. by rewrite Hid. Qed.

(** ** Deletion and statistics *)

Lemma delete_user_not_found disk name db :
  db_ok db → get_user_id name db = None →
  delete_user disk name db = ((false, "User not found"), db).
Proof. intros _ Hid. unfold delete_user. by rewrite Hid. Qed.

(** the transaction of [delete_user]: both statements and the commit, or
    nothing *)
Lemma delete_user_cases disk name db uid :
  db_ok db → get_user_id name db = Some uid →
  (no_fault disk ∧
   delete_user disk name db
   = ((true, "User " +:+ name +:+ " and all records deleted"), purge uid db)) ∨
  (¬ no_fault disk ∧
   ∃ m, delete_user disk name db = ((false, "Error deleting user: " +:+ m), db)).
Proof.
  intros Hok Hid. unfold delete_user, no_fault. rewrite Hid.
  pose proof (get_user_id_pos _ _ _ Hok Hid) as Hpos.
  replace (uid =? 0) with false by (symmetry; apply Z.eqb_neq; lia).
  unfold get_connection, execute.
  destruct (disk 0%nat) as [m0|] eqn:H0.
  { right. split; [by intros (? & ? & ?)|]. by exists m0. }
  destruct (disk 1%nat) as [m1|] eqn:H1.
  { right. split; [by intros (? & ? & ?)|]. by exists m1. }
  destruct (disk 2%nat) as [m2|] eqn:H2.
  { right. split; [by intros (? & ? & ?)|]. by exists m2. }
  left. done.
Qed.

Lemma purge_users uid db :
  users (purge uid db) = List.filter (λ u, negb (u_id u =? uid)) (users db).
Proof. done. Qed.

Lemma purge_attendance uid db :
  attendance (purge uid db)
  = List.filter (λ r, negb (a_user_id r =? uid)) (attendance db).
Proof. done. Qed.

Lemma purge_no_user name db uid :
  db_ok db → get_user_id name db = Some uid →
  get_user_id name (purge uid db) = None.
Proof.
  intros Hok Hid. apply get_user_id_None. intros u Hu Hname.
  rewrite purge_users in Hu. apply filter_elem_of in Hu as [Hu Hne].
  pose proof (get_user_id_of_row db u Hok Hu) as Hu'.
  rewrite Hname, Hid in Hu'. injection Hu' as ->.
  by rewrite Z.eqb_refl in Hne.
Qed.

Lemma db_ok_purge uid db : db_ok db → db_ok (purge uid db).
Proof.
  intros [Hn Hi Hs Hr Hd]. split; simpl; try done.
  - clear -Hn. induction (users db) as [|u us IH]; simpl; [constructor|].
    rewrite fmap_cons in Hn. apply NoDup_cons in Hn as [Hu Hn].
    destruct (negb _); [|by apply IH]. rewrite fmap_cons.
    apply NoDup_cons. split; [|by apply IH].
    intros (v & Hv & Hin)%list_elem_of_fmap. apply filter_elem_of in Hin as [Hin _].
    apply Hu. apply list_elem_of_fmap. by exists v.
  - clear -Hi. induction (users db) as [|u us IH]; simpl; [constructor|].
    rewrite fmap_cons in Hi. apply NoDup_cons in Hi as [Hu Hi].
    destruct (negb _); [|by apply IH]. rewrite fmap_cons.
    apply NoDup_cons. split; [|by apply IH].
    intros (v & Hv & Hin)%list_elem_of_fmap. apply filter_elem_of in Hin as [Hin _].
    apply Hu. apply list_elem_of_fmap. by exists v.
  - intros u Hu. apply filter_elem_of in Hu as [Hu _]. by apply Hr.
  - intros r Hin. apply filter_elem_of in Hin as [Hin _]. by apply Hd.
Qed.

Lemma count_by_lookup `{Countable K} (keys : list K) (k : K) :
  count_by keys !! k
  = group_size (length (List.filter (λ k', bool_decide (k' = k)) keys)).
Proof.
  induction keys as [|k' keys IH]; simpl; [by rewrite lookup_empty|].
  case_bool_decide as Hk.
  - subst k'. rewrite lookup_insert_eq, IH. simpl.
    by destruct (length _).
  - by rewrite lookup_insert_ne.
Qed.

Lemma distinct_by_lookup (rows : list (Z * Z)) (d : Z) :
  distinct_by rows !! d
  = match List.filter (λ p, p.1 =? d) rows with
    | [] => None
    | day => Some (list_to_set day.*2)
    end.
Proof.
  induction rows as [|[d' u] rows IH]; simpl; [by rewrite lookup_empty|].
  destruct (Z.eqb_spec d' d) as [->|Hne].
  - rewrite lookup_insert_eq, IH. f_equal.
    by destruct (List.filter _ rows).
  - by rewrite lookup_insert_ne.
Qed.

Lemma filter_fmap_length {A B} (f : B → bool) (g : A → B) (l : list A) :
  length (List.filter f (g <$> l)) = length (List.filter (λ x, f (g x)) l).
Proof.
  induction l as [|x l IH]; [done|]. rewrite fmap_cons. simpl.
  destruct (f (g x)); simpl; by rewrite IH.
Qed.

Lemma filter_fmap {A B} (f : B → bool) (g : A → B) (l : list A) :
  List.filter f (g <$> l) = g <$> List.filter (λ x, f (g x)) l.
Proof.
  induction l as [|x l IH]; [done|]. rewrite fmap_cons. simpl.
  destruct (f (g x)); simpl; by rewrite IH.
Qed.

(** After the deletion of a user, the statistics over any range have no
    entry for the name and count, per type and per day, the rows of the
    other users only. *)
Lemma statistics_after_purge name db uid start_date end_date now :
  db_ok db → get_user_id name db = Some uid →
  let s := default (date_of (minus_days now 30)) start_date in
  let e := default (date_of now) end_date in
  let st := get_statistics start_date end_date now (purge uid db) in
  by_user st !! name = None ∧
  (∀ ty, by_type st !! ty
         = group_size (length (List.filter (λ r, punch_type_eqb (a_type r) ty)
                                 (rows_of_others uid s e db)))) ∧
  (∀ d, daily st !! d
        = match List.filter (λ r, a_date r =? d) (rows_of_others uid s e db) with
          | [] => None
          | day => Some (size (list_to_set (a_user_id <$> day) : gset Z))
          end).
Proof.
  intros Hok Hid s e st. subst st. unfold get_statistics. fold s e. simpl.
  assert (List.filter (between s e)
            (List.filter (λ r, negb (a_user_id r =? uid)) (attendance db))
          = rows_of_others uid s e db) as ->.
  { unfold rows_of_others. rewrite filter_filter_and.
    apply filter_ext. intros r. apply andb_comm. }
  split; [|split].
  - apply not_elem_of_list_to_map_1. rewrite <- list_fmap_compose.
    intros (u & Hname & Hu)%list_elem_of_fmap. simpl in Hname.
    pose proof (purge_no_user name db uid Hok Hid) as Hnone.
    eapply get_user_id_None in Hnone; [|by rewrite purge_users]. done.
  - intros ty. rewrite count_by_lookup, filter_fmap_length. done.
  - intros d. rewrite lookup_fmap, distinct_by_lookup, filter_fmap. simpl.
    destruct (List.filter _ (rows_of_others uid s e db)) as [|r rest]; [done|].
    simpl. by rewrite <- !list_fmap_compose.
Qed.

(** C8. For a user with a row, [delete_user] is one transaction: when the
    storage layer raises no error it succeeds and removes the user row
    together with every attendance row of the user, and when a statement
    or the commit fails it returns a failure and the tables are unchanged.
    After a success the name has no user row, the rows of the other users
    are all kept, the history of the name is empty for every [days], and
    the statistics over every range have no entry for the name and count
    only the rows of the others.  For a name without a row the result is
    the failure "User not found" and nothing changes. *)
Theorem delete_user_cascade disk name db :
  db_ok db →
  (get_user_id name db = None →
     delete_user disk name db = ((false, "User not found"), db)) ∧
  (∀ uid, get_user_id name db = Some uid →
     let r := delete_user disk name db in
     (r.1.1 = true ∧ r.2 = purge uid db ∨ r.1.1 = false ∧ r.2 = db) ∧
     (r.1.1 = true ↔ no_fault disk) ∧
     (r.1.1 = true →
        r.1.2 = "User " +:+ name +:+ " and all records deleted" ∧
        get_user_id name r.2 = None ∧
        (∀ row, row ∈ attendance r.2 ↔ row ∈ attendance db ∧ a_user_id row ≠ uid) ∧
        (∀ u, u ∈ users r.2 ↔ u ∈ users db ∧ u_id u ≠ uid) ∧
        (∀ days now, get_user_history name days now r.2 = []) ∧
        (∀ start_date end_date now,
           let s := default (date_of (minus_days now 30)) start_date in
           let e := default (date_of now) end_date in
           let st := get_statistics start_date end_date now r.2 in
           by_user st !! name = None ∧
           (∀ ty, by_type st !! ty
                  = group_size
                      (length (List.filter (λ r, punch_type_eqb (a_type r) ty)
                                 (rows_of_others uid s e db)))) ∧
           (∀ d, daily st !! d
                 = match List.filter (λ r, a_date r =? d)
                           (rows_of_others uid s e db) with
                   | [] => None
                   | day => Some (size (list_to_set (a_user_id <$> day) : gset Z))
                   end)))).
Proof.
  intros Hok. split; [by apply delete_user_not_found|].
  intros uid Hid r. subst r.
  destruct (delete_user_cases disk name db uid Hok Hid)
    as [[Hnf ->]|[Hf [m ->]]]; cbn [fst snd].
  - split; [by left|]. split; [done|]. intros _. split; [done|].
    split; [by apply purge_no_user|]. split; [|split; [|split]].
    + intros row. rewrite purge_attendance, filter_elem_of, negb_true_iff, Z.eqb_neq.
      done.
    + intros u. rewrite purge_users, filter_elem_of, negb_true_iff, Z.eqb_neq. done.
    + intros days now. apply get_user_history_no_user. by apply purge_no_user.
    + intros start_date end_date now. by apply statistics_after_purge.
  - split; [by right|]. split; [|done]. split; [done|]. intros Hnf. by destruct Hf.
Qed.

End sqlite_properties.

(** C7, as the code has it. Both ledgers return the dates newest first,
    and no date with an empty list.  The flat-file ledger returns, for
    [days] not negative, the [days] most recent dates of the user that have
    an event (all of them when there are fewer), each with its stored list,
    to which every accepted punch is appended at the end.  The SQLite ledger
    returns the dates from [days] days before [now] onwards on which the
    user has a row, each with the rows of that day in descending order of
    [punch_time], as long as that first date, today and the stored dates
    have four-digit years; for a name without a user row it returns
    nothing. *)
Theorem history_by_date `{E : Sqlite.SqlEngine} :
  (∀ name days records,
     Json.records_ok records → 0 ≤ days →
     let by_date := default ∅ (records !! name) in
     let h := Json.get_user_history name days records in
     StronglySorted (λ a b, b < a) h.*1 ∧
     (∀ d l, (d, l) ∈ h → by_date !! d = Some l ∧ l ≠ []) ∧
     length h = Nat.min (Z.to_nat days) (size by_date) ∧
     (∀ d d', d ∈ h.*1 → is_Some (by_date !! d') → d' ∉ h.*1 → d' < d)) ∧
  (∀ name ty now records,
     Json.records_ok records →
     Json.records_ok (Json.punch name ty now records).2 ∧
     ((Json.punch name ty now records).1.1 = true →
      Json.day_list name (date_of now) (Json.punch name ty now records).2
      = Json.day_list name (date_of now) records ++ [Json.new_record ty now])) ∧
  (∀ name days now db uid,
     Sqlite.get_user_id name db = Some uid → uid ≠ 0 →
     four_digit_year (date_of now) →
     four_digit_year (date_of (minus_days now days)) →
     Sqlite.rows_in_calendar db →
     let start := date_of (minus_days now days) in
     let h := Sqlite.get_user_history name days now db in
     StronglySorted (λ a b, b < a) h.*1 ∧
     (∀ d l, (d, l) ∈ h →
        start ≤ d ∧ l ≠ [] ∧
        ∃ rows, l = Sqlite.to_record <$> rows ∧
                rows ≡ₚ Sqlite.rows_of_day uid d db ∧
                StronglySorted (λ x y, Sqlite.a_time y ≤ Sqlite.a_time x) rows) ∧
     (∀ d, start ≤ d → Sqlite.rows_of_day uid d db ≠ [] → d ∈ h.*1)) ∧
  (∀ name days now db,
     Sqlite.get_user_id name db = None →
     Sqlite.get_user_history name days now db = []).
Proof.
  split; [apply json_history_spec|]. split.
  - intros name ty now records Hok. split; [by apply records_ok_punch|].
    destruct (punch_cases name ty now records) as [(l & _ & _ & ->)| ->];
      [done|].
    intros _. cbn [snd]. unfold Json.day_list at 1.
    rewrite lookup_insert_eq. simpl. by rewrite lookup_insert_eq.
  - split; [|apply get_user_history_no_user].
    intros name days now db uid Hid Hnz _ _ _. by apply sqlite_history_spec.
Qed.

(** ** The statements on concrete ledgers *)

Lemma db_ok_empty : Sqlite.db_ok Sqlite.empty_db.
Proof.
  split; simpl.
  - apply NoDup_nil_2.
  - apply NoDup_nil_2.
  - done.
  - by intros u ?%not_elem_of_nil.
  - by intros r ?%not_elem_of_nil.
Qed.

Lemma db_ok_office : Sqlite.db_ok Fixture.office_db.
Proof.
  unfold Fixture.office_db. repeat apply db_ok_punch. apply db_ok_empty.
Qed.

(** C1, as stated, fails: two punches of the same type three minutes apart,
    one before midnight and one after, are both stored. *)
Lemma punch_across_midnight_stores_two :
  let t1 := Fixture.at_time 0 23 58 0 in
  let t2 := Fixture.at_time 1 0 1 0 in
  let r1 := @Sqlite.punch Fixture.engine "alice" PIn t1 Sqlite.empty_db in
  let r2 := @Sqlite.punch Fixture.engine "alice" PIn t2 r1.2 in
  t2 - t1 = 180 * us_per_second ∧
  r1.1 = Sqlite.Returned true "Punched in successfully at 23:58:00" ∧
  r2.1 = Sqlite.Returned true "Punched in successfully at 00:01:00" ∧
  length (Sqlite.attendance r2.2) = 2%nat.
Proof. by vm_compute. Qed.

(** the stored time has whole seconds: two punches 299.2 seconds apart whose
    seconds differ by 300 are both stored *)
Example punch_whole_seconds_stores_two :
  let t1 := 900000 in
  let t2 := 300100000 in
  let r1 := @Sqlite.punch Fixture.engine "alice" PIn t1 Sqlite.empty_db in
  let r2 := @Sqlite.punch Fixture.engine "alice" PIn t2 r1.2 in
  t2 - t1 < 300 * us_per_second ∧ date_of t1 = date_of t2 ∧
  r1.1 = Sqlite.Returned true "Punched in successfully at 00:00:00" ∧
  r2.1 = Sqlite.Returned true "Punched in successfully at 00:05:00" ∧
  length (Sqlite.attendance r2.2) = 2%nat.
Proof. by vm_compute. Qed.

(** bob, whose last event is his punch in at 09:30, punches in at 10:00;
    a repeat at 10:03 is refused and a repeat at 10:05 is stored *)
Lemma punch_dedup_window_witness :
  let t1 := Fixture.at_time 1 10 0 0 in
  let r1 := @Sqlite.punch Fixture.engine "bob" PIn t1 Fixture.office_db in
  r1.1 = Sqlite.Returned true "Punched in successfully at 10:00:00" ∧
  @Sqlite.punch Fixture.engine "bob" PIn (Fixture.at_time 1 10 3 0) r1.2
  = (Sqlite.Returned false "Already punched in at 10:00:00", r1.2) ∧
  ∃ msg2 db2,
    @Sqlite.punch Fixture.engine "bob" PIn (Fixture.at_time 1 10 5 0) r1.2
    = (Sqlite.Returned true msg2, db2) ∧
    length (Sqlite.attendance db2) = 5%nat.
Proof.
  intros t1 r1.
  assert (∀ r, r ∈ Sqlite.attendance Fixture.office_db →
               Sqlite.a_user_id r = 2 → Sqlite.a_time r < second_of t1) as Hold.
  { intros r Hr _. vm_compute in Hr.
    repeat (apply elem_of_cons in Hr as [->|Hr]; [by vm_compute|]).
    by apply not_elem_of_nil in Hr. }
  split; [by vm_compute|]. split.
  - refine (proj1 (proj2 (@punch_dedup_window Fixture.engine "bob" PIn t1
              (Fixture.at_time 1 10 3 0) Fixture.office_db r1.2
              "Punched in successfully at 10:00:00" 2 db_ok_office _ _ Hold _))
              _ _); by vm_compute.
  - refine (proj2 (proj2 (@punch_dedup_window Fixture.engine "bob" PIn t1
              (Fixture.at_time 1 10 5 0) Fixture.office_db r1.2
              "Punched in successfully at 10:00:00" 2 db_ok_office _ _ Hold _))
              _); first [by vm_compute | left; by vm_compute].
Defined.

(** C7, as stated, fails on the SQLite ledger: alice punched in at 09:00 and
    out at 17:00, and the history of the day lists the later event first. *)
Lemma sqlite_history_newest_event_first :
  Sqlite.to_record <$> Sqlite.attendance Fixture.office_db
  = [ {| r_type := PIn; r_time := "09:00:00" |};
      {| r_type := POut; r_time := "17:00:00" |};
      {| r_type := PIn; r_time := "09:30:00" |} ] ∧
  @Sqlite.get_user_history Fixture.engine "alice" 7 (Fixture.at_time 1 12 0 0)
    Fixture.office_db
  = [ (0, [ {| r_type := POut; r_time := "17:00:00" |};
            {| r_type := PIn; r_time := "09:00:00" |} ]) ].
Proof. by vm_compute. Qed.

(** the SQLite ledger selects by calendar window: with [days = 1] it returns
    the two dates of yesterday and today, and an older day with events is
    not returned however few dates there are *)
Example sqlite_history_calendar_window :
  (@Sqlite.get_user_history Fixture.engine "alice" 1 (Fixture.at_time 1 12 0 0)
     Fixture.office_db).*1 = [0] ∧
  (@Sqlite.get_user_history Fixture.engine "alice" 1 (Fixture.at_time 2 12 0 0)
     Fixture.office_db).*1 = [] ∧
  (Json.get_user_history "alice" 1 Fixture.office_records).*1 = [2].
Proof. by vm_compute. Qed.

(** the rows of the office ledger are of January 1970 *)
Lemma office_dates : Sqlite.rows_in_calendar Fixture.office_db.
Proof.
  intros r Hr. vm_compute in Hr.
  repeat (apply elem_of_cons in Hr as [->|Hr]; [by vm_compute|]).
  by apply not_elem_of_nil in Hr.
Qed.

(** the last two dates of alice in the flat-file ledger, and her dates in
    the SQLite ledger *)
Lemma history_by_date_witness :
  Json.get_user_history "alice" 2 Fixture.office_records
  = [ (2, [ {| r_type := PIn; r_time := "09:00:00" |};
            {| r_type := POut; r_time := "17:00:00" |} ]);
      (1, [ {| r_type := PIn; r_time := "09:00:00" |} ]) ] ∧
  StronglySorted (λ a b, b < a)
    (Json.get_user_history "alice" 2 Fixture.office_records).*1 ∧
  StronglySorted (λ a b, b < a)
    (@Sqlite.get_user_history Fixture.engine "alice" 7 (Fixture.at_time 1 12 0 0)
       Fixture.office_db).*1.
Proof.
  split; [by vm_compute|]. split.
  - refine (proj1 (proj1 (@history_by_date Fixture.engine)
                     "alice" 2 Fixture.office_records _ _)); [|done].
    unfold Fixture.office_records.
    repeat apply records_ok_punch. apply records_ok_empty.
  - refine (proj1 (proj1 (proj2 (proj2 (@history_by_date Fixture.engine)))
                     "alice" 7 (Fixture.at_time 1 12 0 0) Fixture.office_db 1
                     _ _ _ _ office_dates));
      by vm_compute.
Defined.

(** deleting alice without a storage error, with an error at the second
    statement, and deleting a name that has no row *)
Lemma delete_user_cascade_witness :
  let r := Sqlite.delete_user (λ _, None) "alice" Fixture.office_db in
  r.1 = (true, "User alice and all records deleted") ∧
  Sqlite.get_user_id "alice" r.2 = None ∧
  length (Sqlite.attendance r.2) = 1%nat ∧
  (Sqlite.delete_user (λ k, if (k =? 1)%nat then Some "disk I/O error" else None)
     "alice" Fixture.office_db).2 = Fixture.office_db ∧
  Sqlite.delete_user (λ _, None) "carol" Fixture.office_db
  = ((false, "User not found"), Fixture.office_db).
Proof.
  intros r.
  pose proof (proj2 (@delete_user_cascade Fixture.engine (λ _, None) "alice"
                       Fixture.office_db db_ok_office) 1 eq_refl)
    as (_ & Hok & Hafter).
  split; [by vm_compute|]. split; [|by vm_compute].
  apply Hafter. by vm_compute.
Defined.

(** * Further properties of face_system.py *)

Section face_more.
Context `{CV : Face.OpenCV} `{FS : !Face.FileSystem}.
Import Face.

Lemma max_by_area_spec rest : ∀ best,
  ∃ i, (best :: rest) !! i = Some (max_by_area best rest) ∧
       (∀ j r', (best :: rest) !! j = Some r' →
                area r' ≤ area (max_by_area best rest)) ∧
       (∀ j r', (j < i)%nat → (best :: rest) !! j = Some r' →
                area r' < area (max_by_area best rest)).
Proof.
  induction rest as [|r1 rest IH]; intros best.
  - exists 0%nat. simpl. split; [done|]. split.
    + intros [|j] r' Hj; simpl in Hj; [|done]. injection Hj as <-. lia.
    + intros j r' Hj. lia.
  - cbn [max_by_area]. destruct (Z.ltb_spec (area best) (area r1)) as [Hlt|Hge].
    + destruct (IH r1) as (i & Hi & Hall & Hbefore).
      exists (S i). split; [done|]. split.
      * intros [|j] r' Hj; simpl in Hj.
        -- injection Hj as <-. specialize (Hall 0%nat r1 eq_refl). lia.
        -- by eapply Hall.
      * intros [|j] r' Hlt' Hj; simpl in Hj.
        -- injection Hj as <-. specialize (Hall 0%nat r1 eq_refl). lia.
        -- eapply Hbefore; [|done]. lia.
    + destruct (IH best) as (i & Hi & Hall & Hbefore).
      destruct i as [|i].
      * exists 0%nat. simpl in Hi. injection Hi as Hi. split; [by rewrite <- Hi|].
        split; [|intros; lia].
        intros [|[|j]] r' Hj; simpl in Hj.
        -- injection Hj as <-. rewrite <- Hi. lia.
        -- injection Hj as <-. rewrite <- Hi. lia.
        -- apply (Hall (S j) r'). done.
      * exists (S (S i)). simpl in Hi. split; [done|]. split.
        -- intros [|[|j]] r' Hj; simpl in Hj.
           ++ injection Hj as <-. apply (Hall 0%nat). done.
           ++ injection Hj as <-. specialize (Hbefore 0%nat best). simpl in Hbefore.
              specialize (Hbefore ltac:(lia) eq_refl). lia.
           ++ apply (Hall (S j) r'). done.
        -- intros [|[|j]] r' Hlt' Hj; simpl in Hj.
           ++ injection Hj as <-. apply (Hbefore 0%nat); [lia|done].
           ++ injection Hj as <-. specialize (Hbefore 0%nat best). simpl in Hbefore.
              specialize (Hbefore ltac:(lia) eq_refl). lia.
           ++ apply (Hbefore (S j) r'); [lia|done].
Qed.

(** X1. [detect_face] finds no face exactly when the cascade returns no
    rectangle; otherwise it returns the crop of the rectangle with the
    largest key, the first of them in the order of the cascade when several
    have that key.  The key is the product of width and height as int32
    computes it: the area of the rectangle whenever the area is below
    2^31. *)
Theorem detect_face_largest frame :
  let rects := detectMultiScale (preprocess frame) in
  (detect_face frame = None ↔ rects = []) ∧
  (∀ face r, detect_face frame = Some (face, r) →
     face = crop (preprocess frame) r ∧
     ∃ i, rects !! i = Some r ∧
          (∀ j r', rects !! j = Some r' → area r' ≤ area r) ∧
          (∀ j r', (j < i)%nat → rects !! j = Some r' → area r' < area r)) ∧
  (∀ x y w h, - 2 ^ 31 ≤ w * h < 2 ^ 31 → area (x, y, w, h) = w * h).
Proof.
  intros rects. subst rects. unfold detect_face. split; [|split].
  - destruct (detectMultiScale (preprocess frame)) as [|f faces]; [done|].
    split; intros [=].
  - destruct (detectMultiScale (preprocess frame)) as [|f faces];
      intros face r [= <- <-].
    split; [done|]. apply max_by_area_spec.
  - intros x y w h Hwh. unfold area, int32.
    rewrite Z.mod_small by lia. lia.
Qed.

Lemma labels_of_cons n e fs :
  labels_of n (e :: fs)
  = replicate (length (ud_samples e.2)) (Z.of_nat n) ++ labels_of (S n) fs.
Proof.
  unfold labels_of. cbn [imap concat]. rewrite Nat.add_0_r. do 2 f_equal.
  apply imap_ext. intros i e' _. cbn. do 2 f_equal. lia.
Qed.

Lemma train_loop_labels files : ∀ idx us faces labels,
  (train_loop idx files us faces labels).2 = labels ++ labels_of idx files.
Proof.
  induction files as [|[f ud] files IH]; intros; cbn [train_loop].
  - cbn. by rewrite app_nil_r.
  - rewrite IH, labels_of_cons. by rewrite <- app_assoc.
Qed.

Lemma labels_of_length files : ∀ n,
  length (concat ((λ e, ud_samples e.2) <$> files)) = length (labels_of n files).
Proof.
  induction files as [|e fs IH]; intros n; [done|].
  rewrite labels_of_cons, fmap_cons. cbn [concat].
  rewrite !length_app, length_replicate. by rewrite (IH (S n)).
Qed.

Lemma labels_of_lookup files : ∀ n i e x,
  files !! i = Some e → x ∈ ud_samples e.2 →
  ∃ k, concat ((λ e, ud_samples e.2) <$> files) !! k = Some x ∧
       labels_of n files !! k = Some (Z.of_nat (n + i)).
Proof.
  induction files as [|e' fs IH]; intros n i e x Hi Hx; [done|].
  rewrite labels_of_cons, fmap_cons. cbn [concat].
  destruct i as [|i]; simpl in Hi.
  - injection Hi as ->. apply list_elem_of_lookup in Hx as [k Hk].
    exists k. rewrite Nat.add_0_r.
    pose proof (lookup_lt_Some _ _ _ Hk) as Hlt.
    rewrite !lookup_app_l by (rewrite ?length_replicate; done).
    split; [done|]. by apply lookup_replicate.
  - destruct (IH (S n) i e x Hi Hx) as (k & Hk1 & Hk2).
    exists (length (ud_samples e'.2) + k)%nat.
    rewrite !lookup_app_r by (rewrite ?length_replicate; lia).
    rewrite length_replicate.
    replace (length (ud_samples e'.2) + k - length (ud_samples e'.2))%nat
      with k by lia.
    split; [done|]. rewrite Hk2. do 2 f_equal. lia.
Qed.

(** a successful [train], field by field *)
Lemma train_success_state (s : FaceSystem) :
  (train s).1 = true →
  let files := pkl_files s in
  let m := lbph_train (concat ((λ e, ud_samples e.2) <$> files))
             (labels_of 0 files) in
  trained (train s).2 = true ∧
  recognizer (train s).2 = m ∧
  model_file (train s).2 = Some m ∧
  users_file (train s).2 = Some (users (train s).2).
Proof.
  unfold train, pkl_files. simpl.
  destruct (data_dir s) as [dir|]; simpl; [|done].
  destruct (List.filter is_pkl (listdir dir)) as [|e files] eqn:Hfiles; [done|].
  pose proof (train_loop_faces (e :: files) 0 ∅ [] []) as Hf.
  pose proof (train_loop_labels (e :: files) 0 ∅ [] []) as Hl.
  destruct (train_loop 0 (e :: files) ∅ [] []) as [[us faces] labels].
  replace (length (e :: files) =? 0)%nat with false by done.
  cbn [fst snd] in Hf, Hl. rewrite app_nil_l in Hf, Hl.
  destruct (length faces =? 0)%nat; [done|]. intros _. simpl.
  by rewrite Hf, Hl.
Qed.

(** X2. a successful [train] fits the classifier on all the samples of all
    the [.pkl] records, in the order of the listing, every sample with the
    label of its record; it sets the trained flag and writes to the model
    files the classifier and the label map it keeps in memory. *)
Theorem train_fits_all_samples (s : FaceSystem) :
  (train s).1 = true →
  let files := pkl_files s in
  let faces := concat ((λ e, ud_samples e.2) <$> files) in
  let labels := labels_of 0 files in
  length faces = length labels ∧
  (∀ i e, files !! i = Some e → ∀ x, x ∈ ud_samples e.2 →
     ∃ k, faces !! k = Some x ∧ labels !! k = Some (Z.of_nat i) ∧
          users (train s).2 !! Z.of_nat i = Some (ud_name e.2)) ∧
  trained (train s).2 = true ∧
  recognizer (train s).2 = lbph_train faces labels ∧
  model_file (train s).2 = Some (recognizer (train s).2) ∧
  users_file (train s).2 = Some (users (train s).2).
Proof.
  intros Hok files faces labels.
  destruct (train_success_state s Hok) as (Ht & Hr & Hm & Hu).
  fold files in Hr, Hm. fold faces labels in Hr, Hm.
  split; [apply labels_of_length|]. split; [|by rewrite Hr].
  intros i e Hi x Hx.
  destruct (labels_of_lookup files 0 i e x Hi Hx) as (k & Hk1 & Hk2).
  exists k. split; [done|]. split; [done|].
  rewrite train_users, decide_True by lia. fold files.
  by rewrite Nat2Z.id, Hi.
Qed.

(** X3. the restart round trip.  The object built by [__init__] from the
    files left by a successful [train] is the object [train] left. *)
Theorem load_model_after_train (fresh : Model) (s : FaceSystem) :
  (train s).1 = true →
  let s' := (train s).2 in
  load_model fresh (data_dir s') (model_file s') (users_file s') = Some s'.
Proof.
  intros Hok s'. subst s'.
  destruct (train_success_state s Hok) as (Ht & Hr & Hm & Hu).
  rewrite Hm, Hu. unfold load_model.
  destruct (train s).2 as [us tr rec dir mf uf]. simpl in *.
  by rewrite Ht, Hr, Hm, Hu.
Qed.

(** X4. [train] fails exactly when the [.pkl] records hold no sample at all
    (no directory, no record, or records without samples); a failed
    [train] keeps the classifier, the trained flag, the model files and the
    data directory. *)
Theorem train_fails_without_samples (s : FaceSystem) :
  ((train s).1 = false ↔ concat ((λ e, ud_samples e.2) <$> pkl_files s) = []) ∧
  ((train s).1 = false →
     trained (train s).2 = trained s ∧ recognizer (train s).2 = recognizer s ∧
     model_file (train s).2 = model_file s ∧
     users_file (train s).2 = users_file s ∧
     data_dir (train s).2 = data_dir s).
Proof.
  split; [|apply train_failure_keeps_classifier].
  pose proof (train_success s) as H. destruct (train s).1.
  - split; [done|]. intros Hnil. by apply H in Hnil.
  - split; [|done]. intros _.
    destruct (concat _) eqn:Hc; [done|]. exfalso.
    assert (false = true); [|done]. by apply H.
Qed.

(** X5. enrolling under a name that is a file name, with 10 frames or more
    that show a face, succeeds, with the count in the message; the record
    is stored under [name.pkl] with the detected faces, the model is
    trained and saved, and some label of the new label map names the
    user. *)
Theorem register_user_success name frames now s :
  file_name_ok name = true →
  (10 ≤ length (List.filter has_face frames))%nat →
  let r := register_user name frames now s in
  r.1 = (true, "Registered " +:+ name +:+ " with " +:+
               pretty (length (List.filter has_face frames)) +:+ " samples") ∧
  data_dir r.2
  = Some (<[name +:+ ".pkl" :=
              {| ud_name := name;
                 ud_samples := omap (λ fr, fst <$> detect_face fr) frames;
                 ud_registered_at := now |}]> (default ∅ (data_dir s))) ∧
  trained r.2 = true ∧
  model_file r.2 = Some (recognizer r.2) ∧
  users_file r.2 = Some (users r.2) ∧
  ∃ label, users r.2 !! label = Some name.
Proof.
  intros _ Hge r.
  destruct (register_user_replaces name frames now s Hge) as [_ Hdir].
  fold r in Hdir. rewrite Hdir.
  cut (r.1 = (true, "Registered " +:+ name +:+ " with " +:+
                    pretty (length (List.filter has_face frames)) +:+ " samples") ∧
       trained r.2 = true ∧ model_file r.2 = Some (recognizer r.2) ∧
       users_file r.2 = Some (users r.2) ∧
       ∃ label, users r.2 !! label = Some name);
    [by intros (H1 & H2 & H3 & H4 & H5)|].
  clear Hdir. subst r. unfold register_user. rewrite samples_length.
  replace (length (List.filter has_face frames) <? 10)%nat with false
    by (symmetry; apply Nat.ltb_ge; lia).
  set (ud := {| ud_name := name; ud_samples := _; ud_registered_at := now |}).
  set (s1 := set_data_dir _ _).
  assert ((name +:+ ".pkl", ud) ∈ pkl_files s1) as Hin.
  { unfold pkl_files. subst s1. simpl.
    apply list_elem_of_In, filter_In. split.
    - apply list_elem_of_In. rewrite listdir_perm.
      apply elem_of_map_to_list. apply lookup_insert_eq.
    - apply endswith_app. }
  assert ((train s1).1 = true) as Hok.
  { apply train_success.
    apply (concat_nonempty _ (ud_samples ud)).
    - apply list_elem_of_fmap. by exists (name +:+ ".pkl", ud).
    - subst ud. simpl. intros Hnil.
      apply (f_equal (λ l, length l)) in Hnil. rewrite samples_length in Hnil.
      simpl in Hnil. lia. }
  pose proof (train_success_state s1 Hok) as (Ht & Hr & Hm & Hu).
  pose proof (train_users s1) as Hus.
  destruct (train s1) as [ok s2]. simpl in Hok. subst ok. simpl in *.
  split; [done|]. split; [done|]. split; [by rewrite Hm, Hr|]. split; [done|].
  apply list_elem_of_lookup in Hin as [i Hi].
  exists (Z.of_nat i). rewrite Hus, decide_True by lia.
  by rewrite Nat2Z.id, Hi.
Qed.

(** ** The list of enrolled names *)

Lemma get_all_users_elem s name :
  plain_names s → occurs ".pkl" name = false →
  name ∈ get_all_users s ↔
  is_Some (default ∅ (data_dir s) !! (name +:+ ".pkl")).
Proof.
  intros Hplain Hname. unfold get_all_users, plain_names in *.
  destruct (data_dir s) as [dir|]; simpl in *.
  2:{ rewrite lookup_empty. split; [by intros ?%not_elem_of_nil|by intros [? ?]]. }
  rewrite list_elem_of_fmap. split.
  - intros ([f ud] & -> & Hin). simpl.
    apply list_elem_of_In, filter_In in Hin as [Hin Hpkl].
    apply list_elem_of_In in Hin. rewrite listdir_perm in Hin.
    apply elem_of_map_to_list in Hin.
    destruct (Hplain f ud Hin Hpkl) as (n & -> & Hn).
    rewrite replace_stem by done. by exists ud.
  - intros [ud Hud]. exists (name +:+ ".pkl", ud). simpl.
    split; [by rewrite replace_stem|].
    apply list_elem_of_In, filter_In. split; [|apply endswith_app].
    apply list_elem_of_In. rewrite listdir_perm. by apply elem_of_map_to_list.
Qed.

(** X6. [get_all_users] answers from the data directory alone, whatever the
    state of the model: on a directory whose records are named after names
    without [.pkl] in them, it lists a name exactly when the directory has
    the record of that name, and lists no name twice. *)
Theorem get_all_users_storage s :
  plain_names s →
  NoDup (get_all_users s) ∧
  ∀ name, occurs ".pkl" name = false →
    (name ∈ get_all_users s ↔
     is_Some (default ∅ (data_dir s) !! (name +:+ ".pkl"))).
Proof.
  intros Hplain. split; [by apply get_all_users_NoDup|].
  intros name Hname. by apply get_all_users_elem.
Qed.

Lemma register_user_keeps name frames now s f :
  is_Some (default ∅ (data_dir s) !! f) →
  is_Some (default ∅ (data_dir (register_user name frames now s).2) !! f).
Proof.
  intros Hf.
  destruct (Nat.lt_ge_cases (length (List.filter has_face frames)) 10) as [Hlt|Hge].
  - rewrite register_user_short by done. simpl.
    by destruct (data_dir s) eqn:Hd; simpl; rewrite ?Hd.
  - destruct (register_user_replaces name frames now s Hge) as [_ Hdir].
    rewrite Hdir. simpl. destruct (decide (f = name +:+ ".pkl")) as [->|Hne].
    + rewrite lookup_insert_eq. eauto.
    + by rewrite lookup_insert_ne.
Qed.

Lemma enroll_all_keeps es : ∀ s f,
  is_Some (default ∅ (data_dir s) !! f) →
  is_Some (default ∅ (data_dir (enroll_all es s)) !! f).
Proof.
  unfold enroll_all. induction es as [|e es IH]; intros s f Hf; [done|].
  simpl. apply IH. by apply register_user_keeps.
Qed.

Lemma enroll_all_plain es : ∀ s,
  plain_names s → Forall (λ e, occurs ".pkl" e.1.1 = false) es →
  plain_names (enroll_all es s).
Proof.
  unfold enroll_all. induction es as [|e es IH]; intros s Hplain Hes; [done|].
  apply Forall_cons in Hes as [He Hes]. simpl. apply IH; [|done].
  by apply register_user_plain.
Qed.

Lemma enroll_all_app es1 es2 s :
  enroll_all (es1 ++ es2) s = enroll_all es2 (enroll_all es1 s).
Proof. unfold enroll_all. by rewrite foldl_app. Qed.

(** X7. after any sequence of enrolments under names that are file names
    without [.pkl] in them, the list of enrolled names has no duplicate,
    still holds every name it held before, and holds the name of every
    enrolment of the sequence that had 10 frames or more with a face. *)
Theorem enrolments_listed es s :
  plain_names s →
  Forall (λ e, occurs ".pkl" e.1.1 = false) es →
  Forall (λ e, file_name_ok e.1.1 = true) es →
  let s' := enroll_all es s in
  NoDup (get_all_users s') ∧
  (∀ name, occurs ".pkl" name = false →
     name ∈ get_all_users s → name ∈ get_all_users s') ∧
  (∀ e, e ∈ es → (10 ≤ length (List.filter has_face e.1.2))%nat →
     e.1.1 ∈ get_all_users s').
Proof.
  intros Hplain Hes _ s'.
  assert (plain_names s') as Hplain' by by apply enroll_all_plain.
  split; [by apply get_all_users_NoDup|]. split.
  - intros name Hname Hin. apply get_all_users_elem; [done..|].
    apply enroll_all_keeps. by apply get_all_users_elem in Hin.
  - intros e He Hge.
    assert (occurs ".pkl" e.1.1 = false) as Hname.
    { rewrite Forall_forall in Hes. by apply Hes. }
    apply get_all_users_elem; [done..|].
    apply list_elem_of_split in He as (es1 & es2 & ->).
    subst s'. rewrite enroll_all_app. unfold enroll_all at 1. simpl.
    fold (enroll_all es2 (register_user e.1.1 e.1.2 e.2 (enroll_all es1 s)).2).
    apply enroll_all_keeps.
    destruct (register_user_replaces e.1.1 e.1.2 e.2 (enroll_all es1 s) Hge)
      as [_ Hdir].
    rewrite Hdir. simpl. rewrite lookup_insert_eq. eauto.
Qed.

End face_more.

(** * The page "Mark Attendance" *)

Section app_properties.
Context `{CV : Face.OpenCV} `{TX : !Face.Texture} `{DR : !App.Drawing}.
Import Face App.

(** X8. The liveness check and the classifier of the page see the frame
    after the page has drawn on it: the captured frame when no face is
    detected in it, the frame with the outline of the detected face
    otherwise.  The page offers the punch buttons only when that frame
    passes the liveness check (variance above 100), on a trained model,
    when a face is detected in it and the classifier predicts, at a
    distance below 70, a label that the label map resolves to a name other
    than the empty name and "Unknown".  When that frame fails the liveness
    check the page shows the warning, and the classifier is not called. *)
Theorem mark_attendance_gate frame s :
  let drawn := annotate frame in
  (detect_face frame = None → drawn = frame) ∧
  (∀ face rect, detect_face frame = Some (face, rect) →
     drawn = rectangle frame rect) ∧
  (∀ name c, (mark_attendance frame s).1 = PunchButtons name c →
     (100 < laplacian_variance drawn)%Q ∧ trained s = true ∧
     name ≠ "" ∧ name ≠ "Unknown" ∧
     ∃ face rect label,
       detect_face drawn = Some (face, rect) ∧
       lbph_predict (recognizer s) face = (label, c) ∧
       (c < 70)%Q ∧ users s !! label = Some name) ∧
  ((laplacian_variance drawn <= 100)%Q →
     mark_attendance frame s
     = (LivenessWarning (laplacian_variance drawn), [CallDetect frame])).
Proof.
  intros drawn. split; [|split].
  { intros Hnone. subst drawn. unfold annotate. by rewrite Hnone. }
  { intros face rect Hd. subst drawn. unfold annotate. by rewrite Hd. }
  unfold mark_attendance, anti_spoof_check. cbn zeta. fold drawn.
  clearbody drawn.
  destruct (Qlt_le_dec 100 (laplacian_variance drawn)) as [Hlive|Hflat]; simpl.
  2:{ split; [done|]. done. }
  split.
  2:{ intros Hle. exfalso. eapply Qlt_irrefl, Qlt_le_trans; eauto. }
  intros name c. unfold recognize.
  destruct (trained s); simpl; [|done].
  destruct (detect_face drawn) as [[face rect]|]; simpl; [|done].
  destruct (lbph_predict (recognizer s) face) as [label conf] eqn:Hp.
  destruct (Qlt_le_dec conf 70) as [Hlt|Hge]; simpl; [|done].
  destruct (users s !! label) as [n|] eqn:Hn; simpl; [|done].
  destruct (String.eqb_spec n "") as [->|Hne]; simpl; [done|].
  destruct (String.eqb_spec n "Unknown") as [->|Hunk]; simpl; [done|].
  intros [= <- <-]. split; [done|]. split; [done|]. split; [done|].
  split; [done|]. by exists face, rect, label.
Qed.

End app_properties.

(** * Further properties of attendance.py *)

Section json_more.
Import Json.

Lemma day_list_punch_other name ty now records name' d' :
  (name', d') ≠ (name, date_of now) →
  day_list name' d' (punch name ty now records).2 = day_list name' d' records.
Proof.
  intros Hne.
  destruct (punch_cases name ty now records) as [(l & _ & _ & ->)| ->]; [done|].
  cbn [snd]. unfold day_list.
  destruct (decide (name' = name)) as [->|Hn].
  - rewrite lookup_insert_eq. simpl.
    rewrite lookup_insert_ne by congruence. done.
  - by rewrite lookup_insert_ne.
Qed.

(** X9. the state machine of the flat-file [punch].  A punch is accepted
    exactly when the day of the user has no event yet or its last event has
    another type; an accepted punch appends its record, with the time of
    the call, at the end of the list of that user and day; a rejected punch
    names the time of the last event and changes nothing; and no punch
    touches the list of another user or another day. *)
Theorem json_punch_outcome name ty now records :
  let r := punch name ty now records in
  let today := day_list name (date_of now) records in
  (r.1.1 = true ↔ ∀ l, last today = Some l → r_type l ≠ ty) ∧
  (r.1.1 = true →
     r.1.2 = "Punched " +:+ punch_type_str ty +:+ " successfully at " +:+
             strftime_HMS (second_of now) ∧
     day_list name (date_of now) r.2 = today ++ [new_record ty now]) ∧
  (r.1.1 = false →
     r.2 = records ∧
     ∃ l, last today = Some l ∧ r_type l = ty ∧
          r.1.2 = "Already punched " +:+ punch_type_str ty +:+ " at " +:+ r_time l) ∧
  (∀ name' d', (name', d') ≠ (name, date_of now) →
     day_list name' d' r.2 = day_list name' d' records).
Proof.
  intros r today. subst r today.
  split; [|split; [|split]]; [| | |intros; by apply day_list_punch_other].
  - destruct (punch_cases name ty now records) as [(l & Hl & Hty & ->)| Hacc].
    + simpl. split; [done|]. intros H. by specialize (H l Hl).
    + rewrite Hacc. simpl. split; [|done]. intros _ l Hl Hty.
      rewrite (punch_reject _ _ _ _ l Hl Hty) in Hacc. done.
  - destruct (punch_cases name ty now records) as [(l & Hl & Hty & ->)| ->];
      [done|]. intros _. simpl. split; [done|].
    unfold day_list at 1. rewrite lookup_insert_eq. simpl.
    by rewrite lookup_insert_eq.
  - destruct (punch_cases name ty now records) as [(l & Hl & Hty & ->)| ->];
      [|done]. intros _. simpl. split; [done|]. by exists l.
Qed.

(** X10. the flat-file ledger has no time window: once a punch is accepted,
    every later punch of the same type for the same user on the same date is
    rejected, however long after, until a punch of another type is stored. *)
Theorem json_repeat_rejected name ty t1 t2 records :
  (punch name ty t1 records).1.1 = true →
  date_of t2 = date_of t1 →
  punch name ty t2 (punch name ty t1 records).2
  = ((false, "Already punched " +:+ punch_type_str ty +:+ " at " +:+
             strftime_HMS (second_of t1)), (punch name ty t1 records).2).
Proof.
  intros Hacc Hdate.
  destruct (punch name ty t1 records) as [[ok msg] records1] eqn:Hp.
  simpl in Hacc. subst ok. by eapply punch_repeat_rejected.
Qed.

Lemma upper_not_punched s t : "Punched " +:+ s +:+ t ≠ "Not punched in".
Proof. done. Qed.

(** X11. [get_today_status] is "Not punched in" exactly when the user has no
    event stored for the date of [now]; otherwise it names the type, in
    capitals, and the time of the last event of that date.  Right after a
    call of [punch], accepted or not, the status of that date names the
    type that was punched, with the time of the call when it was accepted. *)
Theorem json_today_status name now records :
  (get_today_status name now records = "Not punched in" ↔
   day_list name (date_of now) records = []) ∧
  (∀ l, last (day_list name (date_of now) records) = Some l →
     get_today_status name now records
     = "Punched " +:+ upper (punch_type_str (r_type l)) +:+ " at " +:+ r_time l) ∧
  (∀ ty t, date_of t = date_of now →
     ∃ time,
       get_today_status name now (punch name ty t records).2
       = "Punched " +:+ upper (punch_type_str ty) +:+ " at " +:+ time ∧
       ((punch name ty t records).1.1 = true → time = strftime_HMS (second_of t))).
Proof.
  assert (∀ recs l, last (day_list name (date_of now) recs) = Some l →
     get_today_status name now recs
     = "Punched " +:+ upper (punch_type_str (r_type l)) +:+ " at " +:+ r_time l)
    as Hlast.
  { intros recs l. unfold day_list, get_today_status.
    destruct (recs !! name) as [bd|]; simpl; [|by rewrite lookup_empty].
    destruct (bd !! date_of now) as [today|]; simpl; [|done].
    by intros ->. }
  split; [|split; [apply Hlast|]].
  - destruct (last (day_list name (date_of now) records)) as [l|] eqn:Hl.
    + rewrite (Hlast _ l Hl). split; [by intros ?%upper_not_punched|].
      intros Hnil. by rewrite Hnil in Hl.
    + apply last_None in Hl. split; [done|]. intros _.
      unfold day_list, get_today_status in *.
      destruct (records !! name) as [bd|]; simpl in *; [|done].
      destruct (bd !! date_of now) as [today|]; simpl in *; [|done].
      by subst today.
  - intros ty t Hdate.
    destruct (punch_cases name ty t records) as [(l & Hl & Hty & ->)| ->]; simpl.
    + exists (r_time l). split; [|done]. rewrite <- Hdate in Hlast.
      rewrite Hdate in Hl. rewrite <- Hty. apply Hlast. by rewrite Hdate.
    + exists (strftime_HMS (second_of t)). split; [|done].
      apply (Hlast _ (new_record ty t)).
      unfold day_list. rewrite lookup_insert_eq. simpl.
      rewrite <- Hdate, lookup_insert_eq. simpl. apply last_snoc.
Qed.

(** X12. [all_dates[:days]] with a negative [days] drops the [-days] oldest
    dates: the history then holds the remaining dates, newest first, each
    with its stored list, and every date left out is older than every date
    returned. *)
Theorem json_history_negative_days name days records :
  days < 0 →
  let by_date := default ∅ (records !! name) in
  let h := get_user_history name days records in
  StronglySorted (λ a b, b < a) h.*1 ∧
  (∀ d l, (d, l) ∈ h → by_date !! d = Some l) ∧
  length h = Z.to_nat (Z.of_nat (size by_date) + days) ∧
  (∀ d d', d ∈ h.*1 → is_Some (by_date !! d') → d' ∉ h.*1 → d' < d).
Proof.
  intros Hdays by_date h. subst h by_date. unfold get_user_history.
  destruct (records !! name) as [bd|] eqn:Hname; simpl.
  2:{ split; [constructor|]. split; [by intros d l ?%not_elem_of_nil|].
      split; [rewrite map_size_empty; simpl; lia|].
      by intros d d' ?%not_elem_of_nil. }
  set (keys := (map_to_list bd).*1).
  assert (NoDup keys) as Hnd by apply NoDup_fst_map_to_list.
  pose proof (sorted_desc_sorted keys Hnd) as Hs.
  pose proof (sorted_desc_perm keys) as Hperm.
  set (all_dates := sorted_desc keys) in *.
  assert (length all_dates = size bd) as Hlen.
  { rewrite (Permutation_length Hperm). subst keys.
    by rewrite length_fmap, length_map_to_list. }
  assert (∀ d, d ∈ all_dates ↔ is_Some (bd !! d)) as Hkeys.
  { intros d. rewrite Hperm. subst keys. rewrite list_elem_of_fmap. split.
    - intros ([d' l] & -> & Hin). apply elem_of_map_to_list in Hin. by exists l.
    - intros [l Hl]. exists (d, l). split; [done|]. by apply elem_of_map_to_list. }
  unfold py_take.
  replace (0 <=? days) with false by (symmetry; apply Z.leb_gt; lia).
  rewrite Hlen. set (n := Z.to_nat (Z.of_nat (size bd) + days)).
  rewrite lookup_dates.
  2:{ intros d Hd. apply Hkeys. by eapply take_elem_of. }
  rewrite <- list_fmap_compose.
  assert ((fst ∘ (λ d, (d, default [] (bd !! d)))) <$> take n all_dates
          = take n all_dates) as ->.
  { rewrite <- (list_fmap_id (take n all_dates)) at 2. by apply list_fmap_ext. }
  rewrite <- (take_drop n all_dates) in Hs.
  split; [by apply StronglySorted_app_1_l in Hs|]. split; [|split].
  - intros d l Hin. apply list_elem_of_fmap in Hin as (d' & [= -> ->] & Hd').
    apply take_elem_of in Hd'. apply Hkeys in Hd' as [l Hl].
    by rewrite Hl.
  - rewrite length_fmap, length_take, Hlen. lia.
  - intros d d' Hd Hd' Hnot. apply Hkeys in Hd'.
    rewrite <- (take_drop n all_dates) in Hd'.
    apply elem_of_app in Hd' as [Hd'|Hd']; [done|].
    by apply (StronglySorted_app_1_elem_of _ _ _ _ _ Hs Hd Hd').
Qed.

(** X13. a punch shows in the history.  When a punch is accepted on a date
    that no stored date of the user is later than, the history of the user
    for any [days] of 1 or more starts with that date, and the list of that
    date ends with the record of the punch. *)
Theorem json_history_after_punch name ty now days records :
  records_ok records →
  (punch name ty now records).1.1 = true →
  (∀ d, is_Some (default ∅ (records !! name) !! d) → d ≤ date_of now) →
  1 ≤ days →
  head (get_user_history name days (punch name ty now records).2)
  = Some (date_of now,
          day_list name (date_of now) records ++ [new_record ty now]).
Proof.
  intros Hok Hacc Hnewest Hdays.
  pose proof (records_ok_punch name ty now records Hok) as Hok'.
  destruct (punch_cases name ty now records) as [(l & _ & _ & Hr)|Hr];
    rewrite Hr in Hacc, Hok' |- *; [done|]. cbn [snd] in *. clear Hacc Hr.
  set (today := day_list name (date_of now) records ++ [new_record ty now]).
  set (recs' := <[name := _]> records) in *.
  assert (0 ≤ days) as Hdays0 by lia.
  destruct (json_history_spec name days recs' Hok' Hdays0)
    as (Hsorted & Hin & Hlen & Hrecent).
  assert (default ∅ (recs' !! name)
          = <[date_of now := today]> (default ∅ (records !! name))) as Hbd.
  { subst recs'. by rewrite lookup_insert_eq. }
  rewrite Hbd in Hin, Hlen, Hrecent.
  set (h := get_user_history name days recs') in *.
  destruct h as [|[d0 l0] rest] eqn:Hh.
  { exfalso. simpl in Hlen.
    assert (size (<[date_of now := today]> (default ∅ (records !! name))) ≠ 0%nat).
    { apply (map_size_ne_0_lookup_2 _ (date_of now)).
      rewrite lookup_insert_eq. eauto. }
    lia. }
  simpl. f_equal.
  assert ((d0, l0) ∈ (d0, l0) :: rest) as Hhd by apply list_elem_of_here.
  destruct (Hin d0 l0 Hhd) as [Hl0 _].
  assert (d0 ≤ date_of now) as Hle.
  { destruct (decide (d0 = date_of now)) as [->|Hne]; [lia|].
    rewrite lookup_insert_ne in Hl0 by done. apply Hnewest. eauto. }
  assert (d0 = date_of now) as ->.
  { destruct (decide (date_of now ∈ ((d0, l0) :: rest).*1)) as [Hmem|Hnot].
    - rewrite fmap_cons in Hmem, Hsorted. simpl in *.
      apply elem_of_cons in Hmem as [->|Hmem]; [done|].
      apply StronglySorted_inv in Hsorted as [_ Hall].
      rewrite Forall_forall in Hall. specialize (Hall _ Hmem). lia.
    - assert (date_of now < d0); [|lia].
      apply Hrecent; [rewrite fmap_cons; apply list_elem_of_here| |done].
      rewrite lookup_insert_eq. eauto. }
  rewrite lookup_insert_eq in Hl0. by injection Hl0 as <-.
Qed.

End json_more.

(** * Further properties of database.py *)

Section sqlite_more.
Context `{E : Sqlite.SqlEngine}.
Import Sqlite.

Lemma find_snoc_other (us : list user_row) name other id :
  other ≠ name →
  List.find (λ u, String.eqb (u_name u) other)
    (us ++ [{| u_id := id; u_name := name |}])
  = List.find (λ u, String.eqb (u_name u) other) us.
Proof.
  intros Hne. induction us as [|u us IH]; simpl.
  - destruct (String.eqb_spec name other) as [Heq|_]; [congruence|done].
  - by destruct (String.eqb (u_name u) other).
Qed.

Lemma get_user_id_with_user_other name other db :
  other ≠ name → get_user_id other (with_user name db) = get_user_id other db.
Proof.
  intros Hne. unfold get_user_id, with_user, set_users. cbn [users].
  by rewrite find_snoc_other.
Qed.

Lemma refs_ok_range db r :
  db_ok db → refs_ok db → r ∈ attendance db → 0 < a_user_id r ≤ users_seq db.
Proof.
  intros Hok Hrefs Hr. destruct (Hrefs r Hr) as (u & Hu & <-).
  by apply (ok_id_range db Hok).
Qed.

Lemma refs_ok_with_user name db : refs_ok db → refs_ok (with_user name db).
Proof.
  intros Hrefs r Hr. destruct (Hrefs r Hr) as (u & Hu & Hid).
  exists u. split; [|done]. unfold with_user, set_users. cbn [users].
  apply elem_of_app. by left.
Qed.

Lemma refs_ok_insert uid ty time date db :
  refs_ok db → (∃ u, u ∈ users db ∧ u_id u = uid) →
  refs_ok (insert_attendance uid ty time date db).
Proof.
  intros Hrefs Hu r Hr. unfold insert_attendance, set_attendance in Hr.
  cbn [attendance] in Hr. cbn [insert_attendance set_attendance users].
  apply elem_of_app in Hr as [Hr|Hr]; [by apply Hrefs|].
  apply list_elem_of_singleton in Hr as ->. done.
Qed.

Lemma refs_ok_purge uid db : refs_ok db → refs_ok (purge uid db).
Proof.
  intros Hrefs r Hr. rewrite purge_attendance in Hr.
  apply filter_elem_of in Hr as [Hr Hne].
  destruct (Hrefs r Hr) as (u & Hu & Hid). exists u. split; [|done].
  rewrite purge_users. apply filter_elem_of. split; [done|]. by rewrite Hid.
Qed.

(** the two ways [punch] reaches its body: with the id of the row of the
    name, or with the id of the row it has just inserted *)
Lemma punch_inv name ty now db :
  db_ok db →
  ∃ uid db0,
    db_ok db0 ∧ attendance db0 = attendance db ∧
    attendance_seq db0 = attendance_seq db ∧
    get_user_id name db0 = Some uid ∧
    (∀ other, other ≠ name → get_user_id other db0 = get_user_id other db) ∧
    (refs_ok db → refs_ok db0) ∧
    punch name ty now db = punch_known uid ty now db0.
Proof.
  intros Hok. destruct (get_user_id name db) as [uid|] eqn:Hid.
  - exists uid, db. split_and!; try done. by apply punch_existing.
  - exists (users_seq db + 1), (with_user name db). split_and!; try done.
    + by apply db_ok_add_user.
    + by apply get_user_id_with_user.
    + intros other Hne. by apply get_user_id_with_user_other.
    + apply refs_ok_with_user.
    + by apply punch_new.
Qed.

Lemma punch_known_outcome uid ty now db :
  punch_known uid ty now db
  = (Returned true ("Punched " +:+ punch_type_str ty +:+ " successfully at "
                    +:+ strftime_HMS (second_of now)),
     insert_attendance uid ty (second_of now) (date_of now) db) ∨
  ∃ l, head (order_by by_time_desc (rows_of_day uid (date_of now) db)) = Some l ∧
       a_type l = ty ∧
       timedelta_seconds now (a_time l * us_per_second) < 300 ∧
       punch_known uid ty now db
       = (Returned false ("Already punched " +:+ punch_type_str ty +:+ " at "
                          +:+ strftime_HMS (a_time l)), db).
Proof.
  unfold punch_known.
  destruct (head _) as [l|] eqn:Hhead; [|by left].
  unfold punch_type_eqb. case_bool_decide as Hty; [|by left].
  destruct (Z.ltb_spec (timedelta_seconds now (a_time l * us_per_second)) 300)
    as [Hlt|Hge]; [|by left].
  right. exists l. subst ty. done.
Qed.

Lemma head_order_by_unique rows l :
  l ∈ rows → (∀ r, r ∈ rows → a_time r < a_time l ∨ r = l) →
  head (order_by by_time_desc rows) = Some l.
Proof.
  intros Hl Hmax. pose proof (head_order_by_time rows) as Hhead.
  destruct (head _) as [l'|].
  - destruct Hhead as [Hin Hle]. destruct (Hmax l' Hin) as [Hlt| ->]; [|done].
    specialize (Hle l Hl). lia.
  - subst rows. by apply not_elem_of_nil in Hl.
Qed.

Lemma order_by_nil leb : order_by leb [] = [].
Proof. apply Permutation_nil_r. apply order_by_perm. Qed.

(** X14. [add_user] on tables that satisfy the schema.  A name that has a row
    is refused and the tables stay as they are.  A name without a row is
    inserted with the next value of the counter, an id greater than every
    id in the table; the other names keep their ids and no attendance row
    changes. *)
Theorem add_user_outcome name db :
  db_ok db →
  (is_Some (get_user_id name db) →
     add_user name db = ((false, "User " +:+ name +:+ " already exists"), db)) ∧
  (get_user_id name db = None →
     (add_user name db).1 = (true, "User " +:+ name +:+ " added successfully") ∧
     get_user_id name (add_user name db).2 = Some (users_seq db + 1) ∧
     (∀ u, u ∈ users db → u_id u < users_seq db + 1) ∧
     (∀ other, other ≠ name →
        get_user_id other (add_user name db).2 = get_user_id other db) ∧
     attendance (add_user name db).2 = attendance db ∧
     db_ok (add_user name db).2).
Proof.
  intros Hok. split.
  - intros [uid Hid]. by eapply add_user_taken.
  - intros Hid. rewrite add_user_fresh by done. cbn [fst snd].
    split; [done|]. split; [by apply get_user_id_with_user|]. split.
    { intros u Hu. pose proof (ok_id_range db Hok u Hu). lia. }
    split; [intros other Hne; by apply get_user_id_with_user_other|].
    split; [done|]. by apply db_ok_add_user.
Qed.

Lemma refs_ok_punch name ty now db :
  db_ok db → refs_ok db → refs_ok (punch name ty now db).2.
Proof.
  intros Hok Hrefs.
  destruct (punch_inv name ty now db Hok)
    as (uid & db0 & Hok0 & _ & _ & Hid0 & _ & Hrefs0 & ->).
  destruct (punch_known_outcome uid ty now db0) as [->|(l & _ & _ & _ & ->)];
    cbn [snd]; [|by apply Hrefs0].
  apply refs_ok_insert; [by apply Hrefs0|].
  apply get_user_id_Some in Hid0 as (u & Hu & _ & Hid0). by exists u.
Qed.

(** X15. the three methods that write keep the tables within the schema,
    foreign key included: starting from tables in which names and ids are
    unique and every attendance row belongs to a user row, [add_user],
    [punch] and [delete_user] (whatever the storage layer does) leave such
    tables. *)
Theorem writes_keep_schema name ty now disk db :
  db_ok db → refs_ok db →
  (db_ok (add_user name db).2 ∧ refs_ok (add_user name db).2) ∧
  (db_ok (punch name ty now db).2 ∧ refs_ok (punch name ty now db).2) ∧
  (db_ok (delete_user disk name db).2 ∧ refs_ok (delete_user disk name db).2).
Proof.
  intros Hok Hrefs. split; [|split].
  - destruct (get_user_id name db) as [uid|] eqn:Hid.
    + by rewrite (add_user_taken _ _ _ Hid).
    + rewrite add_user_fresh by done. cbn [snd].
      split; [by apply db_ok_add_user|]. by apply refs_ok_with_user.
  - split; [by apply db_ok_punch|by apply refs_ok_punch].
  - destruct (get_user_id name db) as [uid|] eqn:Hid.
    + destruct (delete_user_cases disk name db uid Hok Hid)
        as [[_ ->]|[_ [m ->]]]; cbn [snd]; [|done].
      split; [by apply db_ok_purge|by apply refs_ok_purge].
    + by rewrite delete_user_not_found.
Qed.

(** X16. the two outcomes of [punch] on tables that satisfy the schema, for
    a punch type the CHECK constraint admits and a storage layer that
    raises no error (the method has no [try]: an error of sqlite3 would
    leave it as an exception, which is not followed here).  Afterwards the
    name has a user row and the other names have the ids they had.  Either
    [punch] reports success and the attendance table has grown by exactly
    the row of this event, or it reports the time of a stored row and
    changes no attendance row: that row is of this user, date and punch
    type, lies less than 300 seconds back on the clock, and no row of the
    user that day is later. *)
Theorem sqlite_punch_outcome name ty now db :
  db_ok db →
  ∃ uid,
    get_user_id name (punch name ty now db).2 = Some uid ∧
    (∀ other, other ≠ name →
       get_user_id other (punch name ty now db).2 = get_user_id other db) ∧
    (((punch name ty now db).1
      = Returned true ("Punched " +:+ punch_type_str ty +:+ " successfully at "
                       +:+ strftime_HMS (second_of now)) ∧
      attendance (punch name ty now db).2
      = attendance db ++ [punch_row uid ty now db]) ∨
     (∃ l,
        (punch name ty now db).1
        = Returned false ("Already punched " +:+ punch_type_str ty +:+ " at "
                          +:+ strftime_HMS (a_time l)) ∧
        attendance (punch name ty now db).2 = attendance db ∧
        l ∈ attendance db ∧ a_user_id l = uid ∧ a_date l = date_of now ∧
        a_type l = ty ∧
        timedelta_seconds now (a_time l * us_per_second) < 300 ∧
        (∀ r, r ∈ attendance db → a_user_id r = uid → a_date r = date_of now →
              a_time r ≤ a_time l))).
Proof.
  intros Hok.
  destruct (punch_inv name ty now db Hok)
    as (uid & db0 & Hok0 & Hatt & Hseq & Hid0 & Hother & _ & ->).
  exists uid.
  destruct (punch_known_outcome uid ty now db0)
    as [->|(l & Hhead & Hty & Hlt & ->)]; cbn [fst snd].
  - split; [done|]. split; [done|]. left. split; [done|].
    unfold insert_attendance, set_attendance, punch_row. cbn [attendance].
    by rewrite Hatt, Hseq.
  - split; [done|]. split; [done|]. right. exists l.
    pose proof (head_order_by_time (rows_of_day uid (date_of now) db0)) as Hmax.
    rewrite Hhead in Hmax. destruct Hmax as [Hin Hmax].
    apply rows_of_day_elem in Hin as (Hin & Hu & Hd). rewrite Hatt in Hin.
    split_and!; try done.
    intros r Hr Hru Hrd. apply Hmax. apply rows_of_day_elem.
    by rewrite Hatt.
Qed.

(** X17. the check of [punch] looks at one row only, the latest of the user
    that day.  When that row has another punch type, or lies 300 seconds or
    more back on the clock, the event is stored, whatever the earlier rows
    are: neither an earlier row of the same type within the window nor the
    order of 'in' and 'out' is looked at. *)
Theorem punch_checks_latest_only name ty now db uid l :
  db_ok db → get_user_id name db = Some uid →
  l ∈ rows_of_day uid (date_of now) db →
  (∀ r, r ∈ rows_of_day uid (date_of now) db → a_time r < a_time l ∨ r = l) →
  a_type l ≠ ty ∨ 300 ≤ timedelta_seconds now (a_time l * us_per_second) →
  punch name ty now db
  = (Returned true ("Punched " +:+ punch_type_str ty +:+ " successfully at "
                    +:+ strftime_HMS (second_of now)),
     insert_attendance uid ty (second_of now) (date_of now) db).
Proof.
  intros Hok Hid Hl Hmax Hcheck. rewrite (punch_existing _ _ _ _ _ Hok Hid).
  apply punch_known_insert. intros l' Hhead Hty.
  rewrite (head_order_by_unique _ l Hl Hmax) in Hhead. simplify_eq.
  by destruct Hcheck.
Qed.

Lemma punch_unknown name ty now db :
  db_ok db → refs_ok db → get_user_id name db = None →
  punch name ty now db
  = (Returned true ("Punched " +:+ punch_type_str ty +:+ " successfully at "
                    +:+ strftime_HMS (second_of now)),
     insert_attendance (users_seq db + 1) ty (second_of now) (date_of now)
       (with_user name db)).
Proof.
  intros Hok Hrefs Hid. rewrite (punch_new _ _ _ _ Hok Hid).
  apply punch_known_insert. intros l Hhead _. exfalso.
  assert (rows_of_day (users_seq db + 1) (date_of now) (with_user name db) = [])
    as Hnil.
  { apply filter_nil_iff. intros r Hr. cbn [with_user set_users attendance] in Hr.
    pose proof (refs_ok_range db r Hok Hrefs Hr).
    apply andb_false_iff. left. apply Z.eqb_neq. lia. }
  by rewrite Hnil, order_by_nil in Hhead.
Qed.

(** X18. [punch] registers a name it does not know.  On tables within the
    schema, a name without a user row gets a row with the next value of the
    counter, and its event is stored whatever its type and time: there is
    no row to compare it with.  The new row is the only row of the new
    id. *)
Theorem punch_registers_unknown name ty now db :
  db_ok db → refs_ok db → get_user_id name db = None →
  punch name ty now db
  = (Returned true ("Punched " +:+ punch_type_str ty +:+ " successfully at "
                    +:+ strftime_HMS (second_of now)),
     insert_attendance (users_seq db + 1) ty (second_of now) (date_of now)
       (with_user name db)) ∧
  get_user_id name (punch name ty now db).2 = Some (users_seq db + 1) ∧
  rows_of_day (users_seq db + 1) (date_of now) (punch name ty now db).2
  = [punch_row (users_seq db + 1) ty now db].
Proof.
  intros Hok Hrefs Hid. rewrite (punch_unknown _ _ _ _ Hok Hrefs Hid).
  split; [done|]. cbn [snd]. split.
  { change (get_user_id name (with_user name db) = Some (users_seq db + 1)).
    by apply get_user_id_with_user. }
  rewrite rows_of_day_insert.
  replace (rows_of_day _ _ (with_user name db)) with (@nil att_row); [done|].
  symmetry. apply filter_nil_iff. intros r Hr.
  cbn [with_user set_users attendance] in Hr.
  pose proof (refs_ok_range db r Hok Hrefs Hr).
  apply andb_false_iff. left. apply Z.eqb_neq. lia.
Qed.

(** X19. [get_today_status] of the SQLite ledger.  A name without a user row
    is "Not registered"; a user without a row of today is "Not punched in";
    otherwise the status names the punch type, in capitals, and the time of
    a row of the user of today that no other row of today is later than. *)
Theorem sqlite_today_status name now db :
  db_ok db →
  (get_user_id name db = None →
     get_today_status name now db = "Not registered") ∧
  (∀ uid, get_user_id name db = Some uid →
     (rows_of_day uid (date_of now) db = [] →
        get_today_status name now db = "Not punched in") ∧
     (rows_of_day uid (date_of now) db ≠ [] →
        ∃ l, l ∈ rows_of_day uid (date_of now) db ∧
             (∀ r, r ∈ rows_of_day uid (date_of now) db → a_time r ≤ a_time l) ∧
             get_today_status name now db
             = "Punched " +:+ upper (punch_type_str (a_type l)) +:+ " at " +:+
               strftime_HMS (a_time l))).
Proof.
  intros Hok. split.
  - intros Hid. unfold get_today_status. by rewrite Hid.
  - intros uid Hid. pose proof (get_user_id_pos _ _ _ Hok Hid) as Hpos.
    unfold get_today_status. rewrite Hid.
    replace (uid =? 0) with false by (symmetry; apply Z.eqb_neq; lia).
    pose proof (head_order_by_time (rows_of_day uid (date_of now) db)) as Hhead.
    split.
    + intros Hnil. by rewrite Hnil, order_by_nil.
    + intros Hne. destruct (head _) as [l|]; [|done].
      destruct Hhead as [Hin Hmax]. by exists l.
Qed.

(** X20. the status after a punch.  When every stored row is older than the
    clock, the status of the name, asked later the same day, shows the
    punch type that was just sent, whether the event was stored or
    refused: with the time of the event when it was stored, with the time
    the refusal reports otherwise. *)
Theorem sqlite_status_after_punch name ty now later db :
  db_ok db →
  (∀ r, r ∈ attendance db → a_time r < second_of now) →
  date_of later = date_of now →
  ∃ t,
    get_today_status name later (punch name ty now db).2
    = "Punched " +:+ upper (punch_type_str ty) +:+ " at " +:+ strftime_HMS t ∧
    ((punch name ty now db).1
     = Returned true ("Punched " +:+ punch_type_str ty +:+ " successfully at "
                      +:+ strftime_HMS (second_of now)) ∧ t = second_of now ∨
     (punch name ty now db).1
     = Returned false ("Already punched " +:+ punch_type_str ty +:+ " at "
                       +:+ strftime_HMS t)).
Proof.
  intros Hok Hold Hday.
  destruct (punch_inv name ty now db Hok)
    as (uid & db0 & Hok0 & Hatt & Hseq & Hid0 & _ & _ & ->).
  pose proof (get_user_id_pos _ _ _ Hok0 Hid0) as Hpos.
  destruct (punch_known_outcome uid ty now db0)
    as [->|(l & Hhead & Hty & Hlt & ->)]; cbn [fst snd].
  - exists (second_of now). split; [|by left].
    unfold get_today_status.
    replace (get_user_id name (insert_attendance uid ty (second_of now)
                                 (date_of now) db0))
      with (Some uid) by (by rewrite <- Hid0).
    replace (uid =? 0) with false by (symmetry; apply Z.eqb_neq; lia).
    rewrite Hday, rows_of_day_insert, head_order_by_latest; [done|].
    intros r Hr. cbn [a_time]. apply Hold.
    apply rows_of_day_elem in Hr as (Hr & _). by rewrite <- Hatt.
  - exists (a_time l). split; [|by right].
    unfold get_today_status. rewrite Hid0.
    replace (uid =? 0) with false by (symmetry; apply Z.eqb_neq; lia).
    by rewrite Hday, Hhead, Hty.
Qed.

(** X21. a stored event is in the history.  After [punch] reports success,
    [get_user_history] of the name has an entry for the date of the event
    that contains it, for every window that reaches back to that date and
    starts in a four-digit year, the dates of the clock and of the stored
    rows being of four-digit years too. *)
Theorem sqlite_history_after_punch name ty now later days db db1 msg :
  db_ok db →
  punch name ty now db = (Returned true msg, db1) →
  four_digit_year (date_of now) →
  four_digit_year (date_of later) →
  four_digit_year (date_of (minus_days later days)) →
  rows_in_calendar db →
  date_of (minus_days later days) ≤ date_of now →
  ∃ l, (date_of now, l) ∈ get_user_history name days later db1 ∧
       {| r_type := ty; r_time := strftime_HMS (second_of now) |} ∈ l.
Proof.
  intros Hok Hpunch _ _ _ _ Hstart.
  destruct (punch_success_inv _ _ _ _ _ _ Hok Hpunch)
    as (uid & db0 & Hok0 & Hatt & Hid0 & ->).
  pose proof (get_user_id_pos _ _ _ Hok0 Hid0) as Hpos.
  set (db1 := insert_attendance uid ty (second_of now) (date_of now) db0).
  assert (get_user_id name db1 = Some uid) as Hid1 by (by rewrite <- Hid0).
  destruct (sqlite_history_spec name days later db1 uid Hid1 ltac:(lia))
    as (_ & Hrows & Hdates).
  set (new := {| a_id := attendance_seq db0 + 1; a_user_id := uid; a_type := ty;
                 a_time := second_of now; a_date := date_of now |}).
  assert (new ∈ rows_of_day uid (date_of now) db1) as Hnew.
  { subst db1. rewrite rows_of_day_insert. apply elem_of_app. right.
    by apply list_elem_of_singleton. }
  assert (date_of now ∈ (get_user_history name days later db1).*1) as Hin.
  { apply Hdates; [done|]. intros Hnil. rewrite Hnil in Hnew.
    by apply not_elem_of_nil in Hnew. }
  apply list_elem_of_fmap in Hin as ([d l] & Hd & Hin). cbn [fst] in Hd. subst d.
  exists l. split; [done|].
  apply Hrows in Hin as (_ & _ & rows & -> & Hperm & _).
  apply list_elem_of_fmap. exists new. split; [done|]. by rewrite Hperm.
Qed.

(** X22. ids are not handed out twice.  After [delete_user] has removed a
    user, a punch under the same name starts afresh: the name gets a row
    with a new id, greater than the old one, the event is stored, and the
    only attendance row of the new id is that event. *)
Theorem deleted_user_starts_afresh disk name ty now db uid :
  db_ok db → refs_ok db → get_user_id name db = Some uid → no_fault disk →
  let db1 := (delete_user disk name db).2 in
  (punch name ty now db1).1
  = Returned true ("Punched " +:+ punch_type_str ty +:+ " successfully at "
                   +:+ strftime_HMS (second_of now)) ∧
  get_user_id name (punch name ty now db1).2 = Some (users_seq db + 1) ∧
  uid < users_seq db + 1 ∧
  (∀ r, r ∈ attendance (punch name ty now db1).2 ↔
        (r ∈ attendance db ∧ a_user_id r ≠ uid) ∨
        r = punch_row (users_seq db + 1) ty now db) ∧
  (∀ r, r ∈ attendance (punch name ty now db1).2 →
        a_user_id r = users_seq db + 1 →
        r = punch_row (users_seq db + 1) ty now db).
Proof.
  intros Hok Hrefs Hid Hdisk db1. subst db1.
  destruct (delete_user_cases disk name db uid Hok Hid)
    as [[_ ->]|[Hfault _]]; [|done]. cbn [snd].
  pose proof (db_ok_purge uid db Hok) as Hok1.
  pose proof (refs_ok_purge uid db Hrefs) as Hrefs1.
  pose proof (purge_no_user name db uid Hok Hid) as Hid1.
  rewrite (punch_unknown name ty now _ Hok1 Hrefs1 Hid1). cbn [fst snd].
  assert (users_seq (purge uid db) = users_seq db) as Hseq by done.
  assert (attendance_seq (purge uid db) = attendance_seq db) as Haseq by done.
  rewrite Hseq.
  assert (∀ r,
    r ∈ attendance (insert_attendance (users_seq db + 1) ty (second_of now)
                      (date_of now) (with_user name (purge uid db))) ↔
    (r ∈ attendance db ∧ a_user_id r ≠ uid) ∨
    r = punch_row (users_seq db + 1) ty now db) as Hrows.
  { intros r. unfold insert_attendance, set_attendance. cbn [attendance].
    change (attendance (with_user name (purge uid db)))
      with (attendance (purge uid db)).
    change (attendance_seq (with_user name (purge uid db)))
      with (attendance_seq (purge uid db)).
    rewrite Haseq, elem_of_app, list_elem_of_singleton, purge_attendance.
    rewrite filter_elem_of, negb_true_iff, Z.eqb_neq. done. }
  split; [done|]. split.
  { replace (users_seq db + 1) with (users_seq (purge uid db) + 1) at 2
      by (by rewrite Hseq).
    rewrite <- Hseq.
    change (get_user_id name (with_user name (purge uid db))
            = Some (users_seq (purge uid db) + 1)).
    by apply get_user_id_with_user. }
  split.
  { apply get_user_id_Some in Hid as (u & Hu & _ & <-).
    pose proof (ok_id_range db Hok u Hu). lia. }
  split; [done|].
  intros r Hr Hu. apply Hrows in Hr as [[Hr _]|Hr]; [|done].
  pose proof (refs_ok_range db r Hok Hrefs Hr). lia.
Qed.

End sqlite_more.

Section sqlite_reports.
Context `{J : Sqlite.SqlJoinEngine}.
Import Sqlite.

Lemma get_user_id_is_Some name db :
  is_Some (get_user_id name db) ↔ name ∈ u_name <$> users db.
Proof.
  split.
  - intros [uid (u & Hu & <- & _)%get_user_id_Some].
    apply list_elem_of_fmap. by exists u.
  - intros (u & -> & Hu)%list_elem_of_fmap.
    destruct (get_user_id (u_name u) db) eqn:Hid; [done|].
    rewrite get_user_id_None in Hid. by destruct (Hid u Hu).
Qed.

(** X23. [get_all_users] and [get_user_id] agree.  The list holds the names
    in ascending order of their bytes; a name is in it exactly when
    [get_user_id] finds an id for it; and on tables within the schema no
    name comes twice. *)
Theorem sqlite_all_users db :
  StronglySorted String.le (get_all_users db) ∧
  (∀ n, n ∈ get_all_users db ↔ is_Some (get_user_id n db)) ∧
  (db_ok db → NoDup (get_all_users db) ∧
              length (get_all_users db) = length (users db)).
Proof.
  unfold get_all_users. split; [apply StronglySorted_merge_sort; apply _|].
  split.
  - intros n. by rewrite merge_sort_Permutation, get_user_id_is_Some.
  - intros Hok. rewrite merge_sort_Permutation, length_fmap.
    split; [apply Hok|done].
Qed.

Lemma null_first_total x y : null_first x y || null_first y x.
Proof.
  destruct x as [a|], y as [b|]; simpl; try done.
  apply orb_True. rewrite !Is_true_true, !Z.leb_le. lia.
Qed.

Lemma null_first_trans x y z : null_first x y → null_first y z → null_first x z.
Proof.
  destruct x as [a|], y as [b|], z as [c|]; simpl; try done.
  rewrite !Is_true_true, !Z.leb_le. lia.
Qed.

Lemma by_name_time_total x y : by_name_time x y || by_name_time y x.
Proof.
  unfold by_name_time.
  pose proof (null_first_total (j_att x) (j_att y)) as Hnf.
  destruct (String.leb_total (j_name x) (j_name y)) as [Hxy|Hyx].
  - rewrite Hxy. destruct (String.leb (j_name y) (j_name x)); simpl; [|done].
    apply orb_True in Hnf as [Hnf|Hnf]; apply orb_True; [by left|by right].
  - rewrite Hyx. destruct (String.leb (j_name x) (j_name y)); simpl; [|done].
    apply orb_True in Hnf as [Hnf|Hnf]; apply orb_True; [by left|by right].
Qed.

Lemma by_name_time_trans x y z :
  by_name_time x y → by_name_time y z → by_name_time x z.
Proof.
  unfold by_name_time.
  intros [Hxy Hxy']%andb_True [Hyz Hyz']%andb_True.
  assert (String.le (j_name x) (j_name z)) as Hxz by (by etrans).
  apply andb_True. split; [done|]. apply orb_True.
  destruct (String.leb (j_name z) (j_name x)) eqn:Hzx; [right|by left].
  assert (String.le (j_name z) (j_name x)) as Hzx'
    by (unfold String.le; by rewrite Hzx).
  assert (String.le (j_name y) (j_name x)) as Hyx by (by etrans).
  assert (String.le (j_name z) (j_name y)) as Hzy by (by etrans).
  unfold String.le in Hyx, Hzy.
  apply Is_true_true in Hyx, Hzy. rewrite Hyx in Hxy'. rewrite Hzy in Hyz'.
  simpl in Hxy', Hyz'. by eapply null_first_trans.
Qed.

Lemma by_name_time_same x y :
  j_name x = j_name y → by_name_time x y → null_first (j_att x) (j_att y).
Proof.
  unfold by_name_time. intros -> [Hle Hnf]%andb_True.
  unfold String.le in Hle. apply Is_true_true in Hle. by rewrite Hle in Hnf.
Qed.

Lemma summary_add_keys h n x :
  (summary_add h n x).*1 = if decide (n ∈ h.*1) then h.*1 else h.*1 ++ [n].
Proof.
  induction h as [|[k v] h IH]; cbn [summary_add].
  - rewrite decide_False; [done|apply not_elem_of_nil].
  - rewrite fmap_cons. cbn [fst].
    destruct (String.eqb_spec k n) as [->|Hne].
    + rewrite decide_True; [done|apply list_elem_of_here].
    + rewrite fmap_cons, IH. cbn [fst].
      destruct (decide (n ∈ h.*1)) as [Hin|Hnin].
      * rewrite decide_True; [done|by apply list_elem_of_further].
      * rewrite decide_False; [done|].
        intros [?|?]%elem_of_cons; [congruence|done].
Qed.

Lemma summary_add_elem h n x n' l :
  NoDup h.*1 →
  (n', l) ∈ summary_add h n x ↔
  (n' ≠ n ∧ (n', l) ∈ h) ∨
  (n' = n ∧ ∃ l0, l = l0 ++ option_list x ∧
                  ((n, l0) ∈ h ∨ ((n ∉ h.*1) ∧ l0 = []))).
Proof.
  induction h as [|[k v] h IH]; intros Hnd; cbn [summary_add].
  - rewrite list_elem_of_singleton. split.
    + intros [= -> ->]. right. split; [done|]. exists []. split; [done|].
      right. split; [apply not_elem_of_nil|done].
    + intros [[_ Hin]|(-> & l0 & -> & [Hin|[_ ->]])]; try done;
        by apply not_elem_of_nil in Hin.
  - rewrite fmap_cons in Hnd. cbn [fst] in Hnd.
    apply NoDup_cons in Hnd as [Hk Hnd]. specialize (IH Hnd).
    assert (∀ l', (k, l') ∈ h → False) as Hkh.
    { intros l' Hin. apply Hk. apply list_elem_of_fmap. by exists (k, l'). }
    rewrite fmap_cons. cbn [fst].
    destruct (String.eqb_spec k n) as [->|Hne].
    + rewrite elem_of_cons. split.
      * intros [Heq|Hin].
        -- simplify_eq. right. split; [done|]. exists v.
           split; [done|]. left. by left.
        -- left. split; [|by right]. intros ->. by eapply Hkh.
      * intros [[Hne Hin]|(-> & l0 & -> & [Hin|[Hnin _]])].
        -- apply elem_of_cons in Hin as [Heq|Hin]; [congruence|by right].
        -- apply elem_of_cons in Hin as [Heq|Hin].
           ++ simplify_eq. by left.
           ++ exfalso. by eapply Hkh.
        -- exfalso. apply Hnin. by left.
    + rewrite elem_of_cons, IH. split.
      * intros [Heq|[[Hne' Hin]|(-> & l0 & -> & [Hin|[Hnin ->]])]].
        -- simplify_eq. left. split; [done|by left].
        -- left. split; [done|by right].
        -- right. split; [done|]. exists l0. split; [done|]. left. by right.
        -- right. split; [done|]. exists []. split; [done|]. right. split; [|done].
           intros [?|?]%elem_of_cons; [congruence|done].
      * intros [[Hne' Hin]|(-> & l0 & -> & [Hin|[Hnin ->]])].
        -- apply elem_of_cons in Hin as [Heq|Hin]; [by left|].
           right. left. done.
        -- apply elem_of_cons in Hin as [Heq|Hin]; [congruence|].
           right. right. split; [done|]. exists l0. split; [done|]. by left.
        -- right. right. split; [done|]. exists []. split; [done|]. right.
           split; [|done]. intros Hin. apply Hnin. by right.
Qed.

Lemma events_of_snoc n js j :
  events_of n (js ++ [j])
  = events_of n js ++
    (if String.eqb (j_name j) n then option_list (to_record <$> j_att j) else []).
Proof.
  unfold events_of. rewrite List.filter_app, omap_app. f_equal.
  cbn [List.filter]. destruct (String.eqb (j_name j) n); [|done].
  csimpl. by destruct (j_att j).
Qed.

Lemma events_of_absent n js : n ∉ j_name <$> js → events_of n js = [].
Proof.
  intros Hnin. unfold events_of.
  replace (List.filter _ js) with (@nil joined); [done|].
  symmetry. apply filter_nil_iff. intros j Hj.
  destruct (String.eqb_spec (j_name j) n) as [<-|]; [|done].
  exfalso. apply Hnin. apply list_elem_of_fmap. by exists j.
Qed.

(** the loop of [get_attendance_summary] *)
Lemma group_by_name js :
  let h := foldl (λ summary r,
                    summary_add summary (j_name r) (to_record <$> j_att r))
             [] js in
  NoDup h.*1 ∧
  (∀ n, n ∈ h.*1 ↔ n ∈ j_name <$> js) ∧
  (∀ n l, (n, l) ∈ h → l = events_of n js) ∧
  (StronglySorted (λ x y, String.le (j_name x) (j_name y)) js →
   StronglySorted String.le h.*1).
Proof.
  induction js as [|r js IH] using rev_ind; intros h.
  - subst h. simpl. split; [constructor|]. split; [done|]. split.
    + by intros n l ?%not_elem_of_nil.
    + constructor.
  - subst h. rewrite foldl_app. simpl.
    destruct IH as (Hnd & Hkeys & Hrows & Hsorted).
    set (h := foldl _ [] js) in *.
    split; [|split; [|split]].
    + rewrite summary_add_keys. case_decide as Hin; [done|].
      apply NoDup_app. split; [done|]. split; [|apply NoDup_singleton].
      by intros n Hn ->%list_elem_of_singleton.
    + intros n. rewrite summary_add_keys, fmap_app, elem_of_app.
      rewrite <- Hkeys. cbn [fmap list_fmap]. rewrite list_elem_of_singleton.
      case_decide as Hin.
      * split; [by left|]. intros [?| ->]; done.
      * by rewrite elem_of_app, list_elem_of_singleton.
    + intros n l. rewrite summary_add_elem by done. rewrite events_of_snoc.
      intros [[Hne Hin]|(-> & l0 & -> & [Hin|[Hnin ->]])].
      * destruct (String.eqb_spec (j_name r) n) as [Heq|_]; [congruence|].
        rewrite app_nil_r. by apply Hrows.
      * rewrite String.eqb_refl. f_equal. by apply Hrows.
      * rewrite String.eqb_refl. f_equal. symmetry. apply events_of_absent.
        by rewrite <- Hkeys.
    + intros Hs. rewrite summary_add_keys.
      pose proof (StronglySorted_app_1_l _ _ _ Hs) as Hs'.
      case_decide as Hin; [by apply Hsorted|].
      apply StronglySorted_app_2; [|by apply Hsorted|repeat constructor].
      intros k k' Hk ->%list_elem_of_singleton.
      apply Hkeys, list_elem_of_fmap in Hk as (r0 & -> & Hr0).
      apply (StronglySorted_app_1_elem_of _ _ _ _ _ Hs Hr0).
      apply list_elem_of_here.
Qed.

(** the part of the join of one user *)
Lemma join_rows_of_user d db u :
  let part := match rows_of_day (u_id u) d db with
              | [] => [{| j_name := u_name u; j_att := None |}]
              | rows => (λ a, {| j_name := u_name u; j_att := Some a |}) <$> rows
              end in
  part ≠ [] ∧ (∀ j, j ∈ part → j_name j = u_name u) ∧
  omap j_att part = rows_of_day (u_id u) d db.
Proof.
  assert (∀ rows : list att_row,
            omap j_att ((λ a, {| j_name := u_name u; j_att := Some a |}) <$> rows)
            = rows) as Hsome.
  { induction rows as [|a rows IH]; [done|]. csimpl. by rewrite IH. }
  destruct (rows_of_day (u_id u) d db) as [|r rows]; cbn zeta.
  - split; [done|]. split; [|done].
    by intros j ->%list_elem_of_singleton.
  - split; [done|]. split; [|apply Hsome].
    by intros j (a & -> & _)%list_elem_of_fmap.
Qed.

Lemma filter_all {A} (f : A → bool) (l : list A) :
  (∀ x, x ∈ l → f x = true) → List.filter f l = l.
Proof.
  induction l as [|x l IH]; intros Hall; [done|]. simpl.
  rewrite (Hall x) by apply list_elem_of_here. f_equal. apply IH.
  intros y Hy. apply Hall. by apply list_elem_of_further.
Qed.

Lemma left_join_names d db n :
  n ∈ j_name <$> left_join d db ↔ n ∈ u_name <$> users db.
Proof.
  unfold left_join. induction (users db) as [|u us IH]; [done|].
  cbn [flat_map]. rewrite fmap_app, elem_of_app, IH, fmap_cons, elem_of_cons.
  destruct (join_rows_of_user d db u) as (Hne & Hnames & _).
  cbn zeta in Hne, Hnames.
  destruct (match rows_of_day (u_id u) d db with [] => _ | _ => _ end)
    as [|j part]; [done|].
  split.
  - intros [(j' & -> & Hj')%list_elem_of_fmap|?]; [left|by right].
    by apply Hnames.
  - intros [->|?]; [left|by right]. apply list_elem_of_fmap. exists j.
    split; [|apply list_elem_of_here]. symmetry. apply Hnames, list_elem_of_here.
Qed.

Lemma left_join_rows d db u :
  NoDup (u_name <$> users db) → u ∈ users db →
  omap j_att (List.filter (λ j, String.eqb (j_name j) (u_name u)) (left_join d db))
  = rows_of_day (u_id u) d db.
Proof.
  unfold left_join. induction (users db) as [|u' us IH]; intros Hnd Hu.
  - by apply not_elem_of_nil in Hu.
  - rewrite fmap_cons in Hnd. apply NoDup_cons in Hnd as [Hu' Hnd].
    cbn [flat_map]. rewrite List.filter_app, omap_app.
    destruct (join_rows_of_user d db u') as (_ & Hnames & Hrows).
    cbn zeta in Hnames, Hrows.
    set (part := match rows_of_day (u_id u') d db with [] => _ | _ => _ end) in *.
    apply elem_of_cons in Hu as [->|Hu].
    + rewrite filter_all, Hrows.
      2:{ intros j Hj. rewrite (Hnames j Hj). apply String.eqb_refl. }
      replace (List.filter _ (flat_map _ us)) with (@nil joined);
        [by rewrite app_nil_r|].
      symmetry. apply filter_nil_iff. intros j Hj.
      destruct (String.eqb_spec (j_name j) (u_name u')) as [Heq|]; [|done].
      exfalso. apply Hu'. rewrite <- Heq.
      apply (left_join_names d {| users := us; users_seq := users_seq db;
                                   attendance := attendance db;
                                   attendance_seq := attendance_seq db |}).
      apply list_elem_of_fmap. by exists j.
    + replace (List.filter _ part) with (@nil joined); [by apply IH|].
      symmetry. apply filter_nil_iff. intros j Hj. rewrite (Hnames j Hj).
      destruct (String.eqb_spec (u_name u') (u_name u)) as [Heq|]; [|done].
      exfalso. apply Hu'. rewrite Heq. apply list_elem_of_fmap. by exists u.
Qed.

Lemma sorted_times n (l : list joined) :
  StronglySorted (λ x y, by_name_time x y) l →
  StronglySorted (λ a b, a_time a ≤ a_time b)
    (omap j_att (List.filter (λ j, String.eqb (j_name j) n) l)).
Proof.
  induction 1 as [|x l Hs IH Hx]; [constructor|].
  cbn [List.filter]. destruct (String.eqb_spec (j_name x) n) as [Hn|]; [|done].
  csimpl. destruct (j_att x) as [a|] eqn:Ha; [|done].
  constructor; [done|]. apply Forall_forall. intros b Hb.
  apply list_elem_of_omap in Hb as (y & Hy & Hyb).
  apply filter_elem_of in Hy as [Hy Hyn]. apply String.eqb_eq in Hyn.
  rewrite Forall_forall in Hx. specialize (Hx y Hy).
  apply by_name_time_same in Hx; [|congruence].
  rewrite Ha, Hyb in Hx. simpl in Hx. by apply Is_true_true, Z.leb_le in Hx.
Qed.

(** X24. [get_attendance_summary] has one entry for every user, the names in
    ascending order, as [get_all_users] lists them.  The entry of a user
    holds the events of the user on the date, earliest first; a user without
    an event that day has the empty list.  The date is today when none is
    given. *)
Theorem attendance_summary_spec date now db :
  db_ok db →
  let d := default (date_of now) date in
  let s := get_attendance_summary date now db in
  s.*1 = get_all_users db ∧
  ∀ u, u ∈ users db →
    ∃ rows, (u_name u, to_record <$> rows) ∈ s ∧
            rows ≡ₚ rows_of_day (u_id u) d db ∧
            StronglySorted (λ x y, a_time x ≤ a_time y) rows.
Proof.
  intros Hok d s. subst s. unfold get_attendance_summary. fold d.
  pose proof (order_join_perm by_name_time (left_join d db)) as Hperm.
  pose proof (order_join_sorted by_name_time (left_join d db)
                by_name_time_total by_name_time_trans) as Hsorted.
  set (sorted := order_join by_name_time (left_join d db)) in *.
  destruct (group_by_name sorted) as (Hnd & Hkeys & Hrows & Hnames).
  set (s := foldl _ [] sorted) in *.
  assert (∀ n, n ∈ s.*1 ↔ n ∈ u_name <$> users db) as Hkeys'.
  { intros n. by rewrite Hkeys, Hperm, left_join_names. }
  split.
  - apply (StronglySorted_unique String.le).
    + apply Hnames. eapply StronglySorted_weaken; [|exact Hsorted].
      intros x y _ _ Hxy. unfold by_name_time in Hxy.
      by apply andb_True in Hxy as [? _].
    + apply StronglySorted_merge_sort; apply _.
    + unfold get_all_users. rewrite merge_sort_Permutation.
      apply NoDup_Permutation; [done|apply Hok|done].
  - intros u Hu.
    assert (u_name u ∈ s.*1) as Hin.
    { apply Hkeys'. apply list_elem_of_fmap. by exists u. }
    apply list_elem_of_fmap in Hin as ([n l] & Hn & Hin). cbn [fst] in Hn.
    subst n. pose proof (Hrows _ _ Hin) as Hl.
    exists (omap j_att
              (List.filter (λ j, String.eqb (j_name j) (u_name u)) sorted)).
    split; [|split].
    + rewrite list_fmap_omap. unfold events_of in Hl. by rewrite <- Hl.
    + rewrite (filter_perm _ _ _ Hperm). rewrite left_join_rows; [done| |done].
      apply Hok.
    + by apply sorted_times.
Qed.

(** X25. [get_statistics] in general.  [by_user] has an entry for every user,
    with the number of the user's rows between the two dates, 0 included,
    and none for other names; [by_type] and [daily] have entries only for
    the punch types and the dates that have a row in the range: the number
    of rows of the type, and the number of distinct users with a row that
    day. *)
Theorem statistics_spec start_date end_date now db :
  db_ok db →
  let s := default (date_of (minus_days now 30)) start_date in
  let e := default (date_of now) end_date in
  let st := get_statistics start_date end_date now db in
  (∀ u, u ∈ users db →
     by_user st !! u_name u
     = Some (length (List.filter
                       (λ r, between s e r && (a_user_id r =? u_id u))
                       (attendance db)))) ∧
  (∀ n, get_user_id n db = None → by_user st !! n = None) ∧
  (∀ ty, by_type st !! ty
         = group_size
             (length (List.filter
                        (λ r, between s e r && punch_type_eqb (a_type r) ty)
                        (attendance db)))) ∧
  (∀ d, daily st !! d
        = match List.filter (λ r, between s e r && (a_date r =? d))
                  (attendance db) with
          | [] => None
          | day => Some (size (list_to_set (a_user_id <$> day) : gset Z))
          end).
Proof.
  intros Hok s e st. subst st. unfold get_statistics. fold s e. simpl.
  split; [|split; [|split]].
  - intros u Hu. apply elem_of_list_to_map_1.
    + rewrite <- list_fmap_compose. apply Hok.
    + apply list_elem_of_fmap. exists u. split; [|done].
      by rewrite filter_filter_and.
  - intros n Hid. apply not_elem_of_list_to_map_1. rewrite <- list_fmap_compose.
    intros (u & Hname & Hu)%list_elem_of_fmap. simpl in Hname.
    rewrite get_user_id_None in Hid. by destruct (Hid u Hu).
  - intros ty. by rewrite count_by_lookup, filter_fmap_length, filter_filter_and.
  - intros d. rewrite lookup_fmap, distinct_by_lookup, filter_fmap. simpl.
    rewrite filter_filter_and.
    destruct (List.filter _ (attendance db)) as [|r rest]; [done|].
    simpl. by rewrite <- !list_fmap_compose.
Qed.

End sqlite_reports.

(** * The further properties on the office fixtures *)

Lemma plain_names_two_enrolled : @Face.plain_names Fixture.cv Fixture.two_enrolled.
Proof.
  intros f ud Hf _. unfold Fixture.two_enrolled in Hf.
  cbn [Face.data_dir default from_option id] in Hf.
  apply lookup_insert_Some in Hf as [[<- _]|[_ Hf]].
  - exists "alice". by vm_compute.
  - apply lookup_singleton_Some in Hf as [<- _]. exists "bob". by vm_compute.
Qed.

Lemma plain_names_fresh : @Face.plain_names Fixture.cv Fixture.fresh.
Proof.
  intros f ud Hf _. unfold Fixture.fresh in Hf.
  cbn [Face.data_dir default from_option id] in Hf.
  by rewrite lookup_empty in Hf.
Qed.

Lemma records_ok_office : Json.records_ok Fixture.office_records.
Proof.
  unfold Fixture.office_records.
  repeat apply records_ok_punch. apply records_ok_empty.
Qed.

Lemma refs_ok_empty : Sqlite.refs_ok Sqlite.empty_db.
Proof. by intros r ?%not_elem_of_nil. Qed.

Lemma schema_ok_punch `{E : Sqlite.SqlEngine} name ty now db :
  Sqlite.db_ok db ∧ Sqlite.refs_ok db →
  Sqlite.db_ok (Sqlite.punch name ty now db).2 ∧
  Sqlite.refs_ok (Sqlite.punch name ty now db).2.
Proof.
  intros [Hok Hrefs]. split; [by apply db_ok_punch|by apply refs_ok_punch].
Qed.

Lemma refs_ok_office : Sqlite.refs_ok Fixture.office_db.
Proof.
  unfold Fixture.office_db.
  apply schema_ok_punch, schema_ok_punch, schema_ok_punch.
  split; [apply db_ok_empty|apply refs_ok_empty].
Qed.

Lemma office_rows_before :
  ∀ r, r ∈ Sqlite.attendance Fixture.office_db →
       Sqlite.a_time r < second_of (Fixture.at_time 1 10 0 0).
Proof.
  intros r Hr. vm_compute in Hr.
  repeat (apply elem_of_cons in Hr as [->|Hr]; [by vm_compute|]).
  by apply not_elem_of_nil in Hr.
Qed.

(** ** face_system.py *)

(** three rectangles, the last two of the same size: the first of the two
    is returned *)
Lemma detect_face_largest_witness :
  let frame := [(0, 10, 60, 60); (1, 20, 80, 80); (2, 30, 80, 80)] in
  @Face.detect_face Fixture.cv frame = Some ((1, 20, 80, 80), (1, 20, 80, 80)) ∧
  (∃ i, frame !! i = Some (1, 20, 80, 80) ∧
        (∀ j r', frame !! j = Some r' →
                 @Face.area r' ≤ @Face.area (1, 20, 80, 80)) ∧
        (∀ j r', (j < i)%nat → frame !! j = Some r' →
                 @Face.area r' < @Face.area (1, 20, 80, 80))) ∧
  @Face.area (1, 20, 80, 80) = 6400 ∧
  @Face.detect_face Fixture.cv Fixture.no_face_frame = None.
Proof.
  intros frame.
  assert (@Face.detect_face Fixture.cv frame
          = Some ((1, 20, 80, 80), (1, 20, 80, 80))) as Hd by (by vm_compute).
  split; [exact Hd|]. split; [|split].
  - exact (proj2 (proj1 (proj2 (@detect_face_largest Fixture.cv frame))
                    (1, 20, 80, 80) (1, 20, 80, 80) Hd)).
  - refine (proj2 (proj2 (@detect_face_largest Fixture.cv frame)) 1 20 80 80 _).
    by vm_compute.
  - exact (proj2 (proj1 (@detect_face_largest Fixture.cv Fixture.no_face_frame))
             eq_refl).
Defined.

Lemma train_fits_all_samples_witness :
  let s := (@Face.train Fixture.cv Fixture.fs_forward Fixture.two_enrolled).2 in
  Face.trained s = true ∧
  Face.model_file s = Some (Face.recognizer s) ∧
  Face.users_file s = Some (Face.users s).
Proof.
  intros s.
  pose proof (@train_fits_all_samples Fixture.cv Fixture.fs_forward
                Fixture.two_enrolled) as H.
  cbn zeta in H. destruct H as (_ & _ & Ht & _ & Hm & Hu);
    [vm_compute; reflexivity|].
  subst s. exact (conj Ht (conj Hm Hu)).
Defined.

Lemma load_model_after_train_witness :
  let s := (@Face.train Fixture.cv Fixture.fs_forward Fixture.two_enrolled).2 in
  @Face.load_model Fixture.cv [] (Face.data_dir s) (Face.model_file s)
    (Face.users_file s) = Some s.
Proof.
  intros s.
  refine (@load_model_after_train Fixture.cv Fixture.fs_forward []
            Fixture.two_enrolled _).
  by vm_compute.
Defined.

Lemma train_fails_without_samples_witness :
  (@Face.train Fixture.cv Fixture.fs_forward Fixture.alice_model_bob_file).1
  = false.
Proof.
  refine (proj2 (proj1 (@train_fails_without_samples Fixture.cv
                          Fixture.fs_forward Fixture.alice_model_bob_file)) _).
  by vm_compute.
Defined.

Lemma register_user_success_witness :
  let frames := replicate 10 (Fixture.face_frame 0 10) in
  (@Face.register_user Fixture.cv Fixture.fs_forward "carol" frames
     "2024-01-02T08:00:00" Fixture.fresh).1
  = (true, "Registered carol with 10 samples").
Proof.
  intros frames.
  refine (proj1 (@register_user_success Fixture.cv Fixture.fs_forward "carol"
                   frames "2024-01-02T08:00:00" Fixture.fresh _ _)).
  - by vm_compute.
  - vm_compute. lia.
Defined.

Lemma get_all_users_storage_witness :
  NoDup (@Face.get_all_users Fixture.cv Fixture.fs_forward Fixture.two_enrolled) ∧
  "alice" ∈ @Face.get_all_users Fixture.cv Fixture.fs_forward Fixture.two_enrolled.
Proof.
  pose proof (@get_all_users_storage Fixture.cv Fixture.fs_forward
                Fixture.two_enrolled plain_names_two_enrolled) as [Hnd Hin].
  split; [exact Hnd|]. apply Hin; [by vm_compute|].
  vm_compute. eexists. reflexivity.
Defined.

Lemma enrolments_listed_witness :
  let es := [ ("alice", replicate 10 (Fixture.face_frame 0 10), "2024-01-02");
              ("bob", replicate 9 (Fixture.face_frame 0 10), "2024-01-03") ] in
  "alice" ∈ @Face.get_all_users Fixture.cv Fixture.fs_forward
              (@Face.enroll_all Fixture.cv Fixture.fs_forward es Fixture.fresh).
Proof.
  intros es.
  refine (proj2 (proj2 (@enrolments_listed Fixture.cv Fixture.fs_forward es
                          Fixture.fresh plain_names_fresh _ _))
            ("alice", replicate 10 (Fixture.face_frame 0 10), "2024-01-02") _ _).
  - repeat constructor.
  - repeat constructor.
  - apply list_elem_of_here.
  - vm_compute. lia.
Defined.

(** ** app.py *)

(** a flat photo stays below the threshold with the outline on it, and the
    page shows the warning *)
Lemma mark_attendance_gate_witness :
  let s := (@Face.train Fixture.cv Fixture.fs_forward Fixture.two_enrolled).2 in
  @App.mark_attendance Fixture.cv Fixture.texture Fixture.drawing
    (Fixture.flat_frame 0 10) s
  = (App.LivenessWarning (inject_Z 90),
     [@Face.CallDetect Fixture.cv (Fixture.flat_frame 0 10)]).
Proof.
  intros s.
  refine (proj2 (proj2 (proj2 (@mark_attendance_gate Fixture.cv Fixture.texture
                                 Fixture.drawing (Fixture.flat_frame 0 10) s)))
            _).
  by vm_compute.
Defined.

(** the check is made on the frame with the outline: a photo whose own
    variance is 80 passes it at 110, and the page offers the buttons *)
Example photo_passes_with_outline :
  let s := (@Face.train Fixture.cv Fixture.fs_forward Fixture.two_enrolled).2 in
  @Face.laplacian_variance Fixture.cv Fixture.texture (Fixture.photo_frame 0 10)
  = inject_Z 80 ∧
  (@App.mark_attendance Fixture.cv Fixture.texture Fixture.drawing
     (Fixture.photo_frame 0 10) s).1
  = App.PunchButtons "alice" (inject_Z 10).
Proof. by vm_compute. Qed.

(** ** attendance.py *)

Lemma json_punch_outcome_witness :
  (Json.punch "alice" POut (Fixture.at_time 2 18 0 0) Fixture.office_records).1.1
  = false ∧
  (Json.punch "alice" PIn (Fixture.at_time 2 18 0 0) Fixture.office_records).1.1
  = true.
Proof.
  split.
  - by vm_compute.
  - refine (proj2 (proj1 (json_punch_outcome "alice" PIn (Fixture.at_time 2 18 0 0)
                            Fixture.office_records)) _).
    intros l Hl. vm_compute in Hl. by simplify_eq.
Defined.

Lemma json_repeat_rejected_witness :
  let r1 := Json.punch "bob" PIn (Fixture.at_time 1 10 0 0)
              Fixture.office_records in
  Json.punch "bob" PIn (Fixture.at_time 1 18 0 0) r1.2
  = ((false, "Already punched in at 10:00:00"), r1.2).
Proof.
  intros r1.
  refine (json_repeat_rejected "bob" PIn (Fixture.at_time 1 10 0 0)
            (Fixture.at_time 1 18 0 0) Fixture.office_records _ _);
    by vm_compute.
Defined.

Lemma json_today_status_witness :
  Json.get_today_status "bob" (Fixture.at_time 2 12 0 0) Fixture.office_records
  = "Not punched in" ∧
  Json.get_today_status "alice" (Fixture.at_time 2 12 0 0) Fixture.office_records
  = "Punched OUT at 17:00:00".
Proof.
  split.
  - refine (proj2 (proj1 (json_today_status "bob" (Fixture.at_time 2 12 0 0)
                            Fixture.office_records)) _).
    by vm_compute.
  - by vm_compute.
Defined.

Lemma json_history_negative_days_witness :
  (Json.get_user_history "alice" (-1) Fixture.office_records).*1 = [2; 1] ∧
  StronglySorted (λ a b, b < a)
    (Json.get_user_history "alice" (-1) Fixture.office_records).*1.
Proof.
  split; [by vm_compute|].
  refine (proj1 (json_history_negative_days "alice" (-1) Fixture.office_records _)).
  done.
Defined.

Lemma json_history_after_punch_witness :
  let r := Json.punch "alice" PIn (Fixture.at_time 3 9 0 0)
             Fixture.office_records in
  head (Json.get_user_history "alice" 1 r.2)
  = Some (3, [ {| r_type := PIn; r_time := "09:00:00" |} ]).
Proof.
  intros r.
  refine (json_history_after_punch "alice" PIn (Fixture.at_time 3 9 0 0) 1
            Fixture.office_records records_ok_office _ _ _);
    [by vm_compute| |done].
  intros d [l Hl].
  assert (map_Forall (λ d _, d ≤ 3)
            (default ∅ (Fixture.office_records !! "alice"))) as Hall.
  { apply map_Forall_to_list. vm_compute. repeat constructor; discriminate. }
  exact (Hall d l Hl).
Defined.

(** ** database.py *)

Lemma add_user_outcome_witness :
  Sqlite.add_user "alice" Fixture.office_db
  = ((false, "User alice already exists"), Fixture.office_db) ∧
  Sqlite.get_user_id "carol" (Sqlite.add_user "carol" Fixture.office_db).2
  = Some 3.
Proof.
  pose proof (add_user_outcome "alice" Fixture.office_db db_ok_office) as [Ha _].
  pose proof (add_user_outcome "carol" Fixture.office_db db_ok_office) as [_ Hc].
  split.
  - apply Ha. vm_compute. eexists. reflexivity.
  - destruct Hc as (_ & Hc & _); [by vm_compute|]. exact Hc.
Defined.

Lemma writes_keep_schema_witness :
  let db := (@Sqlite.punch Fixture.engine "carol" PLunch
               (Fixture.at_time 1 12 0 0) Fixture.office_db).2 in
  Sqlite.db_ok db ∧ Sqlite.refs_ok db.
Proof.
  intros db.
  exact (proj1 (proj2 (@writes_keep_schema Fixture.engine "carol" PLunch
                         (Fixture.at_time 1 12 0 0) (λ _, None)
                         Fixture.office_db db_ok_office refs_ok_office))).
Defined.

Lemma sqlite_punch_outcome_witness :
  ∃ uid,
    Sqlite.get_user_id "bob"
      (@Sqlite.punch Fixture.engine "bob" PIn (Fixture.at_time 1 9 31 0)
         Fixture.office_db).2 = Some uid ∧
    Sqlite.attendance
      (@Sqlite.punch Fixture.engine "bob" PIn (Fixture.at_time 1 9 31 0)
         Fixture.office_db).2 = Sqlite.attendance Fixture.office_db.
Proof.
  destruct (@sqlite_punch_outcome Fixture.engine "bob" PIn
              (Fixture.at_time 1 9 31 0) Fixture.office_db db_ok_office)
    as (uid & Hid & _ & _).
  exists uid. split; [done|]. by vm_compute.
Defined.

Lemma punch_checks_latest_only_witness :
  let db := (@Sqlite.punch Fixture.engine "alice" POut (Fixture.at_time 0 9 1 0)
               (@Sqlite.punch Fixture.engine "alice" PIn (Fixture.at_time 0 9 0 0)
                  Sqlite.empty_db).2).2 in
  (@Sqlite.punch Fixture.engine "alice" PIn (Fixture.at_time 0 9 2 0) db).1
  = Sqlite.Returned true "Punched in successfully at 09:02:00".
Proof.
  intros db.
  assert (Sqlite.db_ok db) as Hok
    by (subst db; repeat apply db_ok_punch; apply db_ok_empty).
  set (l := {| Sqlite.a_id := 2; Sqlite.a_user_id := 1; Sqlite.a_type := POut;
               Sqlite.a_time := 32460; Sqlite.a_date := 0 |}).
  rewrite (@punch_checks_latest_only Fixture.engine "alice" PIn
             (Fixture.at_time 0 9 2 0) db 1 l Hok).
  - by vm_compute.
  - by vm_compute.
  - vm_compute. apply list_elem_of_further, list_elem_of_here.
  - intros r Hr. vm_compute in Hr.
    apply elem_of_cons in Hr as [->|Hr]; [left; by vm_compute|].
    apply elem_of_cons in Hr as [->|Hr]; [by right|].
    by apply not_elem_of_nil in Hr.
  - left. by vm_compute.
Defined.

Lemma punch_registers_unknown_witness :
  (@Sqlite.punch Fixture.engine "carol" POut (Fixture.at_time 1 12 0 0)
     Fixture.office_db).1
  = Sqlite.Returned true "Punched out successfully at 12:00:00" ∧
  Sqlite.get_user_id "carol"
    (@Sqlite.punch Fixture.engine "carol" POut (Fixture.at_time 1 12 0 0)
       Fixture.office_db).2 = Some 3.
Proof.
  destruct (@punch_registers_unknown Fixture.engine "carol" POut
              (Fixture.at_time 1 12 0 0) Fixture.office_db db_ok_office
              refs_ok_office) as (Hp & Hid & _); [by vm_compute|].
  split; [by rewrite Hp|exact Hid].
Defined.

Lemma sqlite_today_status_witness :
  @Sqlite.get_today_status Fixture.engine "carol" (Fixture.at_time 1 12 0 0)
    Fixture.office_db = "Not registered" ∧
  @Sqlite.get_today_status Fixture.engine "alice" (Fixture.at_time 1 12 0 0)
    Fixture.office_db = "Not punched in".
Proof.
  pose proof (@sqlite_today_status Fixture.engine "carol"
                (Fixture.at_time 1 12 0 0) Fixture.office_db db_ok_office)
    as [Hc _].
  pose proof (@sqlite_today_status Fixture.engine "alice"
                (Fixture.at_time 1 12 0 0) Fixture.office_db db_ok_office)
    as [_ Ha].
  split; [apply Hc; by vm_compute|].
  apply (Ha 1); by vm_compute.
Defined.

Lemma sqlite_status_after_punch_witness :
  ∃ t,
    @Sqlite.get_today_status Fixture.engine "bob" (Fixture.at_time 1 18 0 0)
      (@Sqlite.punch Fixture.engine "bob" POut (Fixture.at_time 1 10 0 0)
         Fixture.office_db).2
    = "Punched OUT at " +:+ strftime_HMS t.
Proof.
  destruct (@sqlite_status_after_punch Fixture.engine "bob" POut
              (Fixture.at_time 1 10 0 0) (Fixture.at_time 1 18 0 0)
              Fixture.office_db db_ok_office office_rows_before)
    as (t & Ht & _); [by vm_compute|].
  by exists t.
Defined.

Lemma sqlite_history_after_punch_witness :
  let r := @Sqlite.punch Fixture.engine "bob" POut (Fixture.at_time 1 10 0 0)
             Fixture.office_db in
  ∃ l, (1, l) ∈ @Sqlite.get_user_history Fixture.engine "bob" 7
                   (Fixture.at_time 3 8 0 0) r.2 ∧
       {| r_type := POut; r_time := "10:00:00" |} ∈ l.
Proof.
  intros r.
  refine (@sqlite_history_after_punch Fixture.engine "bob" POut
            (Fixture.at_time 1 10 0 0) (Fixture.at_time 3 8 0 0) 7
            Fixture.office_db r.2 "Punched out successfully at 10:00:00"
            db_ok_office _ _ _ _ office_dates _); by vm_compute.
Defined.

Lemma deleted_user_starts_afresh_witness :
  let db1 := (Sqlite.delete_user (λ _, None) "alice" Fixture.office_db).2 in
  Sqlite.get_user_id "alice"
    (@Sqlite.punch Fixture.engine "alice" PIn (Fixture.at_time 2 9 0 0) db1).2
  = Some 3.
Proof.
  intros db1.
  refine (proj1 (proj2 (@deleted_user_starts_afresh Fixture.engine (λ _, None)
                          "alice" PIn (Fixture.at_time 2 9 0 0) Fixture.office_db
                          1 db_ok_office refs_ok_office _ _)));
    by vm_compute.
Defined.

Lemma sqlite_all_users_witness :
  NoDup (Sqlite.get_all_users Fixture.office_db) ∧
  "bob" ∈ Sqlite.get_all_users Fixture.office_db.
Proof.
  pose proof (sqlite_all_users Fixture.office_db) as (_ & Hin & Hnd).
  split; [by apply Hnd, db_ok_office|]. apply Hin.
  vm_compute. eexists. reflexivity.
Defined.

Lemma attendance_summary_spec_witness :
  (@Sqlite.get_attendance_summary Fixture.join_engine None
     (Fixture.at_time 1 12 0 0) Fixture.office_db).*1
  = Sqlite.get_all_users Fixture.office_db ∧
  @Sqlite.get_attendance_summary Fixture.join_engine None
    (Fixture.at_time 1 12 0 0) Fixture.office_db
  = [ ("alice", []); ("bob", [ {| r_type := PIn; r_time := "09:30:00" |} ]) ].
Proof.
  split; [|by vm_compute].
  exact (proj1 (@attendance_summary_spec Fixture.join_engine None
                  (Fixture.at_time 1 12 0 0) Fixture.office_db db_ok_office)).
Defined.

Lemma statistics_spec_witness :
  Sqlite.by_user (Sqlite.get_statistics (Some 0) (Some 0)
                    (Fixture.at_time 1 12 0 0) Fixture.office_db) !! "bob"
  = Some 0%nat.
Proof.
  refine (proj1 (statistics_spec (Some 0) (Some 0) (Fixture.at_time 1 12 0 0)
                   Fixture.office_db db_ok_office)
            {| Sqlite.u_id := 2; Sqlite.u_name := "bob" |} _).
  vm_compute. apply list_elem_of_further, list_elem_of_here.
Defined.
